(** * OpenAPI v2 to NDC REST schema conversion (openapi/v2.go)

    A shallow embedding of the converter of [openapi/v2.go]: the recursive
    type resolution ([getSchemaType], [getSchemaTypeFromProxy],
    [getSchemaTypeFromParameter]), the parameter converter
    ([convertParameters]), the response resolver ([convertResponse]) and
    the operation mapper ([convertProcedureOperation],
    [pathToNDCOperations]).

    Go pointers that the code tests against [nil] are [option]s; Go maps
    are [gmap]s; the ordered maps of the document model are association
    lists in declaration order; the converter's mutable [oc.schema] is
    threaded explicitly through a state-and-error monad whose third
    outcome is a run-time panic (nil dereference). *)

From stdpp Require Import gmap strings list fin_maps.
From Stdlib Require Import ZArith.

Set Warnings "-register-all".

(** ** Target model: ndc-sdk-go [schema] and the repository's [rest] package *)

(** [schema.TypeEncoder]: the three type expressions of the target. *)
Inductive TypeEncoder : Type :=
  | NamedType (name : string)
  | NullableType (underlying : TypeEncoder)
  | ArrayType (element : TypeEncoder).

Definition NewNamedType (name : string) : TypeEncoder := NamedType name.
Definition NewNullableType (underlying : TypeEncoder) : TypeEncoder :=
  NullableType underlying.
Definition NewArrayType (element : TypeEncoder) : TypeEncoder :=
  ArrayType element.
Definition NewNullableNamedType (name : string) : TypeEncoder :=
  NullableType (NamedType name).

(** The serialised form returned by [Encode()]; kept structural. *)
Definition EncodedType : Type := TypeEncoder.

(** Number of [Nullable] wrappers stacked at the outer level. *)
Fixpoint nullableDepth (t : TypeEncoder) : nat :=
  match t with
  | NullableType u => S (nullableDepth u)
  | _ => 0
  end.

(** [rest.TypeSchema], the denormalised type descriptor. *)
Inductive TypeSchema : Type := MkTypeSchema {
  ts_Type : string;
  ts_Format : string;
  ts_Pattern : string;
  ts_Nullable : bool;
  ts_Maximum : option Z;
  ts_Minimum : option Z;
  ts_MaxLength : option Z;
  ts_MinLength : option Z;
  ts_Description : string;
  ts_Properties : option (gmap string TypeSchema);
  ts_Items : option TypeSchema
}.

(** The zero value [rest.TypeSchema{}]. *)
Definition zeroTypeSchema : TypeSchema :=
  MkTypeSchema "" "" "" false None None None None "" None None.

Definition ts_withType (t : TypeSchema) (ty : string) : TypeSchema :=
  MkTypeSchema ty (ts_Format t) (ts_Pattern t) (ts_Nullable t) (ts_Maximum t)
    (ts_Minimum t) (ts_MaxLength t) (ts_MinLength t) (ts_Description t)
    (ts_Properties t) (ts_Items t).

Definition ts_withNullable (t : TypeSchema) (b : bool) : TypeSchema :=
  MkTypeSchema (ts_Type t) (ts_Format t) (ts_Pattern t) b (ts_Maximum t)
    (ts_Minimum t) (ts_MaxLength t) (ts_MinLength t) (ts_Description t)
    (ts_Properties t) (ts_Items t).

Definition ts_withProperties (t : TypeSchema) (ps : gmap string TypeSchema)
  : TypeSchema :=
  MkTypeSchema (ts_Type t) (ts_Format t) (ts_Pattern t) (ts_Nullable t)
    (ts_Maximum t) (ts_Minimum t) (ts_MaxLength t) (ts_MinLength t)
    (ts_Description t) (Some ps) (ts_Items t).

Definition ts_withItems (t : TypeSchema) (it : TypeSchema) : TypeSchema :=
  MkTypeSchema (ts_Type t) (ts_Format t) (ts_Pattern t) (ts_Nullable t)
    (ts_Maximum t) (ts_Minimum t) (ts_MaxLength t) (ts_MinLength t)
    (ts_Description t) (ts_Properties t) (Some it).

(** Modelled from the spec: the scalar definition of the ndc-sdk-go
    [schema] package is not part of this file; the spec calls it opaque,
    optionally carrying a representation hint. [NewScalarType] has none. *)
Record ScalarType : Type := MkScalarType { sc_Representation : option string }.

Definition NewScalarType : ScalarType := MkScalarType None.

Record ObjectField : Type := MkObjectField {
  of_Type : EncodedType;
  of_Description : option string
}.

Record ObjectType : Type := MkObjectType {
  ot_Description : option string;
  ot_Fields : gmap string ObjectField
}.

Record ArgumentInfo : Type := MkArgumentInfo {
  arg_Type : EncodedType;
  arg_Description : option string
}.

(** Modelled from the spec: the [rest.ParameterLocation] enumeration is
    declared outside this file; the spec lists its members as query, path,
    header, body and form-data. *)
Inductive ParameterLocation : Type :=
  | InQuery | InPath | InHeader | InBody | InFormData.

#[global] Instance ParameterLocation_eq_dec : EqDecision ParameterLocation.
Proof. solve_decision. Defined.

Record RequestParameter : Type := MkRequestParameter {
  rp_Name : string;
  rp_In : ParameterLocation;
  rp_Schema : option TypeSchema
}.

Record RequestBody : Type := MkRequestBody {
  rb_ContentType : string;
  rb_Schema : option TypeSchema
}.

(** Modelled from the spec: the media-type constants of the [rest] package
    are declared outside this file; the spec names their values. *)
Definition ContentTypeJSON : string := "application/json".
Definition ContentTypeMultipartFormData : string := "multipart/form-data".

(** Security requirements are copied through by [convertSecurities]. *)
Definition SecurityRequirement : Type := list (string * list string).
Definition AuthSecurities : Type := list (list (string * list string)).

Record Request : Type := MkRequest {
  req_URL : string;
  req_Method : string;
  req_Parameters : list RequestParameter;
  req_RequestBody : option RequestBody;
  req_Security : AuthSecurities
}.

Record RESTFunctionInfo : Type := MkRESTFunctionInfo {
  fn_Request : Request;
  fn_Name : string;
  fn_Arguments : gmap string ArgumentInfo;
  fn_ResultType : EncodedType;
  fn_Description : option string
}.

Record RESTProcedureInfo : Type := MkRESTProcedureInfo {
  proc_Request : Request;
  proc_Name : string;
  proc_Arguments : gmap string ArgumentInfo;
  proc_ResultType : EncodedType;
  proc_Description : option string
}.

(** [rest.NDCRestSchema]: the registries and operation lists the converter
    writes ([Settings] is only written by the document walker). *)
Record NDCRestSchema : Type := MkNDCRestSchema {
  ScalarTypes : gmap string ScalarType;
  ObjectTypes : gmap string ObjectType;
  Functions : list RESTFunctionInfo;
  Procedures : list RESTProcedureInfo
}.

Definition NewNDCRestSchema : NDCRestSchema := MkNDCRestSchema ∅ ∅ [] [].

Definition setScalarTypes (s : NDCRestSchema) (m : gmap string ScalarType)
  : NDCRestSchema :=
  MkNDCRestSchema m (ObjectTypes s) (Functions s) (Procedures s).

Definition setObjectTypes (s : NDCRestSchema) (m : gmap string ObjectType)
  : NDCRestSchema :=
  MkNDCRestSchema (ScalarTypes s) m (Functions s) (Procedures s).

Definition appendFunction (s : NDCRestSchema) (f : RESTFunctionInfo)
  : NDCRestSchema :=
  MkNDCRestSchema (ScalarTypes s) (ObjectTypes s) (Functions s ++ [f])
    (Procedures s).

Definition appendProcedure (s : NDCRestSchema) (p : RESTProcedureInfo)
  : NDCRestSchema :=
  MkNDCRestSchema (ScalarTypes s) (ObjectTypes s) (Functions s)
    (Procedures s ++ [p]).

(** ** Source model: the libopenapi v2 document objects read by the file *)

(** [base.Schema] and [base.SchemaProxy], with the fields this file reads.
    [schema_Items] is [Items] then [Items.A]; [proxy_Schema] is what
    [Schema()] returns, [proxy_Reference] what [GetReference()] returns.
    A reference is therefore a proxy holding the schema it points to, and
    the document is a finite tree. *)
Inductive Schema : Type := MkSchema {
  schema_Type : list string;
  schema_Format : string;
  schema_Enum : list string;
  schema_Title : string;
  schema_Description : string;
  schema_Nullable : option bool;
  schema_Required : list string;
  schema_AnyOf : list (option SchemaProxy);
  schema_AdditionalProperties : option unit;
  schema_Properties : option (list (string * option SchemaProxy));
  schema_Items : option (option SchemaProxy)
}
with SchemaProxy : Type := MkSchemaProxy {
  proxy_Reference : string;
  proxy_Schema : option Schema
}.

(** [v2.Items] of an array parameter. *)
Record Items : Type := MkItems { items_Type : string }.

Record V2Parameter : Type := MkV2Parameter {
  param_Name : string;
  param_In : string;
  param_Type : string;
  param_Format : string;
  param_Description : string;
  param_Required : option bool;
  param_Pattern : string;
  param_Maximum : option Z;
  param_Minimum : option Z;
  param_MaxLength : option Z;
  param_MinLength : option Z;
  param_Enum : list string;
  param_Items : option Items;
  param_Schema : option SchemaProxy
}.

Record Response : Type := MkResponse { resp_Schema : option SchemaProxy }.

Record Responses : Type := MkResponses {
  resps_Codes : option (list (string * option Response));
  resps_Default : option Response
}.

Record Operation : Type := MkOperation {
  op_OperationId : string;
  op_Summary : string;
  op_Consumes : list string;
  op_Parameters : list (option V2Parameter);
  op_Responses : option Responses;
  op_Security : list SecurityRequirement
}.

Record PathItem : Type := MkPathItem {
  pi_Get : option Operation;
  pi_Post : option Operation;
  pi_Put : option Operation;
  pi_Patch : option Operation;
  pi_Delete : option Operation
}.

Record ConvertOptions : Type := MkConvertOptions {
  EnvPrefix : string;
  TrimPrefix : string
}.

(** ** Errors and the conversion monad *)

Inductive error : Type :=
  | errParameterSchemaEmpty
  | errorsNew (msg : string)
  | errLocation (declared : string)
  | errWrap (context : string) (cause : error).

(** [fmt.Errorf(prefix ++ "%s", arg)]. *)
Definition Errorf (prefix arg : string) : error := errorsNew (prefix +:+ arg).

(** Outcome of a call on the converter: a value, a returned [error], or a
    panic. The first two carry the converter's schema as the call left it. *)
Inductive Result (A : Type) : Type :=
  | Ok (a : A) (s : NDCRestSchema)
  | Err (e : error) (s : NDCRestSchema)
  | Panic.
Arguments Ok {A} a s.
Arguments Err {A} e s.
Arguments Panic {A}.

Definition M (A : Type) : Type := NDCRestSchema → Result A.

Definition ret {A} (a : A) : M A := λ s, Ok a s.
Definition fail {A} (e : error) : M A := λ s, Err e s.
Definition panic {A} : M A := λ _, Panic.
Definition bind {A B} (m : M A) (k : A → M B) : M B :=
  λ s, match m s with
       | Ok a s' => k a s'
       | Err e s' => Err e s'
       | Panic => Panic
       end.
Definition getSchema : M NDCRestSchema := λ s, Ok s s.
Definition putSchema (s' : NDCRestSchema) : M unit := λ _, Ok tt s'.

(** [if err != nil { return fmt.Errorf("%s: %s", ctx, err) }]. *)
Definition wrapErr {A} (ctx : string) (m : M A) : M A :=
  λ s, match m s with
       | Err e s' => Err (errWrap ctx e) s'
       | r => r
       end.

Declare Scope conv_scope.
Delimit Scope conv_scope with conv.
Notation "x <~ m ;; k" := (bind m (λ x, k))
  (at level 100, m at next level, right associativity) : conv_scope.
Open Scope conv_scope.

(** [x.Encode()] on an interface value: a nil interface panics. *)
Definition Encode (t : option TypeEncoder) : M EncodedType :=
  match t with
  | Some t => ret t
  | None => panic
  end.

(** ** Go library functions used by the file *)

Definition slices_Contains (l : list string) (x : string) : bool :=
  bool_decide (x ∈ l).

Fixpoint strings_HasPrefix (s prefix : string) : bool :=
  match prefix, s with
  | EmptyString, _ => true
  | String c p', String d s' => if decide (c = d) then strings_HasPrefix s' p' else false
  | String _ _, EmptyString => false
  end.

Fixpoint strings_Contains (s sub : string) : bool :=
  strings_HasPrefix s sub ||
  match s with
  | EmptyString => false
  | String _ s' => strings_Contains s' sub
  end.

Fixpoint dropPrefix (s prefix : string) : string :=
  match prefix, s with
  | String _ p', String _ s' => dropPrefix s' p'
  | _, _ => s
  end.

Definition strings_TrimPrefix (s prefix : string) : string :=
  if strings_HasPrefix s prefix then dropPrefix s prefix else s.

(** [orderedmap.Map.GetOrZero]: the value under the key, the zero value
    (a nil pointer) when the key is absent. *)
Fixpoint GetOrZero {V} (m : list (string * option V)) (k : string) : option V :=
  match m with
  | [] => None
  | (k', v) :: m' => if decide (k' = k) then v else GetOrZero m' k
  end.

(** [m == nil || m.IsZero()] on an ordered map. *)
Definition nilOrZero {V} (m : option (list V)) : bool :=
  match m with
  | None | Some [] => true
  | Some (_ :: _) => false
  end.

Definition deref {A} (p : option A) : M A :=
  match p with
  | Some a => ret a
  | None => panic
  end.

(** A [for] loop over a slice or an ordered map, threading the loop state. *)
Definition forEach {X A} (body : A → X → M A) : list X → A → M A :=
  fix go (l : list X) (acc : A) : M A :=
    match l with
    | [] => ret acc
    | x :: l' => acc' <~ body acc x ;; go l' acc'
    end.
Arguments forEach : simpl never.

Definition nonEmpty (s : string) : option string :=
  if decide (s = "") then None else Some s.

(** ** Functions of the package that live outside this file

    They are taken as given: every theorem below holds for any
    implementation of them. [getScalarFromType] receives the scalar
    registry and returns it with the entries it created. *)
Class Collaborators : Type := MkCollaborators {
  isPrimitiveScalar : string → bool;
  getScalarFromType :
    gmap string ScalarType → list string → string → list string → string →
    list string → string * gmap string ScalarType;
  createSchemaFromOpenAPISchema : Schema → string → TypeSchema;
  getSchemaRefTypeNameV2 : string → string;
  getNamedType : TypeEncoder → string → string;
  ToPascalCase : string → string;
  StringSliceToPascalCase : list string → string;
  buildPathMethodName : string → string → ConvertOptions → string;
  ParseParameterLocation : string → error + ParameterLocation;
  convertSecurities : list SecurityRequirement → AuthSecurities
}.

Section Converter.

Context `{Collaborators}.
Variable options : ConvertOptions.

Definition trimPathPrefix (input : string) : string :=
  if decide (TrimPrefix options = "") then input
  else strings_TrimPrefix input (TrimPrefix options).

(** [getScalarFromType(oc.schema, ...)] on the converter's schema. *)
Definition scalarFromType (names : list string) (format : string)
    (enum : list string) (apiPath : string) (fieldPaths : list string)
  : M string :=
  λ s, let '(name, scalars) :=
         getScalarFromType (ScalarTypes s) names format enum apiPath fieldPaths in
       Ok name (setScalarTypes s scalars).

Definition registerScalar (name : string) (t : ScalarType) : M unit :=
  λ s, Ok tt (setScalarTypes s (<[name := t]> (ScalarTypes s))).

Definition registerObject (name : string) (t : ObjectType) : M unit :=
  λ s, Ok tt (setObjectTypes s (<[name := t]> (ObjectTypes s))).

(** The final lines of [getSchemaType]:
    [if typeSchema.Nullable != nil && *typeSchema.Nullable]. *)
Definition isTrue (b : option bool) : bool :=
  match b with
  | Some true => true
  | _ => false
  end.

(** [getSchemaTypeFromProxy], open in the resolver it calls for an inline
    schema; closed below with [getSchemaType] itself. *)
Definition getSchemaTypeFromProxyWith
    (resolve : Schema → string → list string → M (TypeEncoder * TypeSchema))
    (schemaProxy : option SchemaProxy) (nullable : bool) (apiPath : string)
    (fieldPaths : list string) : M (TypeEncoder * TypeSchema) :=
  match schemaProxy with
  | None => fail errParameterSchemaEmpty
  | Some proxy =>
    match proxy_Schema proxy with
    | None =>
      fail (Errorf "cannot get schema from proxy: " (proxy_Reference proxy))
    | Some innerSchema =>
      let refName := getSchemaRefTypeNameV2 (proxy_Reference proxy) in
      r <~ (if bool_decide (refName ≠ "")
               && bool_decide (0 < length (schema_Type innerSchema))
               && bool_decide (head (schema_Type innerSchema) = Some "object")
            then
              ret (NewNamedType (ToPascalCase refName),
                   ts_withType zeroTypeSchema refName)
            else
              let fieldPaths' :=
                if bool_decide (schema_Title innerSchema ≠ "")
                   && negb (strings_Contains (schema_Title innerSchema) " ")
                then [ToPascalCase (schema_Title innerSchema)]
                else fieldPaths in
              resolve innerSchema apiPath fieldPaths') ;;
      let '(ndcType, typeSchema) := r in
      ret (if nullable then NewNullableType ndcType else ndcType, typeSchema)
    end
  end.

(** Loop state of the property loop of [getSchemaType]:
    [typeResult.Properties] and [object.Fields]. *)
Definition propertyAcc : Type :=
  gmap string TypeSchema * gmap string ObjectField.

(** Body of [getSchemaType] past its nil check; [typeSchema] is non-nil. *)
Fixpoint getSchemaTypeOf (typeSchema : Schema) (apiPath : string)
    (fieldPaths : list string) {struct typeSchema}
  : M (TypeEncoder * TypeSchema) :=
  if bool_decide (0 < length (schema_AnyOf typeSchema))
     || bool_decide (schema_AdditionalProperties typeSchema ≠ None)
     || bool_decide (1 < length (schema_Type typeSchema))
  then
    let scalarName := "JSON" in
    s <~ getSchema ;;
    _ <~ (match ScalarTypes s !! scalarName with
          | Some _ => ret tt
          | None => registerScalar scalarName NewScalarType
          end) ;;
    ret (NewNamedType scalarName,
         createSchemaFromOpenAPISchema typeSchema scalarName)
  else
    match schema_Type typeSchema with
    | [] => fail errParameterSchemaEmpty
    | typeName :: _ =>
      r <~ (if isPrimitiveScalar typeName then
              scalarName <~ scalarFromType (schema_Type typeSchema)
                (schema_Format typeSchema) (schema_Enum typeSchema)
                (trimPathPrefix apiPath) fieldPaths ;;
              ret (NewNamedType scalarName,
                   createSchemaFromOpenAPISchema typeSchema scalarName)
            else
              let typeResult :=
                ts_withType (createSchemaFromOpenAPISchema typeSchema "")
                  typeName in
              if decide (typeName = "object") then
                let refName := StringSliceToPascalCase fieldPaths in
                match schema_Properties typeSchema with
                | None | Some [] =>
                  _ <~ registerScalar refName NewScalarType ;;
                  ret (NewNamedType refName, typeResult)
                | Some properties =>
                  acc <~ forEach
                    (λ (acc : propertyAcc) (prop : string * option SchemaProxy),
                       let propName := prop.1 in
                       let nullable :=
                         negb (slices_Contains (schema_Required typeSchema)
                                 propName) in
                       r <~ getSchemaTypeFromProxyWith getSchemaTypeOf prop.2
                              nullable apiPath (fieldPaths ++ [propName]) ;;
                       let '(propType, propApiSchema) := r in
                       ty <~ Encode (Some propType) ;;
                       let objField :=
                         MkObjectField ty
                           (nonEmpty (ts_Description propApiSchema)) in
                       ret (<[propName := ts_withNullable propApiSchema nullable]>
                              acc.1,
                            <[propName := objField]> acc.2))
                    properties (∅, ∅) ;;
                  _ <~ registerObject refName
                         (MkObjectType (nonEmpty (schema_Description typeSchema))
                            acc.2) ;;
                  ret (NewNamedType refName, ts_withProperties typeResult acc.1)
                end
              else if decide (typeName = "array") then
                match schema_Items typeSchema with
                | None | Some None => fail (errorsNew "array item is empty")
                | Some (Some itemsA) =>
                  let itemName :=
                    getSchemaRefTypeNameV2 (proxy_Reference itemsA) in
                  if decide (itemName ≠ "") then
                    ret (NewArrayType (NewNamedType itemName), typeResult)
                  else
                    match proxy_Schema itemsA with
                    | Some itemSchemaA =>
                      r <~ getSchemaTypeOf itemSchemaA apiPath fieldPaths ;;
                      let '(itemSchema, propType) := r in
                      ret (NewArrayType itemSchema,
                           ts_withItems typeResult propType)
                    | None =>
                      fail (Errorf "cannot parse type reference name: "
                              (proxy_Reference itemsA))
                    end
                end
              else fail (Errorf "unsupported schema type " typeName)) ;;
      let '(result, typeResult) := r in
      if isTrue (schema_Nullable typeSchema)
      then ret (NewNullableType result, typeResult)
      else ret (result, typeResult)
    end.

Definition getSchemaType (typeSchema : option Schema) (apiPath : string)
    (fieldPaths : list string) : M (TypeEncoder * TypeSchema) :=
  match typeSchema with
  | None => fail errParameterSchemaEmpty
  | Some s => getSchemaTypeOf s apiPath fieldPaths
  end.

Definition getSchemaTypeFromProxy :
  option SchemaProxy → bool → string → list string →
  M (TypeEncoder * TypeSchema) :=
  getSchemaTypeFromProxyWith getSchemaTypeOf.

(** [getSchemaTypeFromParameter]. The guard of the array case is
    [param.Items == nil && param.Items.Type == ""]: Go evaluates the right
    operand exactly when the left one is true. *)
Definition getSchemaTypeFromParameter (param : V2Parameter) (apiPath : string)
    (fieldPaths : list string) : M TypeEncoder :=
  if decide (param_Type param = "") then fail errParameterSchemaEmpty
  else
    result <~ (if isPrimitiveScalar (param_Type param) then
                 scalarName <~ scalarFromType [param_Type param]
                   (param_Format param) (param_Enum param)
                   (trimPathPrefix apiPath) fieldPaths ;;
                 ret (NewNamedType scalarName)
               else if decide (param_Type param = "object") then
                 fail (errorsNew "unsupported object parameter")
               else if decide (param_Type param = "array") then
                 itemEmpty <~ (if bool_decide (param_Items param = None) then
                                 items <~ deref (param_Items param) ;;
                                 ret (bool_decide (items_Type items = ""))
                               else ret false) ;;
                 if (itemEmpty : bool) then
                   fail (errorsNew "array item is empty")
                 else
                   items <~ deref (param_Items param) ;;
                   itemName <~ scalarFromType [items_Type items]
                     (param_Format param) (param_Enum param)
                     (trimPathPrefix apiPath) fieldPaths ;;
                   ret (NewArrayType (NewNamedType itemName))
               else
                 fail (Errorf "unsupported schema type " (param_Type param))) ;;
    if negb (isTrue (param_Required param))
    then ret (NewNullableType result)
    else ret result.

(** Loop state of [convertParameters]: [arguments], [reqParams],
    [requestBody] and [formData.Properties]. *)
Record paramState : Type := MkParamState {
  ps_arguments : gmap string ArgumentInfo;
  ps_reqParams : list RequestParameter;
  ps_requestBody : option RequestBody;
  ps_formData : gmap string TypeSchema
}.

(** One iteration of the loop of [convertParameters]. *)
Definition convertParameter (apiPath : string) (fieldPaths : list string)
    (st : paramState) (param : option V2Parameter) : M paramState :=
  match param with
  | None => ret st
  | Some param =>
    let paramName := param_Name param in
    if decide (paramName = "") then fail (errorsNew "parameter name is empty")
    else
      let paramRequired := isTrue (param_Required param) in
      r <~ (if decide (param_Type param ≠ "") then
              schemaType <~ getSchemaTypeFromParameter param apiPath fieldPaths ;;
              let nullable := negb paramRequired in
              ret (Some schemaType,
                   Some (MkTypeSchema
                           (getNamedType schemaType (param_Type param)) ""
                           (param_Pattern param) nullable (param_Maximum param)
                           (param_Minimum param) (param_MaxLength param)
                           (param_MinLength param) "" None None))
            else
              match param_Schema param with
              | Some _ =>
                r <~ getSchemaTypeFromProxy (param_Schema param)
                       (negb paramRequired) apiPath fieldPaths ;;
                ret (Some r.1, Some r.2)
              | None => ret (None, None)
              end) ;;
      let '(schemaType, typeSchema) := r in
      match ParseParameterLocation (param_In param) with
      | inl err => fail err
      | inr paramLocation =>
        ty <~ Encode schemaType ;;
        let argument :=
          MkArgumentInfo ty (nonEmpty (param_Description param)) in
        match paramLocation with
        | InBody =>
          ret (MkParamState (<["body" := argument]> (ps_arguments st))
                 (ps_reqParams st) (Some (MkRequestBody "" typeSchema))
                 (ps_formData st))
        | InFormData =>
          ret (MkParamState (<[paramName := argument]> (ps_arguments st))
                 (ps_reqParams st) (ps_requestBody st)
                 (match typeSchema with
                  | Some ts => <[paramName := ts]> (ps_formData st)
                  | None => ps_formData st
                  end))
        | _ =>
          ret (MkParamState (<[paramName := argument]> (ps_arguments st))
                 (ps_reqParams st ++
                    [MkRequestParameter paramName paramLocation typeSchema])
                 (ps_requestBody st) (ps_formData st))
        end
      end
  end.

(** The object descriptor built from the form-data parameters. *)
Definition formDataSchema (properties : gmap string TypeSchema) : TypeSchema :=
  ts_withProperties (ts_withType zeroTypeSchema "object") properties.

Definition convertParameters (params : list (option V2Parameter))
    (apiPath : string) (fieldPaths : list string)
  : M (gmap string ArgumentInfo * list RequestParameter * option RequestBody) :=
  if bool_decide (length params = 0) then ret (∅, [], None)
  else
    st <~ forEach (convertParameter apiPath fieldPaths) params
            (MkParamState ∅ [] None ∅) ;;
    let requestBody :=
      if bool_decide (0 < size (ps_formData st)) then
        Some (MkRequestBody ContentTypeMultipartFormData
                (Some (formDataSchema (ps_formData st))))
      else ps_requestBody st in
    ret (ps_arguments st, ps_reqParams st, requestBody).

(** The loop over ["200"; "201"; "204"] of [convertResponse]. *)
Fixpoint firstResponse (codes : list (string * option Response))
    (candidates : list string) : option Response :=
  match candidates with
  | [] => None
  | code :: rest =>
    match GetOrZero codes code with
    | Some res => Some res
    | None => firstResponse codes rest
    end
  end.

(** The value of [resp] once the selection block of [convertResponse]
    (its second [if]) has run. *)
Definition selectResponse (responses : Responses) : option Response :=
  match resps_Codes responses with
  | None | Some [] => resps_Default responses
  | Some codes => firstResponse codes ["200"; "201"; "204"]
  end.

Definition convertResponse (responses : option Responses) (apiPath : string)
    (fieldPaths : list string) : M (option TypeEncoder) :=
  match responses with
  | None => ret None
  | Some responses =>
    if nilOrZero (resps_Codes responses) then ret None
    else
      match selectResponse responses with
      | None => ret (Some (NewNullableNamedType "Boolean"))
      | Some resp =>
        match resp_Schema resp with
        | None => ret (Some (NewNullableNamedType "Boolean"))
        | Some _ =>
          r <~ getSchemaTypeFromProxy (resp_Schema resp) false apiPath
                 fieldPaths ;;
          ret (Some r.1)
        end
      end
  end.

Definition operationName (operationId pathKey method : string) : string :=
  if decide (operationId = "") then buildPathMethodName pathKey method options
  else operationId.

Definition convertProcedureOperation (pathKey method : string)
    (operation : option Operation) : M (option RESTProcedureInfo) :=
  match operation with
  | None => ret None
  | Some operation =>
    let procName := operationName (op_OperationId operation) pathKey method in
    resultType <~ wrapErr pathKey
      (convertResponse (op_Responses operation) pathKey [procName; "Result"]) ;;
    match resultType with
    | None => ret None
    | Some _ =>
      r <~ wrapErr pathKey
             (convertParameters (op_Parameters operation) pathKey [procName]) ;;
      let '(arguments, reqParams, reqBody) := r in
      let reqBody :=
        match reqBody with
        | Some body =>
          if bool_decide (0 < length (op_Consumes operation)) then
            let contentType :=
              if negb (slices_Contains (op_Consumes operation) ContentTypeJSON)
              then default ContentTypeJSON (head (op_Consumes operation))
              else ContentTypeJSON in
            Some (MkRequestBody contentType (rb_Schema body))
          else Some body
        | None => None
        end in
      ty <~ Encode resultType ;;
      ret (Some (MkRESTProcedureInfo
                   (MkRequest pathKey method reqParams reqBody
                      (convertSecurities (op_Security operation)))
                   procName arguments ty (nonEmpty (op_Summary operation))))
    end
  end.

(** The GET block of [pathToNDCOperations]. *)
Definition convertFunctionOperation (pathKey : string) (itemGet : Operation)
  : M unit :=
  let funcName := operationName (op_OperationId itemGet) pathKey "get" in
  resultType <~ wrapErr pathKey
    (convertResponse (op_Responses itemGet) pathKey [funcName; "Result"]) ;;
  match resultType with
  | None => ret tt
  | Some _ =>
    r <~ wrapErr funcName
           (convertParameters (op_Parameters itemGet) pathKey [funcName]) ;;
    let '(arguments, reqParams, reqBody) := r in
    ty <~ Encode resultType ;;
    λ s, Ok tt
      (appendFunction s
         (MkRESTFunctionInfo
            (MkRequest pathKey "get" reqParams reqBody
               (convertSecurities (op_Security itemGet)))
            funcName arguments ty (nonEmpty (op_Summary itemGet))))
  end.

(** One [convertProcedureOperation] call of [pathToNDCOperations] and the
    [append] that follows it. *)
Definition addProcedure (pathKey method : string)
    (operation : option Operation) : M unit :=
  proc <~ convertProcedureOperation pathKey method operation ;;
  match proc with
  | Some proc => λ s, Ok tt (appendProcedure s proc)
  | None => ret tt
  end.

Definition pathToNDCOperations (pathItem : string * option PathItem) : M unit :=
  let pathKey := pathItem.1 in
  pathValue <~ deref pathItem.2 ;;
  _ <~ (match pi_Get pathValue with
        | Some itemGet => convertFunctionOperation pathKey itemGet
        | None => ret tt
        end) ;;
  _ <~ addProcedure pathKey "post" (pi_Post pathValue) ;;
  _ <~ addProcedure pathKey "put" (pi_Put pathValue) ;;
  _ <~ addProcedure pathKey "patch" (pi_Patch pathValue) ;;
  addProcedure pathKey "delete" (pi_Delete pathValue).

Definition convertComponentSchemas (schemaItem : string * SchemaProxy)
  : M unit :=
  match proxy_Schema schemaItem.2 with
  | None => ret tt
  | Some typeSchema =>
    if negb (slices_Contains (schema_Type typeSchema) "object") then ret tt
    else
      _ <~ getSchemaType (Some typeSchema) "" [schemaItem.1] ;;
      ret tt
  end.

End Converter.

(** ** A reference implementation of the outside functions

    Used to run the converter on concrete documents. *)
Module Reference.

Definition isAlnum (c : Ascii.ascii) : bool :=
  let n := Ascii.nat_of_ascii c in
  (48 <=? n) && (n <=? 57) || (65 <=? n) && (n <=? 90)
  || (97 <=? n) && (n <=? 122).

Definition upper (c : Ascii.ascii) : Ascii.ascii :=
  let n := Ascii.nat_of_ascii c in
  if (97 <=? n) && (n <=? 122) then Ascii.ascii_of_nat (n - 32) else c.

Fixpoint pascal (wordStart : bool) (s : string) : string :=
  match s with
  | EmptyString => EmptyString
  | String c s' =>
    if isAlnum c then String (if wordStart then upper c else c) (pascal false s')
    else pascal true s'
  end.

(** Modelled from the spec: [utils.ToPascalCase] is outside this file; the
    spec only names the case convention. Every alphanumeric run starts with
    a capital and the separators are dropped. *)
Definition ToPascalCase (s : string) : string := pascal true s.

(** Modelled from the spec: [utils.StringSliceToPascalCase] is outside this
    file; the spec calls it the PascalCase join of the segments
    (["Pet","Owner"] gives "PetOwner"). *)
Definition StringSliceToPascalCase (l : list string) : string :=
  foldr (λ seg acc, ToPascalCase seg +:+ acc) "" l.

(** Modelled from the spec: [isPrimitiveScalar] is outside this file; the
    spec lists the scalar kinds as string, number, integer and boolean. *)
Definition isPrimitiveScalar (name : string) : bool :=
  bool_decide (name ∈ ["string"; "number"; "integer"; "boolean"]).

(** Modelled from the spec: [getScalarFromType] is outside this file; the
    spec says it derives a scalar name from the type and its context, falls
    back to "JSON" and creates the registry entry on demand. Here the name
    is the PascalCase of a single type name. *)
Definition getScalarFromType (scalars : gmap string ScalarType)
    (names : list string) (format : string) (enum : list string)
    (apiPath : string) (fieldPaths : list string)
  : string * gmap string ScalarType :=
  let name :=
    match names with
    | [n] => if isPrimitiveScalar n then ToPascalCase n else "JSON"
    | _ => "JSON"
    end in
  (name, match scalars !! name with
         | Some _ => scalars
         | None => <[name := NewScalarType]> scalars
         end).

(** Modelled from the spec: [createSchemaFromOpenAPISchema] is outside this
    file; the spec says a descriptor carries the type name, the nullable
    flag and the constraints of the schema node. *)
Definition createSchemaFromOpenAPISchema (s : Schema) (typeName : string)
  : TypeSchema :=
  MkTypeSchema typeName (schema_Format s) ""
    (match schema_Nullable s with Some true => true | _ => false end)
    None None None None (schema_Description s) None None.

(** Modelled from the spec: [getSchemaRefTypeNameV2] is outside this file;
    it yields the name a reference to a named definition points to, and the
    empty string for anything else. *)
Definition getSchemaRefTypeNameV2 (ref : string) : string :=
  if strings_HasPrefix ref "#/definitions/"
  then dropPrefix ref "#/definitions/"
  else "".

(** Modelled from the spec: [getNamedType] is outside this file; it reads
    the type name out of a type expression, with a default. *)
Fixpoint getNamedType (t : TypeEncoder) (defaultValue : string) : string :=
  match t with
  | NamedType n => n
  | NullableType u => getNamedType u defaultValue
  | ArrayType _ => defaultValue
  end.

(** Modelled from the spec: [buildPathMethodName] is outside this file; the
    spec says the name is synthesised from the path template and method. *)
Definition buildPathMethodName (pathKey method : string)
    (options : ConvertOptions) : string :=
  method +:+ ToPascalCase pathKey.

(** Modelled from the spec: [rest.ParseParameterLocation] is outside this
    file; unknown locations are an error. *)
Definition ParseParameterLocation (s : string) : error + ParameterLocation :=
  if decide (s = "query") then inr InQuery
  else if decide (s = "path") then inr InPath
  else if decide (s = "header") then inr InHeader
  else if decide (s = "body") then inr InBody
  else if decide (s = "formData") then inr InFormData
  else inl (errLocation s).

(** Modelled from the spec: [convertSecurities] is outside this file; the
    requirements are copied through unchanged. *)
Definition convertSecurities (l : list SecurityRequirement) : AuthSecurities := l.

Definition collaborators : Collaborators :=
  MkCollaborators isPrimitiveScalar getScalarFromType
    createSchemaFromOpenAPISchema getSchemaRefTypeNameV2 getNamedType
    ToPascalCase StringSliceToPascalCase buildPathMethodName
    ParseParameterLocation convertSecurities.

End Reference.

(** ** Predicates used in the statements *)

(** No status code is declared: [responses] is nil, or its [Codes] map is
    nil or empty (the first guard of [convertResponse]). *)
Definition declaresNoCode (responses : option Responses) : bool :=
  match responses with
  | None => true
  | Some rs => nilOrZero (resps_Codes rs)
  end.

(** The content schema of the response picked by the selection block. *)
Definition selectedSchema (rs : Responses) : option SchemaProxy :=
  match selectResponse rs with
  | Some resp => resp_Schema resp
  | None => None
  end.

(** [Nullable] applied when the flag holds. *)
Definition wrapNullable (flag : bool) (t : TypeEncoder) : TypeEncoder :=
  if flag then NewNullableType t else t.

(** The field path [getSchemaTypeFromProxy] hands to [getSchemaType]: a
    title without a space replaces the accumulated path. *)
Definition effectiveFieldPaths `{Collaborators} (innerSchema : Schema)
    (fieldPaths : list string) : list string :=
  if bool_decide (schema_Title innerSchema ≠ "")
     && negb (strings_Contains (schema_Title innerSchema) " ")
  then [ToPascalCase (schema_Title innerSchema)]
  else fieldPaths.

(** The proxy is answered by name, without descending into its schema. *)
Definition isObjectReference `{Collaborators} (proxy : SchemaProxy)
    (innerSchema : Schema) : bool :=
  bool_decide (getSchemaRefTypeNameV2 (proxy_Reference proxy) ≠ "")
  && bool_decide (0 < length (schema_Type innerSchema))
  && bool_decide (head (schema_Type innerSchema) = Some "object").

(** The schema reaches the [object] case of [getSchemaType]. *)
Definition isObjectNode `{Collaborators} (s : Schema) : Prop :=
  schema_Type s = ["object"] ∧ schema_AnyOf s = [] ∧
  schema_AdditionalProperties s = None ∧ isPrimitiveScalar "object" = false.

(** The schema reaches the scalar case of [getSchemaType]. *)
Definition isPrimitiveNode `{Collaborators} (s : Schema) : Prop :=
  ∃ typeName, schema_Type s = [typeName] ∧ isPrimitiveScalar typeName = true ∧
    schema_AnyOf s = [] ∧ schema_AdditionalProperties s = None.

Definition isFormData `{Collaborators} (p : V2Parameter) : Prop :=
  ParseParameterLocation (param_In p) = inr InFormData.

(** The operation has a response from which a result type is resolved. *)
Definition resolvable (operation : option Operation) : bool :=
  match operation with
  | Some op => negb (declaresNoCode (op_Responses op))
  | None => false
  end.

Definition operationFor (pathValue : PathItem) (method : string)
  : option Operation :=
  if decide (method = "post") then pi_Post pathValue
  else if decide (method = "put") then pi_Put pathValue
  else if decide (method = "patch") then pi_Patch pathValue
  else if decide (method = "delete") then pi_Delete pathValue
  else None.

(** Size of the schema tree below a node, along the edges the resolver
    follows (properties and array items). *)
Definition proxySize (size : Schema → nat) (p : option SchemaProxy) : nat :=
  match p with
  | Some (MkSchemaProxy _ (Some s)) => size s
  | _ => 0
  end.

Fixpoint schemaSize (s : Schema) : nat :=
  match s with
  | MkSchema _ _ _ _ _ _ _ _ _ props items =>
    S (match props with
       | Some l => foldr (λ kp n, proxySize schemaSize kp.2 + n) 0 l
       | None => 0
       end
       + match items with
         | Some p => proxySize schemaSize p
         | None => 0
         end)
  end.

(** The operation lists are the same in both schemas. *)
Definition sameOperations (st st' : NDCRestSchema) : Prop :=
  Functions st' = Functions st ∧ Procedures st' = Procedures st.


(** The property the spec states of a list that holds form-data
    parameters: the conversion yields a multipart body whose object
    descriptor has, for each form-data parameter, a property that is
    nullable exactly when the parameter is not required. *)
Definition formDataBodyAsStated `{Collaborators} (options : ConvertOptions)
    (params : list (option V2Parameter)) (apiPath : string)
    (fieldPaths : list string) (st : NDCRestSchema) : Prop :=
  ∃ arguments reqParams props st',
    convertParameters options params apiPath fieldPaths st =
    Ok (arguments, reqParams,
        Some (MkRequestBody ContentTypeMultipartFormData
                (Some (formDataSchema props)))) st' ∧
    ∀ p, Some p ∈ params → isFormData p →
         ∃ prop, props !! param_Name p = Some prop ∧
                 ts_Nullable prop = negb (isTrue (param_Required p)).

(** ** Documents for the worked examples *)

Module Documents.

Definition options : ConvertOptions := MkConvertOptions "" "".

(** Document fragments for the worked examples. *)
Definition plainSchema (type : string) (nullable : option bool) : Schema :=
  MkSchema [type] "" [] "" "" nullable [] [] None None None.

Definition inline (s : Schema) : option SchemaProxy :=
  Some (MkSchemaProxy "" (Some s)).

Definition primitiveParam (name location type : string)
    (required : option bool) : V2Parameter :=
  MkV2Parameter name location type "" "" required "" None None None None []
    None None.

Definition stringScalars : NDCRestSchema :=
  setScalarTypes NewNDCRestSchema (<["String" := NewScalarType]> ∅).

Definition stringDescriptor (nullable : bool) : TypeSchema :=
  MkTypeSchema "String" "" "" nullable None None None None "" None None.

(** *** Responses *)

Definition stringResponse : Response :=
  MkResponse (inline (plainSchema "string" None)).

Definition createdOnly : Responses :=
  MkResponses (Some [("201", Some stringResponse)]) None.

Definition notFoundOnly : Responses :=
  MkResponses (Some [("404", Some (MkResponse None))]) (Some stringResponse).

Definition emptyContent : Responses :=
  MkResponses (Some [("200", Some (MkResponse None))]) None.

(** *** Type resolution *)

Definition nullableString : Schema := plainSchema "string" (Some true).

Definition nullableStringProxy : SchemaProxy :=
  MkSchemaProxy "" (Some nullableString).


Definition untitledObject : Schema :=
  MkSchema ["object"] "" [] "" "" None [] [] None
    (Some [("name", inline (plainSchema "string" None))]) None.

Definition nameFields : gmap string ObjectField :=
  <["name" := MkObjectField (NullableType (NamedType "String")) None]> ∅.

Definition resolvedObject (name : string) : NDCRestSchema :=
  setObjectTypes stringScalars (<[name := MkObjectType None nameFields]> ∅).

Definition objectDescriptor : TypeSchema :=
  MkTypeSchema "object" "" "" false None None None None "" 
    (Some (<["name" := stringDescriptor true]> ∅)) None.

Definition nullableEmptyObject : Schema :=
  MkSchema ["object"] "" [] "" "" (Some true) [] [] None None None.

(** *** Parameters *)

Definition uploadParams : list (option V2Parameter) :=
  [Some (primitiveParam "file" "formData" "string" None);
   Some (primitiveParam "tag" "formData" "string" (Some true))].

Definition uploadProperties : gmap string TypeSchema :=
  <["tag" := stringDescriptor false]> (<["file" := stringDescriptor true]> ∅).

Definition uploadArguments : gmap string ArgumentInfo :=
  <["tag" := MkArgumentInfo (NamedType "String") None]>
    (<["file" := MkArgumentInfo (NullableType (NamedType "String")) None]> ∅).

Definition duplicateParams : list (option V2Parameter) :=
  [Some (primitiveParam "tag" "formData" "string" (Some true));
   Some (primitiveParam "tag" "formData" "string" None)].

Definition schemaTypedParam (required : option bool) : V2Parameter :=
  MkV2Parameter "file" "formData" "" "" "" required "" None None None None []
    None (inline (plainSchema "string" None)).

Definition failingParams : list (option V2Parameter) :=
  [Some (primitiveParam "file" "formData" "string" None);
   Some (primitiveParam "" "query" "string" None)].

Definition arrayParam : V2Parameter :=
  primitiveParam "ids" "query" "array" (Some true).

Definition untypedParam : V2Parameter :=
  primitiveParam "limit" "query" "" None.

(** *** Operations *)

Definition bodyParam : V2Parameter :=
  MkV2Parameter "pet" "body" "" "" "" (Some true) "" None None None None []
    None (inline (plainSchema "string" None)).

Definition addPet (consumes : list string) : Operation :=
  MkOperation "addPet" "" consumes [Some bodyParam] (Some emptyContent) [].

Definition addPetProcedure (contentType : string) : RESTProcedureInfo :=
  MkRESTProcedureInfo
    (MkRequest "/pets" "post" []
       (Some (MkRequestBody contentType (Some (stringDescriptor false)))) [])
    "addPet" (<["body" := MkArgumentInfo (NamedType "String") None]> ∅)
    (NullableType (NamedType "Boolean")) None.

Definition silentGet : Operation := MkOperation "listPets" "" [] [] None [].

Definition petsPath : PathItem :=
  MkPathItem (Some silentGet) (Some (addPet [])) None None None.

Definition petsConverted : NDCRestSchema :=
  appendProcedure stringScalars (addPetProcedure "").


End Documents.

(** The schema has no declared type and is not a union. *)
Definition isUntypedNode (s : Schema) : Prop :=
  schema_Type s = [] ∧ schema_AnyOf s = [] ∧
  schema_AdditionalProperties s = None.

(** The schema reaches the [array] case of [getSchemaType]. *)
Definition isArrayNode `{Collaborators} (s : Schema) : Prop :=
  schema_Type s = ["array"] ∧ schema_AnyOf s = [] ∧
  schema_AdditionalProperties s = None ∧ isPrimitiveScalar "array" = false.

(** The schema a call leaves behind, when it returns. *)
Definition finalSchema {A} (r : Result A) : option NDCRestSchema :=
  match r with
  | Ok _ s | Err _ s => Some s
  | Panic => None
  end.

(** Object types stay registered and the operation lists are only
    extended at their end. *)
Definition registryGrows (st st' : NDCRestSchema) : Prop :=
  dom (ObjectTypes st) ⊆ dom (ObjectTypes st') ∧
  Functions st `prefix_of` Functions st' ∧
  Procedures st `prefix_of` Procedures st'.

(** The location under which a parameter is sent as a request parameter:
    none for a body or form-data parameter. *)
Definition requestLocation `{Collaborators} (p : V2Parameter)
  : option ParameterLocation :=
  match ParseParameterLocation (param_In p) with
  | inr InBody | inr InFormData | inl _ => None
  | inr loc => Some loc
  end.

(** The key under which a parameter is stored in the argument map. *)
Definition argumentKey `{Collaborators} (p : V2Parameter) : string :=
  match ParseParameterLocation (param_In p) with
  | inr InBody => "body"
  | _ => param_Name p
  end.

Definition isBodyParameter `{Collaborators} (p : V2Parameter) : Prop :=
  ParseParameterLocation (param_In p) = inr InBody.

(** ** Security schemes and the document walker *)

(** [v2.SecurityScheme], with the fields this file reads; [sec_Scopes] is
    [Scopes] then [Scopes.Values]. *)
Record V2SecurityScheme : Type := MkV2SecurityScheme {
  sec_Type : string;
  sec_In : string;
  sec_Name : string;
  sec_Flow : string;
  sec_AuthorizationUrl : string;
  sec_TokenUrl : string;
  sec_Scopes : option (list (string * string))
}.

(** Modelled from the spec: the scheme and flow kinds of the [rest] package
    are declared outside this file; these are the ones this file names. A
    field of such a kind that the code leaves unset holds [None]. *)
Inductive SecuritySchemeType : Type := APIKeyScheme | OAuth2Scheme.

Inductive OAuthFlowType : Type :=
  | AuthorizationCodeFlow | ImplicitFlow | PasswordFlow | ClientCredentialsFlow.

#[global] Instance OAuthFlowType_eq_dec : EqDecision OAuthFlowType.
Proof. solve_decision. Defined.

#[global] Instance OAuthFlowType_countable : Countable OAuthFlowType.
Proof.
  refine (inj_countable'
            (λ f, match f with
                  | AuthorizationCodeFlow => 0
                  | ImplicitFlow => 1
                  | PasswordFlow => 2
                  | ClientCredentialsFlow => 3
                  end)
            (λ n, match n with
                  | 0 => AuthorizationCodeFlow
                  | 1 => ImplicitFlow
                  | 2 => PasswordFlow
                  | _ => ClientCredentialsFlow
                  end) _).
  by intros [].
Defined.

Record APIKeyAuthConfig : Type := MkAPIKeyAuthConfig {
  apikey_In : string;
  apikey_Name : string
}.

Record HTTPAuthConfig : Type := MkHTTPAuthConfig {
  http_Scheme : string;
  http_Header : string
}.

Record OAuthFlow : Type := MkOAuthFlow {
  flow_AuthorizationURL : string;
  flow_TokenURL : string;
  flow_Scopes : option (gmap string string)
}.

Record OAuth2Config : Type := MkOAuth2Config {
  oauth_Flows : gmap (option OAuthFlowType) OAuthFlow
}.

(** [rest.SecurityScheme], with the fields this file writes. *)
Record SecurityScheme : Type := MkSecurityScheme {
  ss_Type : option SecuritySchemeType;
  ss_Value : string;
  ss_APIKeyAuthConfig : option APIKeyAuthConfig;
  ss_HTTPAuthConfig : option HTTPAuthConfig;
  ss_OAuth2Config : option OAuth2Config
}.

Record ServerConfig : Type := MkServerConfig { server_URL : string }.

(** [rest.NDCRestSettings]; [settings_SecuritySchemes] is a Go map that the
    walker allocates only when the document has security definitions. *)
Record NDCRestSettings : Type := MkNDCRestSettings {
  settings_Version : string;
  settings_Servers : list ServerConfig;
  settings_SecuritySchemes : option (gmap string SecurityScheme);
  settings_Security : AuthSecurities
}.

(** Modelled from the spec: [rest.NewNDCRestSchema] is outside this file; the
    spec has the envelope created empty at conversion start, so its
    settings begin without version, server, security scheme and security
    requirement. *)
Definition NewNDCRestSettings : NDCRestSettings :=
  MkNDCRestSettings "" [] None [].

(** Functions of the [rest] and [utils] packages used by the security
    converter and the walker, taken as given. [EnvTemplateString name] is
    [rest.EnvTemplate{Name: name}.String()]. *)
Class SettingsCollaborators : Type := MkSettingsCollaborators {
  ParseAPIKeyLocation : string → error + string;
  StringSliceToConstantCase : list string → string;
  EnvTemplateString : string → string;
  EnvTemplateWithDefaultString : string → string → string
}.

(** Outcome of a step that does not touch the schema registries. *)
Inductive Outcome (A : Type) : Type :=
  | Done (a : A)
  | Failed (e : error)
  | Crashed.
Arguments Done {A} a.
Arguments Failed {A} e.
Arguments Crashed {A}.

(** The [Swagger] document model, with the fields the walker reads.
    [sw_Info] is [Info] then [Info.Version]; [sw_Paths] is [Paths] then
    [Paths.PathItems]; [sw_Definitions] is [Definitions] then its
    [Definitions]; [sw_SecurityDefinitions] is [SecurityDefinitions] then
    its [Definitions]. *)
Record Swagger : Type := MkSwagger {
  sw_Info : option string;
  sw_Host : string;
  sw_BasePath : string;
  sw_Schemes : list string;
  sw_Paths : option (option (list (string * option PathItem)));
  sw_Definitions : option (list (string * SchemaProxy));
  sw_SecurityDefinitions :
    option (option (list (string * option V2SecurityScheme)));
  sw_Security : list SecurityRequirement
}.

(** What [OpenAPIv2ToNDCSchema] returns: the schema with its settings, or a
    list of errors. *)
Inductive Conversion : Type :=
  | Converted (schema : NDCRestSchema) (settings : NDCRestSettings)
  | Rejected (errors : list error)
  | Panicked.

Section Walker.

Context `{Collaborators} `{SettingsCollaborators}.
Variable options : ConvertOptions.

(** The [switch security.Flow] of the oauth2 case; an unknown flow leaves
    [flowType] at its zero value. *)
Definition oauthFlowType (flow : string) : option OAuthFlowType :=
  if decide (flow = "accessCode") then Some AuthorizationCodeFlow
  else if decide (flow = "implicit") then Some ImplicitFlow
  else if decide (flow = "password") then Some PasswordFlow
  else if decide (flow = "application") then Some ClientCredentialsFlow
  else None.

(** The loop that copies [security.Scopes] into a Go map. *)
Definition copyScopes (scopes : list (string * string)) : gmap string string :=
  foldl (λ m scope, <[scope.1 := scope.2]> m) ∅ scopes.

(** The [switch security.Type] of [convertSecuritySchemes]. *)
Definition securitySchemeOf (key : string) (security : V2SecurityScheme)
  : Outcome SecurityScheme :=
  if decide (sec_Type security = "apiKey") then
    match ParseAPIKeyLocation (sec_In security) with
    | inl err => Failed err
    | inr inLocation =>
      Done (MkSecurityScheme (Some APIKeyScheme)
              (EnvTemplateString
                 (StringSliceToConstantCase [EnvPrefix options; key]))
              (Some (MkAPIKeyAuthConfig inLocation (sec_Name security)))
              None None)
    end
  else if decide (sec_Type security = "basic") then
    Done (MkSecurityScheme None
            (EnvTemplateString
               (StringSliceToConstantCase [EnvPrefix options; key; "TOKEN"]))
            None (Some (MkHTTPAuthConfig "Basic" "Authorization")) None)
  else if decide (sec_Type security = "oauth2") then
    let flowType := oauthFlowType (sec_Flow security) in
    let flow :=
      MkOAuthFlow (sec_AuthorizationUrl security) (sec_TokenUrl security)
        (copyScopes <$> sec_Scopes security) in
    Done (MkSecurityScheme (Some OAuth2Scheme) "" None None
            (Some (MkOAuth2Config {[flowType := flow]})))
  else Failed (Errorf "invalid security scheme: " (sec_Type security)).

(** [convertSecuritySchemes] on the [SecuritySchemes] map of the settings;
    storing into a nil map panics. *)
Definition convertSecuritySchemes (scheme : string * option V2SecurityScheme)
    (schemes : option (gmap string SecurityScheme))
  : Outcome (option (gmap string SecurityScheme)) :=
  let key := scheme.1 in
  match scheme.2 with
  | None => Done schemes
  | Some security =>
    match securitySchemeOf key security with
    | Done result =>
      match schemes with
      | Some m => Done (Some (<[key := result]> m))
      | None => Crashed
      end
    | Failed e => Failed e
    | Crashed => Crashed
    end
  end.

(** The loop over the security definitions. *)
Fixpoint convertAllSecuritySchemes
    (definitions : list (string * option V2SecurityScheme))
    (schemes : option (gmap string SecurityScheme))
  : Outcome (option (gmap string SecurityScheme)) :=
  match definitions with
  | [] => Done schemes
  | scheme :: rest =>
    match convertSecuritySchemes scheme schemes with
    | Done schemes' => convertAllSecuritySchemes rest schemes'
    | Failed e => Failed e
    | Crashed => Crashed
    end
  end.

(** The loop over [Schemes] that picks the scheme of the server URL. *)
Fixpoint serverScheme (schemes : list string) : string :=
  match schemes with
  | [] => "https"
  | s :: rest => if strings_HasPrefix s "http" then s else serverScheme rest
  end.

Definition serverConfigs (doc : Swagger) : list ServerConfig :=
  if decide (sw_Host doc = "") then []
  else
    let envName :=
      StringSliceToConstantCase [EnvPrefix options; "SERVER_URL"] in
    let serverURL :=
      serverScheme (sw_Schemes doc) +:+ "://" +:+ sw_Host doc +:+
      sw_BasePath doc in
    [MkServerConfig (EnvTemplateWithDefaultString envName serverURL)].

(** [OpenAPIv2ToNDCSchema] from the point where the document model has
    been built: [errs] and [docModel] are what [BuildV2Model] returned and
    [options] the validated options. The schema it returns is given as the
    registries and operation lists together with the settings. *)
Definition OpenAPIv2ToNDCSchema (errs : list error)
    (docModel : option Swagger) : Conversion :=
  match docModel with
  | None => if bool_decide (0 < length errs) then Rejected errs else Panicked
  | Some doc =>
    match sw_Paths doc with
    | None | Some None | Some (Some []) =>
      Rejected (errs ++ [errorsNew "there is no API to be converted"])
    | Some (Some pathItems) =>
      match forEach (λ _ pathItem, pathToNDCOperations options pathItem)
              pathItems tt NewNDCRestSchema with
      | Panic => Panicked
      | Err e _ => Rejected (errs ++ [e])
      | Ok _ st1 =>
        match forEach (λ _ schemaItem, convertComponentSchemas options schemaItem)
                (default [] (sw_Definitions doc)) tt st1 with
        | Panic => Panicked
        | Err e _ => Rejected (errs ++ [e])
        | Ok _ st2 =>
          match
            match sw_SecurityDefinitions doc with
            | Some (Some definitions) =>
              convertAllSecuritySchemes definitions (Some ∅)
            | _ => Done (settings_SecuritySchemes NewNDCRestSettings)
            end
          with
          | Crashed => Panicked
          | Failed e => Rejected (errs ++ [e])
          | Done schemes =>
            Converted st2
              (MkNDCRestSettings
                 (default (settings_Version NewNDCRestSettings) (sw_Info doc))
                 (settings_Servers NewNDCRestSettings ++ serverConfigs doc)
                 schemes (convertSecurities (sw_Security doc)))
          end
        end
      end
    end
  end.

End Walker.

(** The path items the walker iterates over. *)
Definition pathItemsOf (doc : Swagger) : list (string * option PathItem) :=
  match sw_Paths doc with
  | Some (Some pathItems) => pathItems
  | _ => []
  end.

(** The paths, in document order, whose GET has a resolvable response. *)
Definition functionRoutes (pathItems : list (string * option PathItem))
  : list string :=
  omap (λ item, if resolvable (item.2 ≫= pi_Get) then Some item.1 else None)
    pathItems.

(** The (path, method) pairs, in document order and then in the order
    POST, PUT, PATCH, DELETE, whose operation has a resolvable response. *)
Definition procedureRoutes (pathItems : list (string * option PathItem))
  : list (string * string) :=
  pathItems ≫=
    (λ item,
       match item.2 with
       | Some pathValue =>
         (λ method, (item.1, method)) <$>
         List.filter (λ method, resolvable (operationFor pathValue method))
           ["post"; "put"; "patch"; "delete"]
       | None => []
       end).

(** The keys of the security definitions that hold a scheme. *)
Definition declaredSchemes
    (definitions : list (string * option V2SecurityScheme)) : list string :=
  omap (λ scheme, if scheme.2 is Some _ then Some scheme.1 else None)
    definitions.

(** ** A reference implementation of the settings functions *)

Module ReferenceSettings.

(** Modelled from the spec: [rest.ParseAPIKeyLocation] is outside this
    file; an API key is carried in a header, the query string or a
    cookie. *)
Definition ParseAPIKeyLocation (s : string) : error + string :=
  if decide (s = "header") then inr s
  else if decide (s = "query") then inr s
  else if decide (s = "cookie") then inr s
  else inl (Errorf "invalid api key location: " s).

Fixpoint upperString (s : string) : string :=
  match s with
  | EmptyString => EmptyString
  | String c s' => String (Reference.upper c) (upperString s')
  end.

(** Modelled from the spec: [utils.StringSliceToConstantCase] is outside
    this file; the spec gives the name as uppercase and underscore-joined
    (prefix MYAPI and key apiKeyAuth give MYAPI_APIKEYAUTH). *)
Fixpoint StringSliceToConstantCase (l : list string) : string :=
  match l with
  | [] => ""
  | [seg] => upperString seg
  | seg :: rest => upperString seg +:+ "_" +:+ StringSliceToConstantCase rest
  end.

(** Modelled from the spec: the [rest] environment templates are outside
    this file; the spec calls the value an environment-variable
    placeholder. *)
Definition EnvTemplateString (name : string) : string :=
  "{{" +:+ name +:+ "}}".

Definition EnvTemplateWithDefaultString (name defaultValue : string)
  : string :=
  "{{" +:+ name +:+ ":-" +:+ defaultValue +:+ "}}".

Definition collaborators : SettingsCollaborators :=
  MkSettingsCollaborators ParseAPIKeyLocation StringSliceToConstantCase
    EnvTemplateString EnvTemplateWithDefaultString.

End ReferenceSettings.

(** ** A small document for the worked examples *)

Module Petstore.

Import Documents.

Definition options : ConvertOptions := MkConvertOptions "MYAPI" "".

Definition fileSchema : Schema := plainSchema "file" None.

Definition untypedSchema : Schema :=
  MkSchema [] "" [] "" "" None [] [] None None None.

Definition arrayOf (items : option (option SchemaProxy)) : Schema :=
  MkSchema ["array"] "" [] "" "" None [] [] None None items.

Definition unionSchema : Schema :=
  MkSchema ["string"; "null"] "" [] "" "" (Some true) [] [] None None None.

Definition petReference : SchemaProxy :=
  MkSchemaProxy "#/definitions/pet" (Some untitledObject).

Definition integerScalars : NDCRestSchema :=
  setScalarTypes NewNDCRestSchema (<["Integer" := NewScalarType]> ∅).

Definition limitParam : V2Parameter :=
  primitiveParam "limit" "query" "integer" None.

Definition idParam : V2Parameter :=
  primitiveParam "id" "path" "string" (Some true).

Definition mixedParams : list (option V2Parameter) :=
  [Some limitParam; None; Some bodyParam; Some idParam].

Definition listPets : Operation :=
  MkOperation "listPets" "" [] [Some limitParam] (Some createdOnly) [].

Definition deletePet : Operation :=
  MkOperation "" "Remove a pet" [] [Some idParam] (Some emptyContent) [].

Definition storePath : PathItem :=
  MkPathItem (Some listPets) (Some (addPet [])) None None None.

Definition petPath : PathItem :=
  MkPathItem (Some silentGet) None None None (Some deletePet).

Definition apiKeyAuth : V2SecurityScheme :=
  MkV2SecurityScheme "apiKey" "header" "X-API-Key" "" "" "" None.

Definition basicAuth : V2SecurityScheme :=
  MkV2SecurityScheme "basic" "" "" "" "" "" None.

Definition petstoreAuth : V2SecurityScheme :=
  MkV2SecurityScheme "oauth2" "" "" "accessCode"
    "https://petstore.example.com/authorize"
    "https://petstore.example.com/token"
    (Some [("read:pets", "read your pets");
           ("write:pets", "modify your pets")]).

Definition digestAuth : V2SecurityScheme :=
  MkV2SecurityScheme "digest" "" "" "" "" "" None.

Definition bodyKeyAuth : V2SecurityScheme :=
  MkV2SecurityScheme "apiKey" "body" "key" "" "" "" None.

Definition petstore : Swagger :=
  MkSwagger (Some "1.0.0") "petstore.example.com" "/v2" ["ws"; "http"; "https"]
    (Some (Some [("/pets", Some storePath); ("/pets/{id}", Some petPath)]))
    (Some [("pet", MkSchemaProxy "" (Some untitledObject));
           ("tag", MkSchemaProxy "" (Some (plainSchema "string" None)))])
    (Some (Some [("apiKeyAuth", Some apiKeyAuth); ("unused", None);
                 ("basicAuth", Some basicAuth)]))
    [].

Definition withoutPaths : Swagger :=
  MkSwagger None "" "" [] (Some (Some [])) None
    (Some (Some [("digestAuth", Some digestAuth)])) [].

End Petstore.

(** ** Proof support *)

Arguments getSchemaTypeFromProxy : simpl never.
Arguments getSchemaTypeFromParameter : simpl never.
Arguments convertParameter : simpl never.
Arguments convertParameters : simpl never.
Arguments convertResponse : simpl never.

Ltac conv_unfold :=
  unfold wrapErr, getSchema, putSchema, deref, Encode, registerScalar,
    registerObject in *;
  unfold bind, ret, fail, panic in *.

Ltac conv_cases :=
  repeat (simplify_eq /=; try done; case_match); simplify_eq /=; try done.

(** ** The response resolver *)

Section ResponseResolver.

Context `{Collaborators}.
Variable options : ConvertOptions.

Lemma selectResponse_codes (rs : Responses) (codes : list (string * option Response)) :
  resps_Codes rs = Some codes → codes ≠ [] →
  selectResponse rs = firstResponse codes ["200"; "201"; "204"].
Proof.
  intros Hc Hne. unfold selectResponse. rewrite Hc.
  destruct codes; [done | reflexivity].
Qed.

Lemma convertResponse_selected (rs : Responses) (apiPath : string)
    (fieldPaths : list string) :
  nilOrZero (resps_Codes rs) = false →
  convertResponse options (Some rs) apiPath fieldPaths =
  match selectedSchema rs with
  | None => ret (Some (NewNullableNamedType "Boolean"))
  | Some proxy =>
    r <~ getSchemaTypeFromProxy options (Some proxy) false apiPath fieldPaths ;;
    ret (Some r.1)
  end.
Proof.
  intros Hz. unfold convertResponse, selectedSchema. rewrite Hz.
  destruct (selectResponse rs) as [resp|]; [|done].
  destruct (resp_Schema resp); done.
Qed.

(** C1, amended. When at least one status code is declared, the response
    used for the result type is the one under "200" if there is one, else
    the one under "201", else the one under "204"; when none of the three
    is declared no response is selected, the default response is not
    consulted, and the result type is the nullable Boolean. *)
Theorem convertResponse_priority (rs : Responses)
    (codes : list (string * option Response)) :
  resps_Codes rs = Some codes → codes ≠ [] →
  (∀ apiPath fieldPaths,
     convertResponse options (Some rs) apiPath fieldPaths =
     match selectedSchema rs with
     | None => ret (Some (NewNullableNamedType "Boolean"))
     | Some proxy =>
       r <~ getSchemaTypeFromProxy options (Some proxy) false apiPath
              fieldPaths ;;
       ret (Some r.1)
     end) ∧
  (∀ r, GetOrZero codes "200" = Some r → selectResponse rs = Some r) ∧
  (∀ r, GetOrZero codes "200" = None → GetOrZero codes "201" = Some r →
        selectResponse rs = Some r) ∧
  (∀ r, GetOrZero codes "200" = None → GetOrZero codes "201" = None →
        GetOrZero codes "204" = Some r → selectResponse rs = Some r) ∧
  (GetOrZero codes "200" = None → GetOrZero codes "201" = None →
   GetOrZero codes "204" = None →
   selectResponse rs = None ∧
   ∀ apiPath fieldPaths st,
     convertResponse options (Some rs) apiPath fieldPaths st =
     Ok (Some (NewNullableNamedType "Boolean")) st).
Proof.
  intros Hc Hne.
  assert (Hz : nilOrZero (resps_Codes rs) = false).
  { rewrite Hc. by destruct codes. }
  pose proof (selectResponse_codes rs codes Hc Hne) as Hsel.
  split; [intros; by apply convertResponse_selected|].
  rewrite Hsel. cbn [firstResponse].
  split; [by intros r ->|].
  split; [by intros r -> ->|].
  split; [by intros r -> -> ->|].
  intros H200 H201 H204. rewrite H200, H201, H204. split; [done|].
  intros apiPath fieldPaths st.
  rewrite convertResponse_selected by done.
  unfold selectedSchema. rewrite Hsel. cbn [firstResponse].
  by rewrite H200, H201, H204.
Qed.

Lemma convertResponse_no_code (responses : option Responses)
    (apiPath : string) (fieldPaths : list string) (st : NDCRestSchema) :
  declaresNoCode responses = true →
  convertResponse options responses apiPath fieldPaths st = Ok None st.
Proof.
  destruct responses as [rs|]; [|done]. simpl. intros Hz.
  unfold convertResponse. by rewrite Hz.
Qed.


(** The resolver returns nil exactly for the operations that declare no
    status code, whatever the schema registries hold. *)
Lemma convertResponse_nil_iff (responses : option Responses)
    (apiPath : string) (fieldPaths : list string) (st st' : NDCRestSchema) :
  convertResponse options responses apiPath fieldPaths st = Ok None st' ↔
  declaresNoCode responses = true ∧ st' = st.
Proof.
  split.
  - destruct responses as [rs|]; simpl.
    + unfold convertResponse. destruct (nilOrZero (resps_Codes rs)).
      * intros [= <-]. done.
      * conv_unfold. intros Hr. conv_cases.
    + intros [= <-]. done.
  - intros [Hz ->].
    by apply convertResponse_no_code.
Qed.

End ResponseResolver.

(** ** The type resolver *)

Section TypeResolver.

Context `{Collaborators}.
Variable options : ConvertOptions.

Lemma getSchemaTypeFromProxy_reference (proxy : SchemaProxy) (inner : Schema)
    (hint : bool) (apiPath : string) (fieldPaths : list string)
    (st : NDCRestSchema) :
  proxy_Schema proxy = Some inner → isObjectReference proxy inner = true →
  getSchemaTypeFromProxy options (Some proxy) hint apiPath fieldPaths st =
  Ok (wrapNullable hint
        (NewNamedType (ToPascalCase (getSchemaRefTypeNameV2 (proxy_Reference proxy)))),
      ts_withType zeroTypeSchema (getSchemaRefTypeNameV2 (proxy_Reference proxy)))
     st.
Proof.
  intros Hs Href. unfold getSchemaTypeFromProxy, getSchemaTypeFromProxyWith.
  rewrite Hs. unfold isObjectReference in Href. rewrite Href.
  by destruct hint.
Qed.

Lemma getSchemaTypeFromProxy_inline (proxy : SchemaProxy) (inner : Schema)
    (hint : bool) (apiPath : string) (fieldPaths : list string)
    (st : NDCRestSchema) :
  proxy_Schema proxy = Some inner → isObjectReference proxy inner = false →
  getSchemaTypeFromProxy options (Some proxy) hint apiPath fieldPaths st =
  match getSchemaTypeOf options inner apiPath
          (effectiveFieldPaths inner fieldPaths) st with
  | Ok r st' => Ok (wrapNullable hint r.1, r.2) st'
  | Err e st' => Err e st'
  | Panic => Panic
  end.
Proof.
  intros Hs Href. unfold getSchemaTypeFromProxy, getSchemaTypeFromProxyWith.
  rewrite Hs. unfold isObjectReference in Href. rewrite Href.
  unfold effectiveFieldPaths. conv_unfold.
  destruct (getSchemaTypeOf _ _ _ _ _) as [[t ts] st'| |]; by destruct hint.
Qed.

Lemma getSchemaTypeOf_primitive (s : Schema) (apiPath : string)
    (fieldPaths : list string) (st : NDCRestSchema) :
  isPrimitiveNode s →
  getSchemaTypeOf options s apiPath fieldPaths st =
  let r := getScalarFromType (ScalarTypes st) (schema_Type s) (schema_Format s)
             (schema_Enum s) (trimPathPrefix options apiPath) fieldPaths in
  Ok (wrapNullable (isTrue (schema_Nullable s)) (NewNamedType r.1),
      createSchemaFromOpenAPISchema s r.1)
     (setScalarTypes st r.2).
Proof.
  intros (typeName & Hty & Hprim & Hany & Hadd).
  destruct s as [ty fmt enum title desc nul req anyof addp props items].
  simpl in *. subst.
  cbn -[getScalarFromType createSchemaFromOpenAPISchema].
  rewrite Hprim. unfold scalarFromType. conv_unfold.
  destruct (getScalarFromType (ScalarTypes st) [typeName] fmt enum _ _)
    as [name scalars] eqn:E.
  simpl. rewrite ?E. simpl.
  by destruct (isTrue nul).
Qed.

Lemma getSchemaTypeOf_object_no_properties (s : Schema) (apiPath : string)
    (fieldPaths : list string) (st : NDCRestSchema) :
  isObjectNode s → nilOrZero (schema_Properties s) = true →
  getSchemaTypeOf options s apiPath fieldPaths st =
  Ok (wrapNullable (isTrue (schema_Nullable s))
        (NewNamedType (StringSliceToPascalCase fieldPaths)),
      ts_withType (createSchemaFromOpenAPISchema s "") "object")
     (setScalarTypes st
        (<[StringSliceToPascalCase fieldPaths := NewScalarType]>
           (ScalarTypes st))).
Proof.
  intros (Hty & Hany & Hadd & Hprim) Hp.
  destruct s as [ty fmt enum title desc nul req anyof addp props items].
  simpl in *. subst.
  cbn -[createSchemaFromOpenAPISchema].
  rewrite Hprim. conv_unfold.
  destruct props as [[|p ps]|]; try done; by destruct (isTrue nul).
Qed.

Lemma getSchemaTypeOf_object_properties (s : Schema) (apiPath : string)
    (fieldPaths : list string) (st st' : NDCRestSchema) (t : TypeEncoder)
    (ts : TypeSchema) :
  isObjectNode s → nilOrZero (schema_Properties s) = false →
  getSchemaTypeOf options s apiPath fieldPaths st = Ok (t, ts) st' →
  t = wrapNullable (isTrue (schema_Nullable s))
        (NewNamedType (StringSliceToPascalCase fieldPaths)) ∧
  is_Some (ObjectTypes st' !! StringSliceToPascalCase fieldPaths).
Proof.
  intros (Hty & Hany & Hadd & Hprim) Hp.
  destruct s as [ty fmt enum title desc nul req anyof addp props items].
  simpl in *. subst.
  destruct props as [[|p ps]|]; try done.
  cbn -[createSchemaFromOpenAPISchema forEach].
  rewrite Hprim. conv_unfold.
  rewrite !bool_decide_eq_false_2 by lia. cbn -[createSchemaFromOpenAPISchema forEach].
  rewrite decide_True by done.
  match goal with
  | |- context [forEach ?b ?l ?a ?s] =>
    destruct (forEach b l a s) as [acc s1| |]; try done
  end.
  destruct (isTrue nul); intros [= <- <- <-]; simpl;
    (split; [done|]); rewrite lookup_insert_eq; eauto.
Qed.


Lemma getSchemaTypeOf_depth (s : Schema) (apiPath : string)
    (fieldPaths : list string) (st st' : NDCRestSchema) (t : TypeEncoder)
    (ts : TypeSchema) :
  getSchemaTypeOf options s apiPath fieldPaths st = Ok (t, ts) st' →
  nullableDepth t ≤ Nat.b2n (isTrue (schema_Nullable s)).
Proof.
  destruct s as [ty fmt enum title desc nul req anyof addp props items].
  cbn -[createSchemaFromOpenAPISchema forEach getScalarFromType].
  unfold scalarFromType. conv_unfold.
  intros Hr. conv_cases; simpl; lia.
Qed.

Lemma getSchemaTypeFromProxy_depth (proxy : SchemaProxy) (inner : Schema)
    (hint : bool) (apiPath : string) (fieldPaths : list string)
    (st st' : NDCRestSchema) (t : TypeEncoder) (ts : TypeSchema) :
  proxy_Schema proxy = Some inner →
  getSchemaTypeFromProxy options (Some proxy) hint apiPath fieldPaths st =
  Ok (t, ts) st' →
  nullableDepth t ≤ Nat.b2n hint + Nat.b2n (isTrue (schema_Nullable inner)).
Proof.
  intros Hs. destruct (isObjectReference proxy inner) eqn:Href.
  - rewrite (getSchemaTypeFromProxy_reference _ inner) by done.
    intros [= <- _ _]. destruct hint; simpl; lia.
  - rewrite (getSchemaTypeFromProxy_inline _ inner) by done.
    destruct (getSchemaTypeOf _ _ _ _ _) as [[u us] s1| |] eqn:Hr; try done.
    intros [= <- _ _]. apply getSchemaTypeOf_depth in Hr.
    destruct hint; simpl in *; lia.
Qed.

Lemma getSchemaTypeFromProxy_primitive (proxy : SchemaProxy) (inner : Schema)
    (hint : bool) (apiPath : string) (fieldPaths : list string)
    (st : NDCRestSchema) :
  proxy_Schema proxy = Some inner → isObjectReference proxy inner = false →
  isPrimitiveNode inner →
  ∃ name ts st',
    getSchemaTypeFromProxy options (Some proxy) hint apiPath fieldPaths st =
    Ok (wrapNullable hint
          (wrapNullable (isTrue (schema_Nullable inner)) (NewNamedType name)),
        ts) st'.
Proof.
  intros Hs Href Hprim.
  rewrite (getSchemaTypeFromProxy_inline _ inner) by done.
  rewrite getSchemaTypeOf_primitive by done. simpl. eauto.
Qed.

(** C2, amended. The resolver wraps once for the schema's own nullable flag
    and once more for the caller's hint, so a resolved type expression
    carries at most two [Nullable] wrappers at its outer level, never more
    than the number of the two that apply; a primitive schema gets exactly
    those: both together give Nullable(Nullable(Named ...)). *)
Theorem resolver_nullable_wrappers (proxy : SchemaProxy) (inner : Schema)
    (hint : bool) (apiPath : string) (fieldPaths : list string)
    (st st' : NDCRestSchema) (t : TypeEncoder) (ts : TypeSchema) :
  proxy_Schema proxy = Some inner →
  getSchemaTypeFromProxy options (Some proxy) hint apiPath fieldPaths st =
  Ok (t, ts) st' →
  nullableDepth t ≤ Nat.b2n hint + Nat.b2n (isTrue (schema_Nullable inner)) ∧
  (isPrimitiveNode inner → isObjectReference proxy inner = false →
   ∃ name,
     t = wrapNullable hint
           (wrapNullable (isTrue (schema_Nullable inner)) (NewNamedType name))).
Proof.
  intros Hs Hr. split; [by eapply getSchemaTypeFromProxy_depth|].
  intros Hprim Href.
  destruct (getSchemaTypeFromProxy_primitive proxy inner hint apiPath
              fieldPaths st Hs Href Hprim) as (name & ts' & s1 & Heq).
  rewrite Heq in Hr. exists name. by simplify_eq.
Qed.





(** C9, amended. An object schema without declared properties is written
    to the scalar registry under the synthesized name, as an opaque scalar;
    the object registry is left as it was; the type expression returned is
    the Named one under that name, wrapped in Nullable when the schema's
    own nullable flag is set. *)
Theorem object_without_properties_is_scalar (s : Schema) (apiPath : string)
    (fieldPaths : list string) (st : NDCRestSchema) :
  isObjectNode s → nilOrZero (schema_Properties s) = true →
  ∃ ts st',
    getSchemaType options (Some s) apiPath fieldPaths st =
    Ok (wrapNullable (isTrue (schema_Nullable s))
          (NewNamedType (StringSliceToPascalCase fieldPaths)), ts) st' ∧
    ScalarTypes st' =
    <[StringSliceToPascalCase fieldPaths := NewScalarType]> (ScalarTypes st) ∧
    ScalarTypes st' !! StringSliceToPascalCase fieldPaths = Some NewScalarType ∧
    ObjectTypes st' = ObjectTypes st.
Proof.
  intros Hobj Hp. eexists _, _. split.
  - simpl. by apply getSchemaTypeOf_object_no_properties.
  - simpl. by rewrite lookup_insert_eq.
Qed.

(** The failures of the schema path of the resolver are returned errors. *)
Lemma getSchemaType_nil (apiPath : string) (fieldPaths : list string)
    (st : NDCRestSchema) :
  getSchemaType options None apiPath fieldPaths st =
  Err errParameterSchemaEmpty st.
Proof. done. Qed.

Lemma getSchemaTypeFromProxy_nil (hint : bool) (apiPath : string)
    (fieldPaths : list string) (st : NDCRestSchema) :
  getSchemaTypeFromProxy options None hint apiPath fieldPaths st =
  Err errParameterSchemaEmpty st.
Proof. done. Qed.

Lemma getSchemaType_no_type (s : Schema) (apiPath : string)
    (fieldPaths : list string) (st : NDCRestSchema) :
  schema_Type s = [] → schema_AnyOf s = [] →
  schema_AdditionalProperties s = None →
  getSchemaType options (Some s) apiPath fieldPaths st =
  Err errParameterSchemaEmpty st.
Proof.
  destruct s as [ty fmt enum title desc nul req anyof addp props items].
  simpl. by intros -> -> ->.
Qed.

Lemma getSchemaType_array_without_items (s : Schema) (apiPath : string)
    (fieldPaths : list string) (st : NDCRestSchema) :
  schema_Type s = ["array"] → schema_AnyOf s = [] →
  schema_AdditionalProperties s = None → isPrimitiveScalar "array" = false →
  schema_Items s = None ∨ schema_Items s = Some None →
  getSchemaType options (Some s) apiPath fieldPaths st =
  Err (errorsNew "array item is empty") st.
Proof.
  destruct s as [ty fmt enum title desc nul req anyof addp props items].
  simpl. intros -> -> -> Hprim Hit.
  cbn -[createSchemaFromOpenAPISchema]. rewrite Hprim.
  by destruct Hit as [-> | ->].
Qed.

Lemma getSchemaType_unsupported (s : Schema) (typeName : string)
    (apiPath : string) (fieldPaths : list string) (st : NDCRestSchema) :
  schema_Type s = [typeName] → schema_AnyOf s = [] →
  schema_AdditionalProperties s = None → isPrimitiveScalar typeName = false →
  typeName ≠ "object" → typeName ≠ "array" →
  getSchemaType options (Some s) apiPath fieldPaths st =
  Err (Errorf "unsupported schema type " typeName) st.
Proof.
  destruct s as [ty fmt enum title desc nul req anyof addp props items].
  simpl. intros -> -> -> Hprim Ho Ha.
  cbn -[createSchemaFromOpenAPISchema Errorf]. rewrite Hprim.
  conv_unfold. by rewrite !decide_False by done.
Qed.

End TypeResolver.

(** ** The parameter converter *)

Section ParameterConverter.

Context `{Collaborators}.
Variable options : ConvertOptions.

Lemma forEach_cons {X A} (body : A → X → M A) (x : X) (l : list X) (acc : A)
    (st : NDCRestSchema) :
  forEach body (x :: l) acc st =
  match body acc x st with
  | Ok acc1 st1 => forEach body l acc1 st1
  | Err e st1 => Err e st1
  | Panic => Panic
  end.
Proof. done. Qed.

Lemma forEach_app {X A} (body : A → X → M A) (l1 l2 : list X) (acc : A)
    (st : NDCRestSchema) :
  forEach body (l1 ++ l2) acc st =
  match forEach body l1 acc st with
  | Ok acc1 st1 => forEach body l2 acc1 st1
  | Err e st1 => Err e st1
  | Panic => Panic
  end.
Proof.
  revert acc st. induction l1 as [|x l1 IH]; intros acc st; [done|].
  rewrite <- app_comm_cons, !forEach_cons. destruct (body acc x st); auto.
Qed.


Lemma getSchemaTypeFromParameter_array_nil (param : V2Parameter)
    (apiPath : string) (fieldPaths : list string) (st : NDCRestSchema) :
  param_Type param = "array" → isPrimitiveScalar "array" = false →
  param_Items param = None →
  getSchemaTypeFromParameter options param apiPath fieldPaths st = Panic.
Proof.
  intros Hty Hprim Hit. unfold getSchemaTypeFromParameter.
  rewrite Hty, Hprim, Hit. done.
Qed.

Lemma getSchemaTypeFromParameter_array_items (param : V2Parameter)
    (items : Items) (apiPath : string) (fieldPaths : list string)
    (st : NDCRestSchema) :
  param_Type param = "array" → isPrimitiveScalar "array" = false →
  param_Items param = Some items →
  ∃ t st', getSchemaTypeFromParameter options param apiPath fieldPaths st =
           Ok t st'.
Proof.
  intros Hty Hprim Hit. unfold getSchemaTypeFromParameter.
  rewrite Hty, Hprim, Hit. cbn -[getScalarFromType].
  unfold scalarFromType. conv_unfold.
  rewrite !decide_False by done. rewrite decide_True by done.
  destruct (getScalarFromType _ _ _ _ _ _) as [name scalars].
  destruct (isTrue (param_Required param)); simpl; eauto.
Qed.

Lemma convertParameter_array_nil (param : V2Parameter) (acc : paramState)
    (apiPath : string) (fieldPaths : list string) (st : NDCRestSchema) :
  param_Name param ≠ "" → param_Type param = "array" →
  isPrimitiveScalar "array" = false → param_Items param = None →
  convertParameter options apiPath fieldPaths acc (Some param) st = Panic.
Proof.
  intros Hn Hty Hprim Hit. unfold convertParameter.
  rewrite decide_False by done. rewrite decide_True by (by rewrite Hty).
  conv_unfold. by rewrite getSchemaTypeFromParameter_array_nil.
Qed.

Lemma convertParameter_untyped (param : V2Parameter) (loc : ParameterLocation)
    (acc : paramState) (apiPath : string) (fieldPaths : list string)
    (st : NDCRestSchema) :
  param_Name param ≠ "" → param_Type param = "" → param_Schema param = None →
  ParseParameterLocation (param_In param) = inr loc →
  convertParameter options apiPath fieldPaths acc (Some param) st = Panic.
Proof.
  intros Hn Hty Hs Hloc. unfold convertParameter.
  rewrite decide_False by done. rewrite decide_False by (by rewrite Hty; intros []).
  rewrite Hs. conv_unfold. by rewrite Hloc.
Qed.

Lemma convertParameters_panic (before after : list (option V2Parameter))
    (param : V2Parameter) (acc : paramState) (apiPath : string)
    (fieldPaths : list string) (st st1 : NDCRestSchema) :
  forEach (convertParameter options apiPath fieldPaths) before
    (MkParamState ∅ [] None ∅) st = Ok acc st1 →
  convertParameter options apiPath fieldPaths acc (Some param) st1 = Panic →
  convertParameters options (before ++ Some param :: after) apiPath fieldPaths
    st = Panic.
Proof.
  intros Hb Hp. unfold convertParameters.
  rewrite bool_decide_eq_false_2 by (rewrite length_app; simpl; lia).
  conv_unfold. by rewrite forEach_app, Hb, forEach_cons, Hp.
Qed.


Lemma convertParameter_nil (acc : paramState) (apiPath : string)
    (fieldPaths : list string) (st : NDCRestSchema) :
  convertParameter options apiPath fieldPaths acc None st = Ok acc st.
Proof. done. Qed.

Lemma convertParameter_formData (acc acc' : paramState) (p : V2Parameter)
    (apiPath : string) (fieldPaths : list string) (st st' : NDCRestSchema) :
  convertParameter options apiPath fieldPaths acc (Some p) st = Ok acc' st' →
  isFormData p →
  ∃ prop, ps_formData acc' = <[param_Name p := prop]> (ps_formData acc) ∧
          ps_requestBody acc' = ps_requestBody acc ∧
          (param_Type p ≠ "" →
           ts_Nullable prop = negb (isTrue (param_Required p))).
Proof.
  unfold isFormData, convertParameter. conv_unfold. intros Hr Hloc.
  rewrite Hloc in Hr. conv_cases; simplify_eq/=;
    eexists; (split; [done|]); (split; [done|]); intros ?; done || contradiction.
Qed.

Lemma convertParameter_other (acc acc' : paramState) (p : V2Parameter)
    (apiPath : string) (fieldPaths : list string) (st st' : NDCRestSchema) :
  convertParameter options apiPath fieldPaths acc (Some p) st = Ok acc' st' →
  ¬ isFormData p → ps_formData acc' = ps_formData acc.
Proof.
  unfold isFormData, convertParameter. conv_unfold. intros Hr Hloc.
  conv_cases.
Qed.


Lemma isFormData_cases (p : V2Parameter) : isFormData p ∨ ¬ isFormData p.
Proof.
  unfold isFormData.
  destruct (ParseParameterLocation (param_In p)) as [e|[]]; auto; right; done.
Qed.

Lemma forEach_formData_keep (l : list (option V2Parameter))
    (acc acc' : paramState) (apiPath : string) (fieldPaths : list string)
    (st st' : NDCRestSchema) (name : string) :
  forEach (convertParameter options apiPath fieldPaths) l acc st = Ok acc' st' →
  (∀ q, Some q ∈ l → isFormData q → param_Name q ≠ name) →
  ps_formData acc' !! name = ps_formData acc !! name.
Proof.
  revert acc st. induction l as [|x l IH]; intros acc st Hr Hq.
  - injection Hr as -> _. done.
  - rewrite forEach_cons in Hr.
    destruct (convertParameter _ _ _ _ _ _) as [acc1 st1| |] eqn:Hx; try done.
    rewrite (IH _ _ Hr) by (intros q Hin; apply Hq; by right).
    destruct x as [p|]; [|by injection Hx as -> _].
    destruct (isFormData_cases p) as [Hf|Hf].
    + destruct (convertParameter_formData _ _ _ _ _ _ _ Hx Hf)
        as (prop & -> & _).
      rewrite lookup_insert_ne; [done|]. apply Hq; [by left|done].
    + by rewrite (convertParameter_other _ _ _ _ _ _ _ Hx Hf).
Qed.

Lemma forEach_formData_dom (l : list (option V2Parameter))
    (acc acc' : paramState) (apiPath : string) (fieldPaths : list string)
    (st st' : NDCRestSchema) (name : string) :
  forEach (convertParameter options apiPath fieldPaths) l acc st = Ok acc' st' →
  is_Some (ps_formData acc' !! name) ↔
  is_Some (ps_formData acc !! name) ∨
  ∃ p, Some p ∈ l ∧ isFormData p ∧ param_Name p = name.
Proof.
  revert acc st. induction l as [|x l IH]; intros acc st Hr.
  - injection Hr as -> _. split; [auto|]. intros [?|(p & Hin & _)]; [done|].
    by apply elem_of_nil in Hin.
  - rewrite forEach_cons in Hr.
    destruct (convertParameter _ _ _ _ _ _) as [acc1 st1| |] eqn:Hx; try done.
    rewrite (IH _ _ Hr). clear IH Hr.
    assert (Hstep : is_Some (ps_formData acc1 !! name) ↔
                    is_Some (ps_formData acc !! name) ∨
                    ∃ p, x = Some p ∧ isFormData p ∧ param_Name p = name).
    { destruct x as [p|]; cycle 1.
      { rewrite convertParameter_nil in Hx. injection Hx as <- _.
        split; [auto|].
        intros [?|(p & ? & _)]; done. }
      destruct (isFormData_cases p) as [Hf|Hf].
      - destruct (convertParameter_formData _ _ _ _ _ _ _ Hx Hf)
          as (prop & -> & _).
        destruct (decide (param_Name p = name)) as [<-|Hne].
        + rewrite lookup_insert_eq. split; [right|]; eauto.
        + rewrite lookup_insert_ne by done. split; [auto|].
          intros [?|(q & [= <-] & _ & ?)]; done.
      - rewrite (convertParameter_other _ _ _ _ _ _ _ Hx Hf).
        split; [auto|]. intros [?|(q & [= <-] & ? & _)]; done. }
    rewrite Hstep. split.
    + intros [[?|(p & ? & ? & ?)]|(p & ? & ? & ?)]; subst; [by left| |];
        right; exists p; (split; [|done]); [by left|by right].
    + intros [?|(p & [?|?]%elem_of_cons & ? & ?)]; subst;
        [by left; left|left; right|right]; eauto.
Qed.

Lemma forEach_requestBody_formData (l : list (option V2Parameter))
    (acc acc' : paramState) (apiPath : string) (fieldPaths : list string)
    (st st' : NDCRestSchema) (before after : list (option V2Parameter))
    (p : V2Parameter) :
  forEach (convertParameter options apiPath fieldPaths) l acc st = Ok acc' st' →
  l = before ++ Some p :: after → isFormData p →
  (∀ q, Some q ∈ after → isFormData q → param_Name q ≠ param_Name p) →
  ∃ prop, ps_formData acc' !! param_Name p = Some prop ∧
          (param_Type p ≠ "" →
           ts_Nullable prop = negb (isTrue (param_Required p))).
Proof.
  intros Hr -> Hf Hlater. rewrite forEach_app in Hr.
  destruct (forEach _ before _ _) as [acc1 st1| |]; try done.
  rewrite forEach_cons in Hr.
  destruct (convertParameter _ _ _ _ _ _) as [acc2 st2| |] eqn:Hx; try done.
  destruct (convertParameter_formData _ _ _ _ _ _ _ Hx Hf)
    as (prop & Hprops & _ & Hnull).
  exists prop. split; [|done].
  rewrite (forEach_formData_keep _ _ _ _ _ _ _ _ Hr Hlater), Hprops.
  by rewrite lookup_insert_eq.
Qed.

(** C6, amended. When the conversion of a parameter list holding at least
    one form-data parameter succeeds, the request body is multipart form
    data and its schema is one object descriptor whose properties are the
    names of the form-data parameters; the property under a name comes from
    the last form-data parameter declared with it, and when that parameter
    is primitive-typed the property is nullable exactly when the parameter
    is not required. *)
Theorem form_data_request_body (params : list (option V2Parameter))
    (apiPath : string) (fieldPaths : list string) (st st' : NDCRestSchema)
    (arguments : gmap string ArgumentInfo)
    (reqParams : list RequestParameter) (body : option RequestBody) :
  convertParameters options params apiPath fieldPaths st =
  Ok (arguments, reqParams, body) st' →
  (∃ p, Some p ∈ params ∧ isFormData p) →
  ∃ props,
    body = Some (MkRequestBody ContentTypeMultipartFormData
                   (Some (formDataSchema props))) ∧
    ts_Type (formDataSchema props) = "object" ∧
    ts_Properties (formDataSchema props) = Some props ∧
    (∀ name, is_Some (props !! name) ↔
             ∃ p, Some p ∈ params ∧ isFormData p ∧ param_Name p = name) ∧
    (∀ before p after,
       params = before ++ Some p :: after → isFormData p →
       (∀ q, Some q ∈ after → isFormData q → param_Name q ≠ param_Name p) →
       ∃ prop, props !! param_Name p = Some prop ∧
               (param_Type p ≠ "" →
                ts_Nullable prop = negb (isTrue (param_Required p)))).
Proof.
  intros Hr (p0 & Hin0 & Hf0). unfold convertParameters in Hr.
  case_bool_decide as Hlen.
  { destruct params; [by apply elem_of_nil in Hin0|done]. }
  conv_unfold.
  destruct (forEach _ _ _ _) as [acc st1| |] eqn:Hloop; try done.
  assert (Hdom : ∀ name, is_Some (ps_formData acc !! name) ↔
                 ∃ p, Some p ∈ params ∧ isFormData p ∧ param_Name p = name).
  { intros name. rewrite (forEach_formData_dom _ _ _ _ _ _ _ name Hloop).
    simpl. rewrite lookup_empty. split; [|auto].
    intros [[? ?]|?]; done. }
  assert (Hpos : 0 < size (ps_formData acc)).
  { assert (is_Some (ps_formData acc !! param_Name p0)) as [prop Hprop]
      by (apply Hdom; eauto).
    destruct (decide (size (ps_formData acc) = 0)) as [Hz|]; [|lia].
    apply map_size_empty_iff in Hz. rewrite Hz in Hprop.
    by rewrite lookup_empty in Hprop. }
  rewrite bool_decide_eq_true_2 in Hr by done. simplify_eq.
  exists (ps_formData acc). split; [done|]. split; [done|]. split; [done|].
  split; [done|].
  intros before p after Hparams Hf Hlater.
  by eapply forEach_requestBody_formData.
Qed.

Lemma getSchemaTypeFromProxy_hint (p : option SchemaProxy) (hint : bool)
    (apiPath : string) (fieldPaths : list string) (st : NDCRestSchema) :
  getSchemaTypeFromProxy options p hint apiPath fieldPaths st =
  match getSchemaTypeFromProxy options p false apiPath fieldPaths st with
  | Ok r st' => Ok (wrapNullable hint r.1, r.2) st'
  | Err e st' => Err e st'
  | Panic => Panic
  end.
Proof.
  unfold getSchemaTypeFromProxy, getSchemaTypeFromProxyWith. conv_unfold.
  destruct p as [proxy|]; [|done].
  destruct (proxy_Schema proxy) as [inner|]; [|done].
  destruct (_ && _ && _).
  - by destruct hint.
  - destruct (getSchemaTypeOf _ _ _ _ _) as [[t ts] st'| |]; by destruct hint.
Qed.

Lemma convertParameter_schema_typed (p : V2Parameter) (acc acc' : paramState)
    (apiPath : string) (fieldPaths : list string) (st st' : NDCRestSchema) :
  param_Type p = "" → isFormData p →
  convertParameter options apiPath fieldPaths acc (Some p) st = Ok acc' st' →
  ∃ r st0,
    getSchemaTypeFromProxy options (param_Schema p) false apiPath fieldPaths st =
    Ok r st0 ∧
    ps_formData acc' = <[param_Name p := r.2]> (ps_formData acc).
Proof.
  intros Ht Hf. unfold isFormData in Hf. unfold convertParameter. conv_unfold.
  rewrite Ht, Hf. intros Hr. conv_cases.
  all: match goal with
       | Hp : getSchemaTypeFromProxy _ _ _ _ _ _ = Ok _ _ |- _ =>
         rewrite getSchemaTypeFromProxy_hint in Hp;
         destruct (getSchemaTypeFromProxy _ _ false _ _ _)
           as [r0 s0| |] eqn:Hfalse; try done;
         simplify_eq/=; by eexists _, _
       end.
Qed.

Lemma schema_typed_property_ignores_required (p1 p2 : V2Parameter)
    (acc acc1 acc2 : paramState) (apiPath : string) (fieldPaths : list string)
    (st st1 st2 : NDCRestSchema) :
  param_Name p1 = param_Name p2 → param_In p1 = param_In p2 →
  param_Type p1 = "" → param_Type p2 = "" →
  param_Schema p1 = param_Schema p2 → isFormData p1 →
  convertParameter options apiPath fieldPaths acc (Some p1) st = Ok acc1 st1 →
  convertParameter options apiPath fieldPaths acc (Some p2) st = Ok acc2 st2 →
  ps_formData acc1 = ps_formData acc2.
Proof.
  intros Hn Hi Ht1 Ht2 Hs Hf1 H1 H2.
  assert (Hf2 : isFormData p2) by (unfold isFormData in *; by rewrite <- Hi).
  apply convertParameter_schema_typed in H1 as (r1 & s1 & Hr1 & ->); [|done..].
  apply convertParameter_schema_typed in H2 as (r2 & s2 & Hr2 & ->); [|done..].
  rewrite Hs, Hr2 in Hr1. simplify_eq. by rewrite Hn.
Qed.

Lemma formDataBodyAsStated_single (p : V2Parameter) (apiPath : string)
    (fieldPaths : list string) (st : NDCRestSchema) :
  isFormData p →
  formDataBodyAsStated options [Some p] apiPath fieldPaths st →
  ∃ acc st' prop,
    convertParameter options apiPath fieldPaths (MkParamState ∅ [] None ∅)
      (Some p) st = Ok acc st' ∧
    ps_formData acc !! param_Name p = Some prop ∧
    ts_Nullable prop = negb (isTrue (param_Required p)).
Proof.
  intros Hf (args & rps & props & st' & Heq & Hall).
  unfold convertParameters in Heq.
  rewrite bool_decide_eq_false_2 in Heq by (simpl; lia).
  conv_unfold. rewrite forEach_cons in Heq.
  destruct (convertParameter _ _ _ _ _ _) as [acc s1| |] eqn:Hx; try done.
  destruct (convertParameter_formData _ _ _ _ _ _ _ Hx Hf)
    as (prop0 & Hprops & Hbody & _).
  destruct (Hall p) as (prop & Hprop & Hnull); [apply list_elem_of_here|done|].
  exists acc, s1, prop. split; [done|]. split; [|done].
  simpl in Heq. injection Heq as _ _ Hb _.
  destruct (bool_decide _).
  - injection Hb as <-. done.
  - rewrite Hbody in Hb. done.
Qed.

(** Whatever the outside functions are, a form-data parameter given by a
    schema gets the same property whether it is required or not, so the
    property cannot be nullable exactly when the parameter is not required
    for both. *)
Lemma schema_typed_form_data_not_as_stated (p1 p2 : V2Parameter)
    (apiPath : string) (fieldPaths : list string) (st : NDCRestSchema) :
  param_Name p1 = param_Name p2 → param_In p1 = param_In p2 →
  param_Type p1 = "" → param_Type p2 = "" →
  param_Schema p1 = param_Schema p2 →
  isTrue (param_Required p1) ≠ isTrue (param_Required p2) →
  isFormData p1 →
  ¬ (formDataBodyAsStated options [Some p1] apiPath fieldPaths st ∧
     formDataBodyAsStated options [Some p2] apiPath fieldPaths st).
Proof.
  intros Hn Hi Ht1 Ht2 Hs Hr Hf1 [H1 H2].
  assert (Hf2 : isFormData p2) by (unfold isFormData in *; by rewrite <- Hi).
  apply formDataBodyAsStated_single in H1
    as (acc1 & s1 & prop1 & Hx1 & Hp1 & Hnull1); [|done].
  apply formDataBodyAsStated_single in H2
    as (acc2 & s2 & prop2 & Hx2 & Hp2 & Hnull2); [|done].
  pose proof (schema_typed_property_ignores_required p1 p2 _ _ _ _ _ _ _ _
                Hn Hi Ht1 Ht2 Hs Hf1 Hx1 Hx2) as Heq.
  rewrite Heq, Hn, Hp2 in Hp1. simplify_eq.
  rewrite Hnull2 in Hnull1.
  by destruct (isTrue (param_Required p1)), (isTrue (param_Required p2)).
Qed.

(** C8. An array parameter declared without [items] never yields the
    missing-array-item error: the guard dereferences the nil [Items] and
    the conversion panics. *)
Theorem array_parameter_without_items_panics
    (before after : list (option V2Parameter)) (param : V2Parameter)
    (acc : paramState) (apiPath : string) (fieldPaths : list string)
    (st st1 : NDCRestSchema) :
  param_Name param ≠ "" → param_Type param = "array" →
  isPrimitiveScalar "array" = false → param_Items param = None →
  forEach (convertParameter options apiPath fieldPaths) before
    (MkParamState ∅ [] None ∅) st = Ok acc st1 →
  getSchemaTypeFromParameter options param apiPath fieldPaths st1 = Panic ∧
  convertParameters options (before ++ Some param :: after) apiPath fieldPaths
    st = Panic.
Proof.
  intros Hn Hty Hprim Hit Hb. split.
  - by apply getSchemaTypeFromParameter_array_nil.
  - eapply convertParameters_panic; [done|].
    by apply convertParameter_array_nil.
Qed.

(** C10. A named parameter with a recognised location but neither a type
    nor a schema leaves the argument type nil, and encoding it panics. *)
Theorem untyped_parameter_panics
    (before after : list (option V2Parameter)) (param : V2Parameter)
    (loc : ParameterLocation) (acc : paramState) (apiPath : string)
    (fieldPaths : list string) (st st1 : NDCRestSchema) :
  param_Name param ≠ "" → param_Type param = "" → param_Schema param = None →
  ParseParameterLocation (param_In param) = inr loc →
  forEach (convertParameter options apiPath fieldPaths) before
    (MkParamState ∅ [] None ∅) st = Ok acc st1 →
  convertParameters options (before ++ Some param :: after) apiPath fieldPaths
    st = Panic.
Proof.
  intros Hn Hty Hs Hloc Hb.
  eapply convertParameters_panic; [done|].
  by eapply convertParameter_untyped.
Qed.

End ParameterConverter.

(** ** The operation lists are untouched by type resolution *)

Section Frame.

Context `{Collaborators}.
Variable options : ConvertOptions.

Lemma sameOperations_refl (st : NDCRestSchema) : sameOperations st st.
Proof. done. Qed.

Lemma sameOperations_trans (st1 st2 st3 : NDCRestSchema) :
  sameOperations st1 st2 → sameOperations st2 st3 → sameOperations st1 st3.
Proof. intros [? ?] [? ?]. split; congruence. Qed.

Lemma forEach_sameOperations {X A} (body : A → X → M A) (l : list X) :
  (∀ x acc st acc' st', x ∈ l → body acc x st = Ok acc' st' →
                        sameOperations st st') →
  ∀ acc st acc' st', forEach body l acc st = Ok acc' st' → sameOperations st st'.
Proof.
  induction l as [|x l IH]; intros Hbody acc st acc' st' Hr.
  - injection Hr as _ ->. done.
  - rewrite forEach_cons in Hr.
    destruct (body acc x st) as [acc1 st1| |] eqn:Hx; try done.
    eapply sameOperations_trans.
    + eapply Hbody; [by left|done].
    + eapply IH; [|done]. intros. eapply Hbody; [by right|done].
Qed.

Lemma property_size (l : list (string * option SchemaProxy)) (k : string)
    (p : option SchemaProxy) :
  (k, p) ∈ l →
  proxySize schemaSize p ≤ foldr (λ kp n, proxySize schemaSize kp.2 + n) 0 l.
Proof.
  induction l as [|x l IH]; intros Hin; [by apply elem_of_nil in Hin|].
  apply elem_of_cons in Hin as [<-|Hin]; simpl; [lia|].
  specialize (IH Hin). lia.
Qed.

Lemma getSchemaTypeFromProxyWith_sameOperations
    (resolve : Schema → string → list string → M (TypeEncoder * TypeSchema))
    (p : option SchemaProxy) (hint : bool) (apiPath : string)
    (fieldPaths : list string) (st st' : NDCRestSchema)
    (r : TypeEncoder * TypeSchema) :
  (∀ proxy s a fp st0 r0 st1, p = Some proxy → proxy_Schema proxy = Some s →
     resolve s a fp st0 = Ok r0 st1 → sameOperations st0 st1) →
  getSchemaTypeFromProxyWith resolve p hint apiPath fieldPaths st = Ok r st' →
  sameOperations st st'.
Proof.
  intros Hres. unfold getSchemaTypeFromProxyWith. conv_unfold.
  intros Hr. conv_cases; eapply Hres; done.
Qed.

Lemma getSchemaTypeOf_sameOperations_aux (n : nat) :
  ∀ s apiPath fieldPaths st st' r,
    schemaSize s < n →
    getSchemaTypeOf options s apiPath fieldPaths st = Ok r st' →
    sameOperations st st'.
Proof.
  induction n as [|n IH]; intros s apiPath fieldPaths st st' r Hsz; [lia|].
  destruct s as [ty fmt enum title desc nul req anyof addp props items].
  cbn -[createSchemaFromOpenAPISchema forEach getScalarFromType
        getSchemaTypeFromProxyWith] in *.
  unfold scalarFromType. conv_unfold.
  intros Hr. conv_cases.
  all: match goal with
       | Hloop : forEach _ _ _ ?st0 = Ok _ ?s1 |- sameOperations ?st0 _ =>
         apply (sameOperations_trans _ s1); [|done];
         eapply forEach_sameOperations; [|exact Hloop];
         intros [k px] acc0 s0 acc1 s2 Hin Hb; simpl in Hb;
         destruct (getSchemaTypeFromProxyWith _ _ _ _ _ _)
           as [[pt pa] s3| |] eqn:Hp; try done;
         injection Hb as _ <-;
         eapply getSchemaTypeFromProxyWith_sameOperations; [|exact Hp];
         intros [ref inner] s' a' fp' st0' r0 st1' -> Hs'; apply IH;
         pose proof (property_size _ _ _ Hin) as Hle;
         simpl in Hs', Hle; subst inner; simpl in Hle; lia
       | Hrec : getSchemaTypeOf _ _ _ _ ?st0 = Ok _ ?st1
         |- sameOperations ?st0 ?st1 =>
         eapply IH; [|exact Hrec]; simplify_eq/=; lia
       end.
Qed.

Lemma getSchemaTypeOf_sameOperations (s : Schema) (apiPath : string)
    (fieldPaths : list string) (st st' : NDCRestSchema)
    (r : TypeEncoder * TypeSchema) :
  getSchemaTypeOf options s apiPath fieldPaths st = Ok r st' →
  sameOperations st st'.
Proof.
  intros Hr.
  eapply (getSchemaTypeOf_sameOperations_aux (S (schemaSize s))); [|exact Hr].
  lia.
Qed.


Lemma getSchemaTypeFromProxy_sameOperations (p : option SchemaProxy)
    (hint : bool) (apiPath : string) (fieldPaths : list string)
    (st st' : NDCRestSchema) (r : TypeEncoder * TypeSchema) :
  getSchemaTypeFromProxy options p hint apiPath fieldPaths st = Ok r st' →
  sameOperations st st'.
Proof.
  apply getSchemaTypeFromProxyWith_sameOperations.
  intros. by eapply getSchemaTypeOf_sameOperations.
Qed.

Lemma getSchemaTypeFromParameter_sameOperations (param : V2Parameter)
    (apiPath : string) (fieldPaths : list string) (st st' : NDCRestSchema)
    (t : TypeEncoder) :
  getSchemaTypeFromParameter options param apiPath fieldPaths st = Ok t st' →
  sameOperations st st'.
Proof.
  unfold getSchemaTypeFromParameter, scalarFromType. conv_unfold.
  intros Hr. conv_cases.
Qed.

Lemma convertParameter_sameOperations (param : option V2Parameter)
    (acc acc' : paramState) (apiPath : string) (fieldPaths : list string)
    (st st' : NDCRestSchema) :
  convertParameter options apiPath fieldPaths acc param st = Ok acc' st' →
  sameOperations st st'.
Proof.
  unfold convertParameter. conv_unfold. intros Hr. conv_cases.
  all: first [ by eapply getSchemaTypeFromParameter_sameOperations
             | by eapply getSchemaTypeFromProxy_sameOperations ].
Qed.

Lemma convertParameters_sameOperations (params : list (option V2Parameter))
    (apiPath : string) (fieldPaths : list string) (st st' : NDCRestSchema)
    (r : gmap string ArgumentInfo * list RequestParameter * option RequestBody) :
  convertParameters options params apiPath fieldPaths st = Ok r st' →
  sameOperations st st'.
Proof.
  unfold convertParameters. conv_unfold. intros Hr. conv_cases.
  all: eapply forEach_sameOperations; [|done];
    intros; by eapply convertParameter_sameOperations.
Qed.

Lemma convertResponse_sameOperations (responses : option Responses)
    (apiPath : string) (fieldPaths : list string) (st st' : NDCRestSchema)
    (r : option TypeEncoder) :
  convertResponse options responses apiPath fieldPaths st = Ok r st' →
  sameOperations st st'.
Proof.
  unfold convertResponse. conv_unfold. intros Hr. conv_cases.
  by eapply getSchemaTypeFromProxy_sameOperations.
Qed.

End Frame.

(** ** The operation mapper *)

Section OperationMapper.

Context `{Collaborators}.
Variable options : ConvertOptions.

Lemma resolvable_convertResponse (operation : Operation) (apiPath : string)
    (fieldPaths : list string) (st st' : NDCRestSchema)
    (r : option TypeEncoder) :
  convertResponse options (op_Responses operation) apiPath fieldPaths st =
  Ok r st' →
  r = None ↔ resolvable (Some operation) = false.
Proof.
  intros Hr. simpl. rewrite negb_false_iff. split.
  - intros ->. by apply convertResponse_nil_iff in Hr as [? _].
  - intros Hz. rewrite convertResponse_no_code in Hr by done. by simplify_eq.
Qed.

(** C7. A procedure that carries a request body and whose operation
    declares consumable media types sends application/json when that is
    one of them, and the first declared media type otherwise. *)
Theorem procedure_content_type (pathKey method : string) (op : Operation)
    (st st' : NDCRestSchema) (proc : RESTProcedureInfo) (body : RequestBody) :
  convertProcedureOperation options pathKey method (Some op) st =
  Ok (Some proc) st' →
  req_RequestBody (proc_Request proc) = Some body →
  op_Consumes op ≠ [] →
  (ContentTypeJSON ∈ op_Consumes op → rb_ContentType body = ContentTypeJSON) ∧
  (ContentTypeJSON ∉ op_Consumes op →
   head (op_Consumes op) = Some (rb_ContentType body)).
Proof.
  unfold convertProcedureOperation, slices_Contains. conv_unfold.
  intros Hr Hb Hc.
  destruct (op_Consumes op) as [|first rest] eqn:Hcons; [done|].
  conv_cases.
  - apply negb_true_iff, bool_decide_eq_false in H0. by split.
  - apply negb_false_iff, bool_decide_eq_true in H0. by split.
Qed.

Lemma convertProcedureOperation_ok (pathKey method : string)
    (operation : option Operation) (st st' : NDCRestSchema)
    (r : option RESTProcedureInfo) :
  convertProcedureOperation options pathKey method operation st = Ok r st' →
  sameOperations st st' ∧
  (is_Some r ↔ resolvable operation = true) ∧
  (∀ proc, r = Some proc → req_Method (proc_Request proc) = method).
Proof.
  unfold convertProcedureOperation. conv_unfold. intros Hr.
  destruct operation as [op|]; cycle 1.
  { simplify_eq. split; [done|]. split; [|done]. split; [by intros []|done]. }
  destruct (convertResponse _ _ _ _ _) as [res s1| |] eqn:Hres; try done.
  pose proof (convertResponse_sameOperations _ _ _ _ _ _ _ Hres) as Hf1.
  pose proof (resolvable_convertResponse _ _ _ _ _ _ Hres) as Hgate.
  destruct res as [t|].
  - destruct (convertParameters _ _ _ _ _) as [[[args rps] body] s2| |] eqn:Hp;
      try done.
    pose proof (convertParameters_sameOperations _ _ _ _ _ _ _ Hp) as Hf2.
    simplify_eq/=. split; [by eapply sameOperations_trans|].
    split; [|by intros ? [= <-]].
    split; [intros _|eauto].
    destruct (negb (declaresNoCode (op_Responses op))); [done|].
    by destruct Hgate as [_ Hg]; specialize (Hg eq_refl).
  - simplify_eq. split; [done|]. split; [|done].
    rewrite (proj1 Hgate eq_refl). split; [by intros []|done].
Qed.





Lemma procedure_methods (pathValue : PathItem) :
  List.filter (λ m, resolvable (operationFor pathValue m))
    ["post"; "put"; "patch"; "delete"] =
  (if resolvable (pi_Post pathValue) then ["post"] else []) ++
  (if resolvable (pi_Put pathValue) then ["put"] else []) ++
  (if resolvable (pi_Patch pathValue) then ["patch"] else []) ++
  (if resolvable (pi_Delete pathValue) then ["delete"] else []).
Proof.
  pose proof (eq_refl : operationFor pathValue "post" = pi_Post pathValue) as E1.
  pose proof (eq_refl : operationFor pathValue "put" = pi_Put pathValue) as E2.
  pose proof (eq_refl : operationFor pathValue "patch" = pi_Patch pathValue)
    as E3.
  pose proof (eq_refl : operationFor pathValue "delete" = pi_Delete pathValue)
    as E4.
  cbn [List.filter]. rewrite E1, E2, E3, E4.
  destruct (resolvable (pi_Post pathValue)), (resolvable (pi_Put pathValue)),
    (resolvable (pi_Patch pathValue)), (resolvable (pi_Delete pathValue));
    reflexivity.
Qed.


End OperationMapper.

(** ** Worked examples on the reference implementation *)

Module Examples.

Import Documents.
#[local] Existing Instance Reference.collaborators.

Lemma convertResponse_priority_witness :
  selectResponse createdOnly = Some stringResponse ∧
  convertResponse options (Some createdOnly) "/pets" ["addPet"; "Result"]
    NewNDCRestSchema = Ok (Some (NamedType "String")) stringScalars.
Proof.
  pose proof (convertResponse_priority options createdOnly
                [("201", Some stringResponse)] eq_refl ltac:(discriminate))
    as (Hres & _ & H201 & _).
  split.
  - apply H201; reflexivity.
  - rewrite Hres. vm_compute. reflexivity.
Defined.

(** C1, counterexample. Only "404" is declared together with a default
    response that has a string schema: the selection finds nothing, the
    default response is left aside, and the result type is the nullable
    Boolean, not the type of the default response. *)
Lemma default_response_not_consulted :
  GetOrZero [("404", Some (MkResponse None))] "200" = None ∧
  GetOrZero [("404", Some (MkResponse None))] "201" = None ∧
  GetOrZero [("404", Some (MkResponse None))] "204" = None ∧
  resps_Default notFoundOnly = Some stringResponse ∧
  selectResponse notFoundOnly ≠ resps_Default notFoundOnly ∧
  convertResponse options (Some notFoundOnly) "/pets" ["listPets"; "Result"]
    NewNDCRestSchema =
  Ok (Some (NullableType (NamedType "Boolean"))) NewNDCRestSchema ∧
  getSchemaTypeFromProxy options (resp_Schema stringResponse) false "/pets"
    ["listPets"; "Result"] NewNDCRestSchema =
  Ok (NamedType "String", stringDescriptor false) stringScalars.
Proof.
  repeat split; try reflexivity; try discriminate.
Qed.



Lemma resolver_nullable_wrappers_witness :
  nullableDepth (NullableType (NullableType (NamedType "String"))) ≤ 2 ∧
  ∃ name,
    NullableType (NullableType (NamedType "String")) =
    wrapNullable true (wrapNullable true (NewNamedType name)).
Proof.
  pose proof (resolver_nullable_wrappers options nullableStringProxy
                nullableString true "/pets" ["findPets"] NewNDCRestSchema
                stringScalars
                (NullableType (NullableType (NamedType "String")))
                (stringDescriptor true) eq_refl eq_refl) as [Hdepth Hshape].
  split; [exact Hdepth|].
  apply Hshape; [|reflexivity].
  exists "string". repeat split; reflexivity.
Defined.

(** C2, counterexample. A [nullable: true] string schema resolved for a
    non-required parameter is wrapped twice. *)
Lemma nullable_schema_is_wrapped_twice :
  getSchemaTypeFromProxy options (Some nullableStringProxy) true "/pets"
    ["findPets"] NewNDCRestSchema =
  Ok (NullableType (NullableType (NamedType "String")), stringDescriptor true)
     stringScalars ∧
  ¬ nullableDepth (NullableType (NullableType (NamedType "String"))) ≤ 1 ∧
  convertParameters options
    [Some (MkV2Parameter "filter" "query" "" "" "" None "" None None None None
             [] None (Some nullableStringProxy))]
    "/pets" ["findPets"] NewNDCRestSchema =
  Ok (<["filter" :=
          MkArgumentInfo (NullableType (NullableType (NamedType "String")))
            None]> ∅,
      [MkRequestParameter "filter" InQuery (Some (stringDescriptor true))],
      None)
     stringScalars.
Proof.
  split; [reflexivity|]. split; [simpl; lia|].
  vm_compute. reflexivity.
Qed.



Lemma object_without_properties_is_scalar_witness :
  ∃ ts st',
    getSchemaType options (Some nullableEmptyObject) "/pets" ["Pet"; "Owner"]
      NewNDCRestSchema =
    Ok (wrapNullable (isTrue (schema_Nullable nullableEmptyObject))
          (NewNamedType (StringSliceToPascalCase ["Pet"; "Owner"])), ts) st' ∧
    ScalarTypes st' =
    <[StringSliceToPascalCase ["Pet"; "Owner"] := NewScalarType]>
      (ScalarTypes NewNDCRestSchema) ∧
    ScalarTypes st' !! StringSliceToPascalCase ["Pet"; "Owner"] =
    Some NewScalarType ∧
    ObjectTypes st' = ObjectTypes NewNDCRestSchema.
Proof.
  apply (object_without_properties_is_scalar options nullableEmptyObject
           "/pets" ["Pet"; "Owner"] NewNDCRestSchema).
  - repeat split; reflexivity.
  - reflexivity.
Defined.

(** C9, counterexample. An object schema without properties whose own
    nullable flag is set is returned as Nullable(Named "PetOwner"), which
    is not a Named type expression. *)
Lemma nullable_empty_object_is_not_named :
  getSchemaType options (Some nullableEmptyObject) "/pets" ["Pet"; "Owner"]
    NewNDCRestSchema =
  Ok (NullableType (NamedType "PetOwner"),
      MkTypeSchema "object" "" "" true None None None None "" None None)
     (setScalarTypes NewNDCRestSchema (<["PetOwner" := NewScalarType]> ∅)) ∧
  ∀ name, NullableType (NamedType "PetOwner") ≠ NamedType name.
Proof.
  split; [vm_compute; reflexivity|]. discriminate.
Qed.

Lemma form_data_request_body_witness :
  ∃ props,
    Some (MkRequestBody ContentTypeMultipartFormData
            (Some (formDataSchema uploadProperties))) =
    Some (MkRequestBody ContentTypeMultipartFormData
            (Some (formDataSchema props))) ∧
    ts_Type (formDataSchema props) = "object" ∧
    ts_Properties (formDataSchema props) = Some props ∧
    (∀ name, is_Some (props !! name) ↔
             ∃ p, Some p ∈ uploadParams ∧ isFormData p ∧ param_Name p = name) ∧
    (∀ before p after,
       uploadParams = before ++ Some p :: after → isFormData p →
       (∀ q, Some q ∈ after → isFormData q → param_Name q ≠ param_Name p) →
       ∃ prop, props !! param_Name p = Some prop ∧
               (param_Type p ≠ "" →
                ts_Nullable prop = negb (isTrue (param_Required p)))).
Proof.
  apply (form_data_request_body options uploadParams "/upload"
           ["upload"] NewNDCRestSchema stringScalars uploadArguments []).
  - vm_compute. reflexivity.
  - exists (primitiveParam "file" "formData" "string" None).
    split; [apply list_elem_of_here|reflexivity].
Defined.

(** C6, counterexample. Two form-data parameters named "tag", the first
    required: one property, nullable. A form-data parameter given by a
    schema and not required: its property is not nullable. A list whose
    second parameter has no name: an error, and no request body. *)
Lemma form_data_body_not_as_stated :
  ¬ formDataBodyAsStated options duplicateParams "/upload" ["upload"]
      NewNDCRestSchema ∧
  ¬ formDataBodyAsStated options [Some (schemaTypedParam None)] "/upload"
      ["upload"] NewNDCRestSchema ∧
  ¬ formDataBodyAsStated options failingParams "/upload" ["upload"]
      NewNDCRestSchema ∧
  convertParameters options failingParams "/upload" ["upload"]
    NewNDCRestSchema =
  Err (errorsNew "parameter name is empty") stringScalars.
Proof.
  assert (Hdup : convertParameters options duplicateParams "/upload"
                   ["upload"] NewNDCRestSchema =
                 Ok (<["tag" := MkArgumentInfo (NullableType (NamedType "String"))
                                  None]> ∅, [],
                     Some (MkRequestBody ContentTypeMultipartFormData
                             (Some (formDataSchema
                                      (<["tag" := stringDescriptor true]> ∅)))))
                    stringScalars)
    by (vm_compute; reflexivity).
  assert (Hschema : convertParameters options [Some (schemaTypedParam None)]
                      "/upload" ["upload"] NewNDCRestSchema =
                    Ok (<["file" := MkArgumentInfo
                                      (NullableType (NamedType "String")) None]> ∅,
                        [],
                        Some (MkRequestBody ContentTypeMultipartFormData
                                (Some (formDataSchema
                                         (<["file" := stringDescriptor false]> ∅)))))
                       stringScalars)
    by (vm_compute; reflexivity).
  assert (Hfail : convertParameters options failingParams "/upload" ["upload"]
                    NewNDCRestSchema =
                  Err (errorsNew "parameter name is empty") stringScalars)
    by (vm_compute; reflexivity).
  split; [|split; [|split; [|exact Hfail]]].
  - intros (a & r & props & st' & Heq & Hall). rewrite Hdup in Heq.
    injection Heq as _ _ <- _.
    destruct (Hall (primitiveParam "tag" "formData" "string" (Some true)))
      as (prop & Hprop & Hnull); [apply list_elem_of_here|reflexivity|].
    vm_compute in Hprop. injection Hprop as <-. discriminate Hnull.
  - intros (a & r & props & st' & Heq & Hall). rewrite Hschema in Heq.
    injection Heq as _ _ <- _.
    destruct (Hall (schemaTypedParam None))
      as (prop & Hprop & Hnull); [apply list_elem_of_here|reflexivity|].
    vm_compute in Hprop. injection Hprop as <-. discriminate Hnull.
  - intros (a & r & props & st' & Heq & _). rewrite Hfail in Heq.
    discriminate Heq.
Qed.

Lemma array_parameter_without_items_panics_witness :
  getSchemaTypeFromParameter options arrayParam "/pets" ["findPets"]
    NewNDCRestSchema = Panic ∧
  convertParameters options ([] ++ [Some arrayParam]) "/pets" ["findPets"]
    NewNDCRestSchema = Panic.
Proof.
  apply (array_parameter_without_items_panics options [] [] arrayParam
           (MkParamState ∅ [] None ∅) "/pets" ["findPets"] NewNDCRestSchema
           NewNDCRestSchema); try reflexivity.
  discriminate.
Defined.

Lemma untyped_parameter_panics_witness :
  convertParameters options ([] ++ [Some untypedParam]) "/pets" ["findPets"]
    NewNDCRestSchema = Panic.
Proof.
  apply (untyped_parameter_panics options [] [] untypedParam InQuery
           (MkParamState ∅ [] None ∅) "/pets" ["findPets"] NewNDCRestSchema
           NewNDCRestSchema); try reflexivity.
  discriminate.
Defined.

Lemma procedure_content_type_witness :
  rb_ContentType (MkRequestBody "application/json"
                    (Some (stringDescriptor false))) = ContentTypeJSON ∧
  head ["application/xml"; "text/plain"] =
  Some (rb_ContentType (MkRequestBody "application/xml"
                          (Some (stringDescriptor false)))).
Proof.
  assert (Hjson : convertProcedureOperation options "/pets" "post"
                    (Some (addPet ["application/xml"; "application/json"]))
                    NewNDCRestSchema =
                  Ok (Some (addPetProcedure "application/json")) stringScalars)
    by (vm_compute; reflexivity).
  assert (Hxml : convertProcedureOperation options "/pets" "post"
                   (Some (addPet ["application/xml"; "text/plain"]))
                   NewNDCRestSchema =
                 Ok (Some (addPetProcedure "application/xml")) stringScalars)
    by (vm_compute; reflexivity).
  split.
  - apply (proj1 (procedure_content_type options "/pets" "post" _ _ _ _ _
                    Hjson eq_refl ltac:(discriminate))).
    apply list_elem_of_further, list_elem_of_here.
  - apply (proj2 (procedure_content_type options "/pets" "post" _ _ _ _ _
                    Hxml eq_refl ltac:(discriminate))).
    intros Hin. cbn in Hin. rewrite !elem_of_cons, elem_of_nil in Hin.
    destruct Hin as [?|[?|[]]]; discriminate.
Defined.



End Examples.

(** ** What every conversion preserves

    A relation between schemas that is reflexive and transitive and that
    holds across each elementary update (a scalar registered, an object
    type stored, a function or a procedure appended) holds between the
    schema a conversion starts from and the one it leaves, on success and
    on error. *)

Section Preserved.

Context `{Collaborators}.
Variable options : ConvertOptions.
Variable R : NDCRestSchema → NDCRestSchema → Prop.
Hypothesis R_refl : ∀ st, R st st.
Hypothesis R_trans : ∀ st1 st2 st3, R st1 st2 → R st2 st3 → R st1 st3.
Hypothesis R_scalars : ∀ st m, R st (setScalarTypes st m).
Hypothesis R_object :
  ∀ st n o, R st (setObjectTypes st (<[n := o]> (ObjectTypes st))).
Hypothesis R_function : ∀ st f, R st (appendFunction st f).
Hypothesis R_procedure : ∀ st p, R st (appendProcedure st p).

Lemma forEach_preserved {X A} (body : A → X → M A) (l : list X) :
  (∀ x acc st s', x ∈ l → finalSchema (body acc x st) = Some s' → R st s') →
  ∀ acc st s', finalSchema (forEach body l acc st) = Some s' → R st s'.
Proof.
  induction l as [|x l IH]; intros Hbody acc st s' Hr.
  - injection Hr as <-. apply R_refl.
  - rewrite forEach_cons in Hr.
    destruct (body acc x st) as [acc1 st1|e st1|] eqn:Hx; try done.
    + eapply R_trans.
      * eapply (Hbody x acc); [by left|by rewrite Hx].
      * eapply IH; [|done]. intros. eapply Hbody; [by right|done].
    + injection Hr as <-. eapply (Hbody x acc); [by left|by rewrite Hx].
Qed.

Lemma getSchemaTypeFromProxyWith_preserved
    (resolve : Schema → string → list string → M (TypeEncoder * TypeSchema))
    (p : option SchemaProxy) (hint : bool) (apiPath : string)
    (fieldPaths : list string) (st s' : NDCRestSchema) :
  (∀ proxy s a fp st0 s1, p = Some proxy → proxy_Schema proxy = Some s →
     finalSchema (resolve s a fp st0) = Some s1 → R st0 s1) →
  finalSchema (getSchemaTypeFromProxyWith resolve p hint apiPath fieldPaths st)
  = Some s' →
  R st s'.
Proof.
  intros Hres. unfold getSchemaTypeFromProxyWith. conv_unfold.
  intros Hr. conv_cases.
  all: try apply R_refl.
  all: eapply Hres; [done|done|];
    match goal with Hx : _ = _ |- finalSchema ?t = _ => by rewrite Hx end.
Qed.

Lemma getSchemaTypeOf_preserved_aux (n : nat) :
  ∀ s apiPath fieldPaths st s',
    schemaSize s < n →
    finalSchema (getSchemaTypeOf options s apiPath fieldPaths st) = Some s' →
    R st s'.
Proof.
  induction n as [|n IH]; intros s apiPath fieldPaths st s' Hsz; [lia|].
  destruct s as [ty fmt enum title desc nul req anyof addp props items].
  cbn -[createSchemaFromOpenAPISchema forEach getScalarFromType
        getSchemaTypeFromProxyWith] in *.
  unfold scalarFromType. conv_unfold.
  intros Hr. conv_cases.
  all: try solve [ apply R_refl | apply R_scalars | apply R_object
                 | eapply R_trans; [apply R_scalars|apply R_scalars] ].
  all: lazymatch goal with
       | Hloop : forEach _ _ _ ?st0 = _ |- R ?st0 _ =>
         eapply R_trans; [|first [apply R_object | apply R_refl]];
         eapply forEach_preserved; [|by rewrite Hloop];
         intros [k px] acc0 s0 s2 Hin Hb; simpl in Hb;
         destruct (getSchemaTypeFromProxyWith _ _ _ _ _ _)
           as [[pt pa] s3|e3 s3|] eqn:Hp; simpl in Hb; try done;
         injection Hb as <-;
         (eapply getSchemaTypeFromProxyWith_preserved; [|by rewrite Hp]);
         intros [ref inner] sx ax fpx stx s1x -> Hsx; apply IH;
         pose proof (property_size _ _ _ Hin) as Hle;
         simpl in Hsx, Hle; subst inner; simpl in Hle; lia
       | Hrec : getSchemaTypeOf _ _ _ _ ?st0 = _ |- R ?st0 _ =>
         eapply IH; [|by rewrite Hrec]; simplify_eq/=; lia
       end.
Qed.

Lemma getSchemaTypeOf_preserved (s : Schema) (apiPath : string)
    (fieldPaths : list string) (st s' : NDCRestSchema) :
  finalSchema (getSchemaTypeOf options s apiPath fieldPaths st) = Some s' →
  R st s'.
Proof.
  intros Hr.
  eapply (getSchemaTypeOf_preserved_aux (S (schemaSize s))); [|exact Hr]. lia.
Qed.

Lemma getSchemaTypeFromProxy_preserved (p : option SchemaProxy) (hint : bool)
    (apiPath : string) (fieldPaths : list string) (st s' : NDCRestSchema) :
  finalSchema (getSchemaTypeFromProxy options p hint apiPath fieldPaths st)
  = Some s' →
  R st s'.
Proof.
  apply getSchemaTypeFromProxyWith_preserved.
  intros. by eapply getSchemaTypeOf_preserved.
Qed.

Lemma getSchemaTypeFromParameter_preserved (param : V2Parameter)
    (apiPath : string) (fieldPaths : list string) (st s' : NDCRestSchema) :
  finalSchema (getSchemaTypeFromParameter options param apiPath fieldPaths st)
  = Some s' →
  R st s'.
Proof.
  unfold getSchemaTypeFromParameter, scalarFromType. conv_unfold.
  intros Hr. conv_cases; first [apply R_refl | apply R_scalars].
Qed.

Lemma convertParameter_preserved (param : option V2Parameter)
    (acc : paramState) (apiPath : string) (fieldPaths : list string)
    (st s' : NDCRestSchema) :
  finalSchema (convertParameter options apiPath fieldPaths acc param st)
  = Some s' →
  R st s'.
Proof.
  unfold convertParameter. conv_unfold. intros Hr. conv_cases.
  all: try apply R_refl.
  all: match goal with
       | Hx : getSchemaTypeFromParameter _ _ _ _ _ = _ |- _ =>
         eapply getSchemaTypeFromParameter_preserved; by rewrite Hx
       | Hx : getSchemaTypeFromProxy _ _ _ _ _ _ = _ |- _ =>
         eapply getSchemaTypeFromProxy_preserved; by rewrite Hx
       end.
Qed.

Lemma convertParameters_preserved (params : list (option V2Parameter))
    (apiPath : string) (fieldPaths : list string) (st s' : NDCRestSchema) :
  finalSchema (convertParameters options params apiPath fieldPaths st)
  = Some s' →
  R st s'.
Proof.
  unfold convertParameters. conv_unfold. intros Hr. conv_cases.
  all: try apply R_refl.
  all: eapply forEach_preserved;
    [intros; by eapply convertParameter_preserved|];
    match goal with Hx : forEach _ _ _ _ = _ |- _ => by rewrite Hx end.
Qed.

Lemma convertResponse_preserved (responses : option Responses)
    (apiPath : string) (fieldPaths : list string) (st s' : NDCRestSchema) :
  finalSchema (convertResponse options responses apiPath fieldPaths st)
  = Some s' →
  R st s'.
Proof.
  unfold convertResponse. conv_unfold. intros Hr. conv_cases.
  all: try apply R_refl.
  all: eapply getSchemaTypeFromProxy_preserved;
    match goal with
    | Hx : getSchemaTypeFromProxy _ _ _ _ _ _ = _ |- _ => by rewrite Hx
    end.
Qed.

Lemma addProcedure_preserved (pathKey method : string)
    (operation : option Operation) (st s' : NDCRestSchema) :
  finalSchema (addProcedure options pathKey method operation st) = Some s' →
  R st s'.
Proof.
  unfold addProcedure, convertProcedureOperation. conv_unfold.
  intros Hr. destruct operation as [op|]; [|injection Hr as <-; apply R_refl].
  destruct (convertResponse _ _ _ _ _) as [res s1|e s1|] eqn:Hres; try done;
    cycle 1.
  { injection Hr as <-. eapply convertResponse_preserved. by rewrite Hres. }
  assert (R st s1) as Hs1
    by (eapply convertResponse_preserved; by rewrite Hres).
  destruct res as [t|]; [|by injection Hr as <-].
  destruct (convertParameters _ _ _ _ _) as [[[args rps] body] s2|e s2|]
    eqn:Hp; try done.
  - assert (R s1 s2) by (eapply convertParameters_preserved; by rewrite Hp).
    simpl in Hr. injection Hr as <-.
    eapply R_trans; [done|]. eapply R_trans; [done|]. apply R_procedure.
  - injection Hr as <-. eapply R_trans; [done|].
    eapply convertParameters_preserved. by rewrite Hp.
Qed.

Lemma convertFunctionOperation_preserved (pathKey : string)
    (itemGet : Operation) (st s' : NDCRestSchema) :
  finalSchema (convertFunctionOperation options pathKey itemGet st) = Some s' →
  R st s'.
Proof.
  unfold convertFunctionOperation. conv_unfold. intros Hr.
  destruct (convertResponse _ _ _ _ _) as [res s1|e s1|] eqn:Hres; try done;
    cycle 1.
  { injection Hr as <-. eapply convertResponse_preserved. by rewrite Hres. }
  assert (R st s1) as Hs1
    by (eapply convertResponse_preserved; by rewrite Hres).
  destruct res as [t|]; [|by injection Hr as <-].
  destruct (convertParameters _ _ _ _ _) as [[[args rps] body] s2|e s2|]
    eqn:Hp; try done.
  - assert (R s1 s2) by (eapply convertParameters_preserved; by rewrite Hp).
    simpl in Hr. injection Hr as <-.
    eapply R_trans; [done|]. eapply R_trans; [done|]. apply R_function.
  - injection Hr as <-. eapply R_trans; [done|].
    eapply convertParameters_preserved. by rewrite Hp.
Qed.

Lemma pathToNDCOperations_preserved (pathItem : string * option PathItem)
    (st s' : NDCRestSchema) :
  finalSchema (pathToNDCOperations options pathItem st) = Some s' → R st s'.
Proof.
  unfold pathToNDCOperations. destruct pathItem as [pathKey [pathValue|]];
    [|done].
  conv_unfold. simpl. intros Hr.
  assert (∃ s0, R st s0 ∧
            (finalSchema
               (match pi_Get pathValue with
                | Some itemGet =>
                  convertFunctionOperation options pathKey itemGet
                | None => λ s, Ok tt s
                end st) = Some s0)) as (s0 & Hs0 & Hget).
  { destruct (pi_Get pathValue) as [itemGet|].
    - destruct (convertFunctionOperation _ _ _ _) as [[] s0|e s0|] eqn:Hg;
        try done; exists s0; (split; [|done]);
        eapply convertFunctionOperation_preserved; by rewrite Hg.
    - exists st. by split. }
  destruct (match pi_Get pathValue with
            | Some itemGet => convertFunctionOperation options pathKey itemGet
            | None => λ s, Ok tt s
            end st) as [[] sg|e sg|]; try done; simplify_eq/=; [|done].
  repeat match type of Hr with
  | finalSchema (match addProcedure ?o ?k ?m ?op ?s with _ => _ end) = _ =>
    let Hx := fresh "Hx" in
    destruct (addProcedure o k m op s) as [[] ?|? ?|] eqn:Hx; try done;
    [ apply (f_equal finalSchema) in Hx;
      apply addProcedure_preserved in Hx
    | injection Hr as <-;
      apply (f_equal finalSchema) in Hx; simpl in Hx;
      apply addProcedure_preserved in Hx; eauto ]
  end.
  apply addProcedure_preserved in Hr. eauto 10.
Qed.

Lemma convertComponentSchemas_preserved (schemaItem : string * SchemaProxy)
    (st s' : NDCRestSchema) :
  finalSchema (convertComponentSchemas options schemaItem st) = Some s' →
  R st s'.
Proof.
  unfold convertComponentSchemas, getSchemaType. conv_unfold. intros Hr.
  destruct (proxy_Schema schemaItem.2) as [typeSchema|];
    [|injection Hr as <-; apply R_refl].
  destruct (negb _); [injection Hr as <-; apply R_refl|].
  eapply (getSchemaTypeOf_preserved typeSchema "" [schemaItem.1]).
  destruct (getSchemaTypeOf _ _ _ _ _) as [r s1|e s1|]; try done.
Qed.

End Preserved.

(** ** Further properties of the type resolver *)

Section ResolverProperties.

Context `{Collaborators}.
Variable options : ConvertOptions.

(** X1. Failures of the type resolver. A nil schema, a nil proxy and a
    schema that declares no type and is not a union give the empty-schema
    error; a proxy whose schema cannot be built gives "cannot get schema
    from proxy" with its reference; an array without items gives "array
    item is empty"; an array whose item carries neither a definition
    reference nor a schema gives "cannot parse type reference name" with
    the item's reference; a single type name that is neither primitive,
    object nor array gives "unsupported schema type" with that name. In
    each case the registries are left as they were. *)
Theorem resolver_failures (apiPath : string) (fieldPaths : list string)
    (st : NDCRestSchema) :
  getSchemaType options None apiPath fieldPaths st =
  Err errParameterSchemaEmpty st ∧
  (∀ hint,
     getSchemaTypeFromProxy options None hint apiPath fieldPaths st =
     Err errParameterSchemaEmpty st) ∧
  (∀ ref hint,
     getSchemaTypeFromProxy options (Some (MkSchemaProxy ref None)) hint
       apiPath fieldPaths st =
     Err (Errorf "cannot get schema from proxy: " ref) st) ∧
  (∀ s, isUntypedNode s →
     getSchemaType options (Some s) apiPath fieldPaths st =
     Err errParameterSchemaEmpty st) ∧
  (∀ s, isArrayNode s →
     schema_Items s = None ∨ schema_Items s = Some None →
     getSchemaType options (Some s) apiPath fieldPaths st =
     Err (errorsNew "array item is empty") st) ∧
  (∀ s ref, isArrayNode s →
     schema_Items s = Some (Some (MkSchemaProxy ref None)) →
     getSchemaRefTypeNameV2 ref = "" →
     getSchemaType options (Some s) apiPath fieldPaths st =
     Err (Errorf "cannot parse type reference name: " ref) st) ∧
  (∀ s typeName,
     schema_Type s = [typeName] → schema_AnyOf s = [] →
     schema_AdditionalProperties s = None →
     isPrimitiveScalar typeName = false →
     typeName ≠ "object" → typeName ≠ "array" →
     getSchemaType options (Some s) apiPath fieldPaths st =
     Err (Errorf "unsupported schema type " typeName) st).
Proof.
  split; [done|]. split; [done|]. split; [done|].
  split; [|split; [|split]].
  - intros s (Hty & Hany & Hadd). by apply getSchemaType_no_type.
  - intros s (Hty & Hany & Hadd & Hprim) Hit.
    by apply getSchemaType_array_without_items.
  - intros s ref (Hty & Hany & Hadd & Hprim) Hit Href.
    destruct s as [ty fmt enum title desc nul req anyof addp props items].
    simpl in *. subst.
    cbn -[createSchemaFromOpenAPISchema Errorf]. rewrite Hprim.
    conv_unfold. simpl. rewrite Href. done.
  - intros s typeName. by apply getSchemaType_unsupported.
Qed.

(** X2. A schema with anyOf members, with additionalProperties or with
    more than one declared type resolves to the named type JSON whatever
    else it declares: the JSON scalar is registered unless an entry of that
    name exists, which is then kept, and the type is not wrapped in
    Nullable even when the schema is nullable. *)
Theorem json_fallback (s : Schema) (apiPath : string)
    (fieldPaths : list string) (st : NDCRestSchema) :
  schema_AnyOf s ≠ [] ∨ schema_AdditionalProperties s ≠ None ∨
  1 < length (schema_Type s) →
  getSchemaType options (Some s) apiPath fieldPaths st =
  Ok (NewNamedType "JSON", createSchemaFromOpenAPISchema s "JSON")
     (match ScalarTypes st !! "JSON" with
      | Some _ => st
      | None =>
        setScalarTypes st (<["JSON" := NewScalarType]> (ScalarTypes st))
      end).
Proof.
  intros Hj.
  assert (Hcond : bool_decide (0 < length (schema_AnyOf s))
                  || bool_decide (schema_AdditionalProperties s ≠ None)
                  || bool_decide (1 < length (schema_Type s)) = true).
  { destruct Hj as [Ha|[Ha|Ha]].
    - rewrite (bool_decide_eq_true_2 (0 < _)); [done|].
      destruct (schema_AnyOf s); [done|simpl; lia].
    - rewrite (bool_decide_eq_true_2 (_ ≠ None)) by done.
      by rewrite orb_true_r.
    - rewrite (bool_decide_eq_true_2 (1 < _)) by done.
      by rewrite !orb_true_r. }
  destruct s as [ty fmt enum title desc nul req anyof addp props items].
  simpl in *. cbn -[createSchemaFromOpenAPISchema]. rewrite Hcond.
  conv_unfold. by destruct (ScalarTypes st !! "JSON").
Qed.

(** X3. A proxy that references a definition and whose schema is an
    object is answered by the PascalCase of the referenced name, wrapped
    when the nullable hint is set, without descending into the schema and
    without touching the registries. An array whose item references a
    definition is the array of the referenced name as written (not in
    PascalCase), wrapped when the array schema is nullable, again without
    touching the registries. *)
Theorem references_are_answered_by_name (apiPath : string)
    (fieldPaths : list string) (st : NDCRestSchema) :
  (∀ proxy inner hint,
     proxy_Schema proxy = Some inner → isObjectReference proxy inner = true →
     getSchemaTypeFromProxy options (Some proxy) hint apiPath fieldPaths st =
     Ok (wrapNullable hint
           (NewNamedType
              (ToPascalCase (getSchemaRefTypeNameV2 (proxy_Reference proxy)))),
         ts_withType zeroTypeSchema
           (getSchemaRefTypeNameV2 (proxy_Reference proxy)))
        st) ∧
  (∀ s itemsA,
     isArrayNode s → schema_Items s = Some (Some itemsA) →
     getSchemaRefTypeNameV2 (proxy_Reference itemsA) ≠ "" →
     getSchemaType options (Some s) apiPath fieldPaths st =
     Ok (wrapNullable (isTrue (schema_Nullable s))
           (NewArrayType
              (NewNamedType (getSchemaRefTypeNameV2 (proxy_Reference itemsA)))),
         ts_withType (createSchemaFromOpenAPISchema s "") "array")
        st).
Proof.
  split.
  - intros proxy inner hint Hs Href.
    by apply (getSchemaTypeFromProxy_reference options proxy inner).
  - intros s itemsA (Hty & Hany & Hadd & Hprim) Hit Href.
    destruct s as [ty fmt enum title desc nul req anyof addp props items].
    simpl in *. subst.
    cbn -[createSchemaFromOpenAPISchema]. rewrite Hprim.
    conv_unfold. simpl. rewrite decide_True by done.
    by destruct (isTrue nul).
Qed.

(** X4. An array whose item is an inline schema is resolved by resolving
    the item schema under the same API path and the same field path: on
    success the type is the array of the item's type, wrapped when the
    array schema is nullable, and the descriptor carries the item's
    descriptor; an error or a panic of the item is that of the array. *)
Theorem array_of_inline_items (s itemSchema : Schema) (itemsA : SchemaProxy)
    (apiPath : string) (fieldPaths : list string) (st : NDCRestSchema) :
  isArrayNode s → schema_Items s = Some (Some itemsA) →
  getSchemaRefTypeNameV2 (proxy_Reference itemsA) = "" →
  proxy_Schema itemsA = Some itemSchema →
  getSchemaType options (Some s) apiPath fieldPaths st =
  match getSchemaType options (Some itemSchema) apiPath fieldPaths st with
  | Ok r st' =>
    Ok (wrapNullable (isTrue (schema_Nullable s)) (NewArrayType r.1),
        ts_withItems
          (ts_withType (createSchemaFromOpenAPISchema s "") "array") r.2)
       st'
  | Err e st' => Err e st'
  | Panic => Panic
  end.
Proof.
  intros (Hty & Hany & Hadd & Hprim) Hit Href Hs.
  destruct s as [ty fmt enum title desc nul req anyof addp props items].
  destruct itemsA as [ref inner].
  simpl in *. subst.
  cbn -[createSchemaFromOpenAPISchema]. rewrite Hprim.
  conv_unfold. simpl. rewrite Href. rewrite decide_False by (by intros []).
  destruct (getSchemaTypeOf options itemSchema apiPath fieldPaths st)
    as [[t ts] st'| |]; try done.
  by destruct (isTrue nul).
Qed.

(** X5. The nullable hint of [getSchemaTypeFromProxy] changes nothing but
    the outer wrapper: the call with the hint is the call without it, with
    the returned type wrapped in Nullable when the hint is set; descriptor,
    registries, errors and panics are the same. *)
Theorem nullable_hint_only_wraps (p : option SchemaProxy) (hint : bool)
    (apiPath : string) (fieldPaths : list string) (st : NDCRestSchema) :
  getSchemaTypeFromProxy options p hint apiPath fieldPaths st =
  match getSchemaTypeFromProxy options p false apiPath fieldPaths st with
  | Ok r st' => Ok (wrapNullable hint r.1, r.2) st'
  | Err e st' => Err e st'
  | Panic => Panic
  end.
Proof. apply getSchemaTypeFromProxy_hint. Qed.

Lemma property_loop
    (body : propertyAcc → string * option SchemaProxy → M propertyAcc)
    (resolveProperty :
       string * option SchemaProxy → M (TypeEncoder * TypeSchema))
    (required : list string) (l : list (string * option SchemaProxy)) :
  (∀ acc prop st,
     body acc prop st =
     match resolveProperty prop st with
     | Ok r st' =>
       Ok (<[prop.1 := ts_withNullable r.2
                         (negb (slices_Contains required prop.1))]> acc.1,
           <[prop.1 := MkObjectField r.1 (nonEmpty (ts_Description r.2))]>
             acc.2) st'
     | Err e st' => Err e st'
     | Panic => Panic
     end) →
  (∀ prop st r st',
     resolveProperty prop st = Ok r st' →
     slices_Contains required prop.1 = false → ∃ u, r.1 = NullableType u) →
  ∀ acc st acc' st',
    forEach body l acc st = Ok acc' st' →
    (∀ k, is_Some (acc'.1 !! k) ↔ is_Some (acc.1 !! k) ∨ k ∈ l.*1) ∧
    (∀ k, is_Some (acc'.2 !! k) ↔ is_Some (acc.2 !! k) ∨ k ∈ l.*1) ∧
    (∀ k d, acc'.1 !! k = Some d →
       acc.1 !! k = Some d ∨
       ts_Nullable d = negb (slices_Contains required k)) ∧
    (∀ k f, acc'.2 !! k = Some f →
       acc.2 !! k = Some f ∨
       (slices_Contains required k = false → ∃ u, of_Type f = NullableType u)).
Proof.
  intros Hbody Hres. induction l as [|prop l IH]; intros acc st acc' st' Hr.
  - injection Hr as <- _. simpl.
    split; [|split; [|split]]; intros k; try (by left).
    + split; [auto|]. intros [?|Hin]; [done|]. by apply elem_of_nil in Hin.
    + split; [auto|]. intros [?|Hin]; [done|]. by apply elem_of_nil in Hin.
  - rewrite forEach_cons, Hbody in Hr.
    destruct (resolveProperty prop st) as [r s1| |] eqn:Hp; try done.
    destruct (IH _ _ _ _ Hr) as (Hd1 & Hd2 & Hn & Hf). clear IH Hr.
    simpl in *. specialize (Hres _ _ _ _ Hp).
    split; [|split; [|split]].
    + intros k. rewrite Hd1, elem_of_cons.
      destruct (decide (prop.1 = k)) as [<-|Hne].
      * rewrite lookup_insert_eq. split; [auto|]. intros _. left. eauto.
      * rewrite lookup_insert_ne by done.
        split; [intros [?|?]; auto|intros [?|[?|?]]; [auto|congruence|auto]].
    + intros k. rewrite Hd2, elem_of_cons.
      destruct (decide (prop.1 = k)) as [<-|Hne].
      * rewrite lookup_insert_eq. split; [auto|]. intros _. left. eauto.
      * rewrite lookup_insert_ne by done.
        split; [intros [?|?]; auto|intros [?|[?|?]]; [auto|congruence|auto]].
    + intros k d Hk. destruct (Hn k d Hk) as [Hk'|?]; [|auto].
      destruct (decide (prop.1 = k)) as [<-|Hne].
      * rewrite lookup_insert_eq in Hk'. injection Hk' as <-. by right.
      * rewrite lookup_insert_ne in Hk' by done. by left.
    + intros k f Hk. destruct (Hf k f Hk) as [Hk'|?]; [|auto].
      destruct (decide (prop.1 = k)) as [<-|Hne].
      * rewrite lookup_insert_eq in Hk'. injection Hk' as <-. by right.
      * rewrite lookup_insert_ne in Hk' by done. by left.
Qed.

Lemma getSchemaTypeFromProxyWith_hinted
    (resolve : Schema → string → list string → M (TypeEncoder * TypeSchema))
    (p : option SchemaProxy) (apiPath : string) (fieldPaths : list string)
    (st st' : NDCRestSchema) (r : TypeEncoder * TypeSchema) :
  getSchemaTypeFromProxyWith resolve p true apiPath fieldPaths st = Ok r st' →
  ∃ u, r.1 = NullableType u.
Proof.
  unfold getSchemaTypeFromProxyWith. conv_unfold. intros Hr.
  conv_cases; eauto.
Qed.

(** X6. When an object schema with properties resolves, the object type
    registered under the PascalCase join of the field path has the schema's
    description (none when empty), and its fields and the properties of the
    returned descriptor are keyed by exactly the property names; a property
    descriptor is nullable exactly when the property is not listed as
    required, and the field type of such a property is a Nullable type. *)
Theorem object_properties (s : Schema)
    (props : list (string * option SchemaProxy)) (apiPath : string)
    (fieldPaths : list string) (st st' : NDCRestSchema) (t : TypeEncoder)
    (ts : TypeSchema) :
  isObjectNode s → schema_Properties s = Some props → props ≠ [] →
  getSchemaType options (Some s) apiPath fieldPaths st = Ok (t, ts) st' →
  ∃ obj tprops,
    ObjectTypes st' !! StringSliceToPascalCase fieldPaths = Some obj ∧
    ot_Description obj = nonEmpty (schema_Description s) ∧
    ts_Type ts = "object" ∧ ts_Properties ts = Some tprops ∧
    (∀ k, is_Some (ot_Fields obj !! k) ↔ k ∈ props.*1) ∧
    (∀ k, is_Some (tprops !! k) ↔ k ∈ props.*1) ∧
    (∀ k d, tprops !! k = Some d →
       ts_Nullable d = negb (slices_Contains (schema_Required s) k)) ∧
    (∀ k f, ot_Fields obj !! k = Some f →
       slices_Contains (schema_Required s) k = false →
       ∃ u, of_Type f = NullableType u).
Proof.
  intros (Hty & Hany & Hadd & Hprim) Hp Hne.
  destruct s as [ty fmt enum title desc nul req anyof addp ps items].
  simpl in *. subst. destruct props as [|p0 props]; [done|]. clear Hne.
  cbn -[createSchemaFromOpenAPISchema forEach getSchemaTypeFromProxyWith].
  rewrite Hprim. rewrite !bool_decide_eq_false_2 by lia.
  cbn -[createSchemaFromOpenAPISchema forEach getSchemaTypeFromProxyWith].
  rewrite decide_True by done.
  match goal with
  | |- context [forEach ?b ?l ?a] =>
    pose proof (property_loop b
                  (λ prop, getSchemaTypeFromProxyWith (getSchemaTypeOf options)
                             prop.2 (negb (slices_Contains req prop.1)) apiPath
                             (fieldPaths ++ [prop.1]))
                  req l) as Hloop
  end.
  conv_unfold.
  destruct (forEach _ _ _ _) as [acc s1| |] eqn:Hfe; try done.
  destruct (Hloop) with (acc := ((∅, ∅) : propertyAcc)) (st := st)
    (acc' := acc) (st' := s1) as (Hd1 & Hd2 & Hn & Hf); [| |exact Hfe|].
  { intros acc0 prop st0. conv_unfold.
    destruct (getSchemaTypeFromProxyWith _ _ _ _ _ _) as [[pt pa] s2| |];
      done. }
  { intros prop st0 r s2 Hr Hreq. rewrite Hreq in Hr.
    by eapply getSchemaTypeFromProxyWith_hinted. }
  intros Hr.
  assert (st' = setObjectTypes s1
            (<[StringSliceToPascalCase fieldPaths :=
                 MkObjectType (nonEmpty desc) acc.2]> (ObjectTypes s1)) ∧
          ts = ts_withProperties
                 (ts_withType
                    (createSchemaFromOpenAPISchema
                       (MkSchema ["object"] fmt enum title desc nul req [] None
                          (Some (p0 :: props)) items) "") "object") acc.1)
    as [-> ->] by (destruct (isTrue nul); by simplify_eq/=).
  eexists _, _. split; [simpl; apply lookup_insert_eq|].
  split; [done|]. split; [done|]. split; [done|].
  simpl in *.
  split; [intros k; rewrite Hd2, lookup_empty; split;
          [by intros [[]|?]|auto]|].
  split; [intros k; rewrite Hd1, lookup_empty; split;
          [by intros [[]|?]|auto]|].
  split.
  - intros k d Hk. destruct (Hn k d Hk) as [Hc|?]; [|done].
    by rewrite lookup_empty in Hc.
  - intros k f Hk. destruct (Hf k f Hk) as [Hc|?]; [|done].
    by rewrite lookup_empty in Hc.
Qed.

End ResolverProperties.

(** ** Further properties of the parameter converter *)

Section ParameterProperties.

Context `{Collaborators}.
Variable options : ConvertOptions.

(** X7. Type resolution, parameter conversion and response resolution
    never add, drop or reorder a function or a procedure, whether they
    return a result or an error. *)
Theorem conversions_leave_operations (apiPath : string)
    (fieldPaths : list string) (st s' : NDCRestSchema) :
  (∀ p hint,
     finalSchema (getSchemaTypeFromProxy options p hint apiPath fieldPaths st)
     = Some s' → sameOperations st s') ∧
  (∀ params,
     finalSchema (convertParameters options params apiPath fieldPaths st)
     = Some s' → sameOperations st s') ∧
  (∀ responses,
     finalSchema (convertResponse options responses apiPath fieldPaths st)
     = Some s' → sameOperations st s').
Proof.
  assert (Ht : ∀ s1 s2 s3, sameOperations s1 s2 → sameOperations s2 s3 →
                           sameOperations s1 s3)
    by (intros ??? [??] [??]; split; congruence).
  split; [|split].
  - intros p hint Hr.
    by eapply (getSchemaTypeFromProxy_preserved options sameOperations).
  - intros params Hr.
    by eapply (convertParameters_preserved options sameOperations).
  - intros responses Hr.
    by eapply (convertResponse_preserved options sameOperations).
Qed.

Lemma registryGrows_refl (st : NDCRestSchema) : registryGrows st st.
Proof. done. Qed.

Lemma registryGrows_trans (s1 s2 s3 : NDCRestSchema) :
  registryGrows s1 s2 → registryGrows s2 s3 → registryGrows s1 s3.
Proof.
  intros (? & ? & ?) (? & ? & ?).
  split; [set_solver|]. split; by etrans.
Qed.

(** X8. The conversion of a path item, whether it succeeds or fails, keeps
    every registered object type name registered and only appends to the
    lists of functions and procedures. *)
Theorem path_conversion_only_adds (pathItem : string * option PathItem)
    (st s' : NDCRestSchema) :
  finalSchema (pathToNDCOperations options pathItem st) = Some s' →
  registryGrows st s'.
Proof.
  apply (pathToNDCOperations_preserved options registryGrows).
  - apply registryGrows_refl.
  - apply registryGrows_trans.
  - done.
  - intros s n o. split; [|done]. simpl. rewrite dom_insert. set_solver.
  - intros s f. split; [done|]. split; [|done]. by apply prefix_app_r.
  - intros s p. split; [done|]. split; [done|]. by apply prefix_app_r.
Qed.

Lemma forEach_skip_nil {A} (body : A → option V2Parameter → M A)
    (l : list (option V2Parameter)) :
  (∀ acc, body acc None = ret acc) →
  ∀ acc st, forEach body l acc st = forEach body (Some <$> omap id l) acc st.
Proof.
  intros Hnil. induction l as [|[p|] l IH]; intros acc st; [done| |].
  - simpl. rewrite !forEach_cons. destruct (body acc (Some p) st); auto.
  - simpl. rewrite forEach_cons, Hnil. apply IH.
Qed.

(** X9. Nil entries of a parameter list are skipped: a non-empty list
    converts exactly as the list of its non-nil entries (results,
    registries, errors and panics alike). *)
Theorem nil_parameters_are_skipped (params : list (option V2Parameter))
    (apiPath : string) (fieldPaths : list string) (st : NDCRestSchema) :
  convertParameters options params apiPath fieldPaths st =
  convertParameters options (Some <$> omap id params) apiPath fieldPaths st.
Proof.
  unfold convertParameters. conv_unfold.
  destruct params as [|x params]; [done|].
  rewrite (bool_decide_eq_false_2 (length (x :: params) = 0)) by done.
  rewrite (forEach_skip_nil _ (x :: params)) by done.
  case_bool_decide as Hlen; [|done].
  destruct (Some <$> omap id (x :: params)); done.
Qed.

(** X10. A parameter that declares a type of its own and resolves has a
    named scalar type when the type is primitive and an array of a named
    scalar otherwise; the type is wrapped in Nullable exactly once when the
    parameter is not required and not at all when it is; object types and
    operation lists are untouched. *)
Theorem primitive_parameter_wrapper (param : V2Parameter) (apiPath : string)
    (fieldPaths : list string) (st st' : NDCRestSchema) (t : TypeEncoder) :
  getSchemaTypeFromParameter options param apiPath fieldPaths st = Ok t st' →
  ∃ name,
    t = wrapNullable (negb (isTrue (param_Required param)))
          (if isPrimitiveScalar (param_Type param)
           then NewNamedType name
           else NewArrayType (NewNamedType name)) ∧
    nullableDepth t = Nat.b2n (negb (isTrue (param_Required param))) ∧
    sameOperations st st' ∧ ObjectTypes st' = ObjectTypes st.
Proof.
  unfold getSchemaTypeFromParameter, scalarFromType. conv_unfold.
  intros Hr. conv_cases; eexists; done.
Qed.

(** X11. [getSchemaTypeFromParameter] never returns the error "array item
    is empty": the guard that raises it holds only when [Items] is nil and
    reads [Items.Type] in the same condition. *)
Theorem missing_item_error_is_unreachable (param : V2Parameter)
    (apiPath : string) (fieldPaths : list string) (st s : NDCRestSchema) :
  getSchemaTypeFromParameter options param apiPath fieldPaths st ≠
  Err (errorsNew "array item is empty") s.
Proof.
  unfold getSchemaTypeFromParameter, scalarFromType. conv_unfold.
  intros Hr. conv_cases.
Qed.

Lemma convertParameters_error (before after : list (option V2Parameter))
    (param : option V2Parameter) (acc : paramState) (e : error)
    (apiPath : string) (fieldPaths : list string) (st st1 st2 : NDCRestSchema) :
  forEach (convertParameter options apiPath fieldPaths) before
    (MkParamState ∅ [] None ∅) st = Ok acc st1 →
  convertParameter options apiPath fieldPaths acc param st1 = Err e st2 →
  convertParameters options (before ++ param :: after) apiPath fieldPaths st =
  Err e st2.
Proof.
  intros Hb Hp. unfold convertParameters.
  rewrite bool_decide_eq_false_2 by (rewrite length_app; simpl; lia).
  conv_unfold. by rewrite forEach_app, Hb, forEach_cons, Hp.
Qed.

(** X12. Failures of the parameter converter. Once the parameters before
    it have been converted, a parameter with an empty name aborts the list
    with "parameter name is empty"; a named parameter of type object with
    "unsupported object parameter"; one of any other non-primitive type
    but array with "unsupported schema type"; and one without type and
    schema in an unknown location with the location parser's error. The
    registries are those reached by the parameters before it, and the
    parameters after it are not looked at. *)
Theorem parameter_failures (before after : list (option V2Parameter))
    (param : V2Parameter) (acc : paramState) (apiPath : string)
    (fieldPaths : list string) (st st1 : NDCRestSchema) :
  forEach (convertParameter options apiPath fieldPaths) before
    (MkParamState ∅ [] None ∅) st = Ok acc st1 →
  (param_Name param = "" →
   convertParameters options (before ++ Some param :: after) apiPath
     fieldPaths st = Err (errorsNew "parameter name is empty") st1) ∧
  (param_Name param ≠ "" → param_Type param = "object" →
   isPrimitiveScalar "object" = false →
   convertParameters options (before ++ Some param :: after) apiPath
     fieldPaths st = Err (errorsNew "unsupported object parameter") st1) ∧
  (param_Name param ≠ "" → isPrimitiveScalar (param_Type param) = false →
   param_Type param ≠ "" → param_Type param ≠ "object" →
   param_Type param ≠ "array" →
   convertParameters options (before ++ Some param :: after) apiPath
     fieldPaths st =
   Err (Errorf "unsupported schema type " (param_Type param)) st1) ∧
  (∀ e, param_Name param ≠ "" → param_Type param = "" →
   param_Schema param = None →
   ParseParameterLocation (param_In param) = inl e →
   convertParameters options (before ++ Some param :: after) apiPath
     fieldPaths st = Err e st1).
Proof.
  intros Hb. split; [|split; [|split]].
  - intros Hn. eapply convertParameters_error; [done|].
    unfold convertParameter. by rewrite decide_True.
  - intros Hn Hty Hprim. eapply convertParameters_error; [done|].
    unfold convertParameter, getSchemaTypeFromParameter. conv_unfold.
    rewrite decide_False by done. rewrite Hty, Hprim. done.
  - intros Hn Hprim Hne Ho Ha. eapply convertParameters_error; [done|].
    unfold convertParameter, getSchemaTypeFromParameter. conv_unfold.
    rewrite decide_False by done. rewrite decide_True by done.
    rewrite Hprim. by rewrite !decide_False by done.
  - intros e Hn Hty Hs Hloc. eapply convertParameters_error; [done|].
    unfold convertParameter. conv_unfold.
    rewrite decide_False by done. rewrite Hty, Hs, Hloc. done.
Qed.

Lemma convertParameter_step (acc acc' : paramState) (p : V2Parameter)
    (apiPath : string) (fieldPaths : list string) (st st' : NDCRestSchema) :
  convertParameter options apiPath fieldPaths acc (Some p) st = Ok acc' st' →
  ∃ loc arg ts,
    ParseParameterLocation (param_In p) = inr loc ∧
    ps_arguments acc' = <[argumentKey p := arg]> (ps_arguments acc) ∧
    ps_reqParams acc' =
    ps_reqParams acc ++
      match requestLocation p with
      | Some l => [MkRequestParameter (param_Name p) l ts]
      | None => []
      end ∧
    ps_requestBody acc' =
    if decide (loc = InBody) then Some (MkRequestBody "" ts)
    else ps_requestBody acc.
Proof.
  unfold convertParameter, argumentKey, requestLocation. conv_unfold.
  intros Hr. conv_cases; eexists _, _, _; (split; [done|]);
    rewrite ?app_nil_r; done.
  Unshelve. all: exact None.
Qed.

Lemma isBodyParameter_cases (p : V2Parameter) :
  isBodyParameter p ∨ ¬ isBodyParameter p.
Proof.
  unfold isBodyParameter.
  destruct (ParseParameterLocation (param_In p)) as [e|[]]; auto; right; done.
Qed.

Lemma body_parameter_cases (l : list (option V2Parameter)) :
  (∃ q, Some q ∈ l ∧ isBodyParameter q) ∨
  (∀ q, Some q ∈ l → ¬ isBodyParameter q).
Proof.
  induction l as [|[p|] l [(q & Hq & Hb)|IH]].
  - right. intros q Hq. by apply elem_of_nil in Hq.
  - left. exists q. split; [by right|done].
  - destruct (isBodyParameter_cases p) as [Hp|Hp].
    + left. exists p. split; [by left|done].
    + right. intros q [[= ->]|Hq]%elem_of_cons; [done|by apply IH].
  - left. exists q. split; [by right|done].
  - right. intros q [?|Hq]%elem_of_cons; [done|by apply IH].
Qed.

Lemma forEach_parameters (l : list (option V2Parameter))
    (acc acc' : paramState) (apiPath : string) (fieldPaths : list string)
    (st st' : NDCRestSchema) :
  forEach (convertParameter options apiPath fieldPaths) l acc st = Ok acc' st' →
  (λ rp, (rp_Name rp, rp_In rp)) <$> ps_reqParams acc' =
  ((λ rp, (rp_Name rp, rp_In rp)) <$> ps_reqParams acc) ++
    omap (λ p, pair (param_Name p) <$> requestLocation p) (omap id l) ∧
  dom (ps_arguments acc') =
  dom (ps_arguments acc) ∪ list_to_set (argumentKey <$> omap id l) ∧
  ((∀ p, Some p ∈ l → ¬ isBodyParameter p) →
   ps_requestBody acc' = ps_requestBody acc) ∧
  ((∃ p, Some p ∈ l ∧ isBodyParameter p) →
   ∃ ts, ps_requestBody acc' = Some (MkRequestBody "" ts)).
Proof.
  revert acc st. induction l as [|x l IH]; intros acc st Hr.
  - injection Hr as <- _. simpl. rewrite app_nil_r.
    split; [done|]. split; [by rewrite (right_id_L ∅ (∪))|]. split; [done|].
    intros (p & Hin & _). by apply elem_of_nil in Hin.
  - rewrite forEach_cons in Hr.
    destruct (convertParameter _ _ _ _ _ _) as [acc1 st1| |] eqn:Hx; try done.
    destruct (IH _ _ Hr) as (Hrp & Hdom & Hnobody & Hbody). clear IH Hr.
    destruct x as [p|]; cycle 1.
    { rewrite convertParameter_nil in Hx. injection Hx as <- _. simpl.
      split; [done|]. split; [done|]. split.
      - intros Hno. apply Hnobody. intros q Hq. apply Hno. by right.
      - intros (q & [?|Hq]%elem_of_cons & Hb); [done|]. apply Hbody. eauto. }
    destruct (convertParameter_step _ _ _ _ _ _ _ Hx)
      as (loc & arg & ts & Hloc & Hargs & Hreq & Hrb).
    simpl. split; [|split; [|split]].
    + rewrite Hrp, Hreq, fmap_app, <- app_assoc. f_equal.
      by destruct (requestLocation p).
    + rewrite Hdom, Hargs, dom_insert_L.
      by rewrite (comm_L (∪) {[argumentKey p]}), <- (assoc_L (∪)).
    + intros Hno. rewrite Hnobody by (intros q Hq; apply Hno; by right).
      rewrite Hrb. rewrite decide_False; [done|].
      intros ->. apply (Hno p); [by left|done].
    + intros (q & Hq & Hb).
      destruct (body_parameter_cases l) as [Hl|Hl]; [by apply Hbody|].
      rewrite Hnobody by done.
      apply elem_of_cons in Hq as [[= <-]|Hq]; [|by destruct (Hl q)].
      unfold isBodyParameter in Hb. rewrite Hb in Hloc.
      injection Hloc as <-. rewrite Hrb. rewrite decide_True by done. eauto.
Qed.

Lemma convertParameters_loop (params : list (option V2Parameter))
    (apiPath : string) (fieldPaths : list string) (st st' : NDCRestSchema)
    (arguments : gmap string ArgumentInfo)
    (reqParams : list RequestParameter) (body : option RequestBody) :
  convertParameters options params apiPath fieldPaths st =
  Ok (arguments, reqParams, body) st' →
  ∃ acc,
    forEach (convertParameter options apiPath fieldPaths) params
      (MkParamState ∅ [] None ∅) st = Ok acc st' ∧
    arguments = ps_arguments acc ∧ reqParams = ps_reqParams acc ∧
    body = if bool_decide (0 < size (ps_formData acc))
           then Some (MkRequestBody ContentTypeMultipartFormData
                        (Some (formDataSchema (ps_formData acc))))
           else ps_requestBody acc.
Proof.
  unfold convertParameters. conv_unfold. intros Hr.
  destruct params as [|x params].
  - injection Hr as <- <- <- <-. by eexists.
  - rewrite (bool_decide_eq_false_2 (length (x :: params) = 0)) in Hr by done.
    destruct (forEach _ _ _ _) as [acc s1| |]; try done.
    injection Hr as <- <- <- <-. by eexists.
Qed.

(** X13. When a parameter list converts, the request parameters are, in
    declaration order, the non-nil parameters that are neither in the body
    nor form data, each under its own name and parsed location. *)
Theorem request_parameters_keep_declaration_order
    (params : list (option V2Parameter)) (apiPath : string)
    (fieldPaths : list string) (st st' : NDCRestSchema)
    (arguments : gmap string ArgumentInfo)
    (reqParams : list RequestParameter) (body : option RequestBody) :
  convertParameters options params apiPath fieldPaths st =
  Ok (arguments, reqParams, body) st' →
  (λ rp, (rp_Name rp, rp_In rp)) <$> reqParams =
  omap (λ p, pair (param_Name p) <$> requestLocation p) (omap id params).
Proof.
  intros (acc & Hloop & _ & -> & _)%convertParameters_loop.
  by destruct (forEach_parameters _ _ _ _ _ _ _ Hloop) as (-> & _).
Qed.

(** X14. When a parameter list converts, the keys of the argument map are
    the names of the non-nil parameters, except that every body parameter
    is stored under the key "body". *)
Theorem argument_keys (params : list (option V2Parameter)) (apiPath : string)
    (fieldPaths : list string) (st st' : NDCRestSchema)
    (arguments : gmap string ArgumentInfo)
    (reqParams : list RequestParameter) (body : option RequestBody) :
  convertParameters options params apiPath fieldPaths st =
  Ok (arguments, reqParams, body) st' →
  dom arguments = list_to_set (argumentKey <$> omap id params).
Proof.
  intros (acc & Hloop & -> & _)%convertParameters_loop.
  destruct (forEach_parameters _ _ _ _ _ _ _ Hloop) as (_ & -> & _).
  simpl. by rewrite dom_empty_L, (left_id_L ∅ (∪)).
Qed.

Lemma convertParameters_body (params : list (option V2Parameter))
    (apiPath : string) (fieldPaths : list string) (st st' : NDCRestSchema)
    (arguments : gmap string ArgumentInfo)
    (reqParams : list RequestParameter) (body : option RequestBody) :
  convertParameters options params apiPath fieldPaths st =
  Ok (arguments, reqParams, body) st' →
  (∀ p, Some p ∈ params → ¬ isFormData p) →
  (is_Some body ↔ ∃ p, Some p ∈ params ∧ isBodyParameter p) ∧
  (∀ b, body = Some b → rb_ContentType b = "").
Proof.
  intros (acc & Hloop & _ & _ & ->)%convertParameters_loop Hnoform.
  assert (Hempty : ps_formData acc = ∅).
  { apply map_eq. intros k. rewrite lookup_empty.
    apply eq_None_not_Some.
    rewrite (forEach_formData_dom options _ _ _ _ _ _ _ k Hloop). simpl.
    rewrite lookup_empty. intros [[? ?]|(p & Hin & Hf & _)]; [done|].
    by apply (Hnoform p). }
  rewrite Hempty, map_size_empty.
  rewrite bool_decide_eq_false_2 by lia.
  destruct (forEach_parameters _ _ _ _ _ _ _ Hloop)
    as (_ & _ & Hnobody & Hbody).
  destruct (body_parameter_cases params) as [Hex|Hno].
  - destruct (Hbody Hex) as [ts ->]. split; [|by intros b [= <-]].
    split; [done|eauto].
  - rewrite (Hnobody Hno). simpl. split; [|done].
    split; [by intros []|]. intros (p & Hin & Hb). by destruct (Hno p).
Qed.

(** X15. When a parameter list without form-data parameters converts, a
    request body is returned exactly when some parameter is in the body,
    and its content type is left empty. *)
Theorem body_parameter_request_body (params : list (option V2Parameter))
    (apiPath : string) (fieldPaths : list string) (st st' : NDCRestSchema)
    (arguments : gmap string ArgumentInfo)
    (reqParams : list RequestParameter) (body : option RequestBody) :
  convertParameters options params apiPath fieldPaths st =
  Ok (arguments, reqParams, body) st' →
  (∀ p, Some p ∈ params → ¬ isFormData p) →
  (is_Some body ↔ ∃ p, Some p ∈ params ∧ isBodyParameter p) ∧
  (∀ b, body = Some b → rb_ContentType b = "").
Proof. apply convertParameters_body. Qed.

End ParameterProperties.

(** ** Further properties of the operation mapper *)

Section OperationProperties.

Context `{Collaborators}.
Variable options : ConvertOptions.

Lemma convertProcedureOperation_inv (pathKey method : string) (op : Operation)
    (st st' : NDCRestSchema) (proc : RESTProcedureInfo) :
  convertProcedureOperation options pathKey method (Some op) st =
  Ok (Some proc) st' →
  ∃ t st1 arguments reqParams body,
    convertResponse options (op_Responses op) pathKey
      [operationName options (op_OperationId op) pathKey method; "Result"] st =
    Ok (Some t) st1 ∧
    convertParameters options (op_Parameters op) pathKey
      [operationName options (op_OperationId op) pathKey method] st1 =
    Ok (arguments, reqParams, body) st' ∧
    proc =
    MkRESTProcedureInfo
      (MkRequest pathKey method reqParams
         (match body with
          | Some b =>
            if bool_decide (0 < length (op_Consumes op)) then
              Some (MkRequestBody
                      (if negb (slices_Contains (op_Consumes op) ContentTypeJSON)
                       then default ContentTypeJSON (head (op_Consumes op))
                       else ContentTypeJSON)
                      (rb_Schema b))
            else Some b
          | None => None
          end)
         (convertSecurities (op_Security op)))
      (operationName options (op_OperationId op) pathKey method) arguments t
      (nonEmpty (op_Summary op)).
Proof.
  unfold convertProcedureOperation. conv_unfold. intros Hr.
  destruct (convertResponse _ _ _ _ _) as [[t|] s1| |] eqn:Hres; try done.
  destruct (convertParameters _ _ _ _ _) as [[[args rps] body] s2| |] eqn:Hp;
    try done.
  simpl in Hr. injection Hr as <- <-. by eexists _, _, _, _, _.
Qed.

(** X16. A procedure that [convertProcedureOperation] returns is built
    from the operation's parts: its result type is what the response
    resolver returns under the field path [name; "Result"], its arguments
    and request parameters are what the parameter converter returns under
    [name], its URL is the path key and its method the given method, its
    description is the operation's summary (none when empty), and its name
    is the operation id when there is one and the name built from path and
    method otherwise. *)
Theorem procedure_is_assembled_from_its_parts (pathKey method : string)
    (op : Operation) (st st' : NDCRestSchema) (proc : RESTProcedureInfo) :
  convertProcedureOperation options pathKey method (Some op) st =
  Ok (Some proc) st' →
  ∃ t st1 arguments reqParams body,
    convertResponse options (op_Responses op) pathKey
      [proc_Name proc; "Result"] st = Ok (Some t) st1 ∧
    convertParameters options (op_Parameters op) pathKey [proc_Name proc] st1 =
    Ok (arguments, reqParams, body) st' ∧
    proc_ResultType proc = t ∧ proc_Arguments proc = arguments ∧
    req_Parameters (proc_Request proc) = reqParams ∧
    req_URL (proc_Request proc) = pathKey ∧
    req_Method (proc_Request proc) = method ∧
    proc_Description proc = nonEmpty (op_Summary op) ∧
    (op_OperationId op ≠ "" → proc_Name proc = op_OperationId op) ∧
    (op_OperationId op = "" →
     proc_Name proc = buildPathMethodName pathKey method options).
Proof.
  intros (t & st1 & args & rps & body & Hres & Hp & ->)%convertProcedureOperation_inv.
  exists t, st1, args, rps, body. simpl.
  split; [done|]. split; [done|]. repeat (split; [done|]).
  unfold operationName. split; intros Hid.
  - by rewrite decide_False.
  - by rewrite decide_True.
Qed.

(** X17. A procedure whose operation declares no consumable media type and
    has no form-data parameter carries a request body only when some
    parameter is in the body, and that body has an empty content type. *)
Theorem body_parameter_without_consumes (pathKey method : string)
    (op : Operation) (st st' : NDCRestSchema) (proc : RESTProcedureInfo)
    (b : RequestBody) :
  convertProcedureOperation options pathKey method (Some op) st =
  Ok (Some proc) st' →
  op_Consumes op = [] →
  (∀ p, Some p ∈ op_Parameters op → ¬ isFormData p) →
  req_RequestBody (proc_Request proc) = Some b →
  rb_ContentType b = "" ∧ ∃ p, Some p ∈ op_Parameters op ∧ isBodyParameter p.
Proof.
  intros (t & st1 & args & rps & body & Hres & Hp & ->)%convertProcedureOperation_inv
    Hcons Hnoform. simpl. rewrite Hcons. simpl.
  destruct (convertParameters_body options _ _ _ _ _ _ _ _ Hp Hnoform)
    as [Hsome Hct].
  destruct body as [b0|]; [|done]. intros [= <-].
  split; [by apply Hct|]. apply Hsome. eauto.
Qed.




End OperationProperties.

(** ** Security schemes *)

Section SecurityProperties.

Context `{Collaborators} `{SettingsCollaborators}.
Variable options : ConvertOptions.

Lemma copyScopes_from (scopes : list (string * string))
    (m0 : gmap string string) :
  let m := foldl (λ m scope, <[scope.1 := scope.2]> m) m0 scopes in
  dom m = dom m0 ∪ list_to_set scopes.*1 ∧
  ∀ k v, m !! k = Some v → (k, v) ∈ scopes ∨ m0 !! k = Some v.
Proof.
  revert m0. induction scopes as [|[k0 v0] scopes IH]; intros m0; simpl.
  - split; [by rewrite (right_id_L ∅ (∪))|]. by right.
  - destruct (IH (<[k0:=v0]> m0)) as [Hd Hl]. split.
    + rewrite Hd, dom_insert_L.
      by rewrite (comm_L (∪) {[k0]} (dom m0)), <-(assoc_L (∪)).
    + intros k v Hk. destruct (Hl k v Hk) as [Hin|Hin].
      * left. by apply list_elem_of_further.
      * destruct (decide (k = k0)) as [->|Hne].
        -- rewrite lookup_insert_eq in Hin. simplify_eq.
           left. apply list_elem_of_here.
        -- rewrite lookup_insert_ne in Hin by done. by right.
Qed.

(** X19. Failures of the security converter. A nil scheme is skipped and
    the map is left as it was; a scheme whose type is none of apiKey, basic
    and oauth2 gives "invalid security scheme" with the type; an apiKey
    scheme whose location is refused by the location parser gives the
    parser's error. A failure is reported before the map is written, also
    when the map is nil. *)
Lemma security_scheme_failures (key : string) (security : V2SecurityScheme)
    (schemes : option (gmap string SecurityScheme)) :
  convertSecuritySchemes options (key, None) schemes = Done schemes ∧
  (sec_Type security ∉ ["apiKey"; "basic"; "oauth2"] →
   convertSecuritySchemes options (key, Some security) schemes =
   Failed (Errorf "invalid security scheme: " (sec_Type security))) ∧
  (∀ err, sec_Type security = "apiKey" →
          ParseAPIKeyLocation (sec_In security) = inl err →
          convertSecuritySchemes options (key, Some security) schemes =
          Failed err).
Proof.
  split; [done|]. split.
  - intros Hin. rewrite !elem_of_cons, elem_of_nil in Hin.
    unfold convertSecuritySchemes, securitySchemeOf. simpl.
    rewrite !decide_False by tauto. done.
  - intros err Ht He.
    unfold convertSecuritySchemes, securitySchemeOf. simpl.
    rewrite decide_True by done. by rewrite He.
Qed.

(** X20. When a scheme converts, it is stored under its key, replacing an
    entry of the same key and leaving all others. An apiKey scheme has the
    API-key kind, the environment placeholder named from the prefix and the
    key, and the API-key configuration with the parsed location and the
    declared name; a basic scheme has the placeholder named from prefix,
    key and TOKEN and the fixed Basic scheme over the Authorization header,
    and its kind is left unset; an oauth2 scheme has the OAuth2 kind, an
    empty value and an OAuth2 configuration. Only the configuration of the
    declared type is set. *)
Lemma security_scheme_entry (key : string) (security : V2SecurityScheme)
    (m : gmap string SecurityScheme)
    (r : option (gmap string SecurityScheme)) :
  convertSecuritySchemes options (key, Some security) (Some m) = Done r →
  ∃ m' result,
    r = Some m' ∧ m' !! key = Some result ∧
    (∀ k, k ≠ key → m' !! k = m !! k) ∧
    (sec_Type security = "apiKey" →
     ss_Type result = Some APIKeyScheme ∧
     ss_Value result =
     EnvTemplateString (StringSliceToConstantCase [EnvPrefix options; key]) ∧
     (∃ inLocation,
        ParseAPIKeyLocation (sec_In security) = inr inLocation ∧
        ss_APIKeyAuthConfig result =
        Some (MkAPIKeyAuthConfig inLocation (sec_Name security))) ∧
     ss_HTTPAuthConfig result = None ∧ ss_OAuth2Config result = None) ∧
    (sec_Type security = "basic" →
     ss_Type result = None ∧
     ss_Value result =
     EnvTemplateString
       (StringSliceToConstantCase [EnvPrefix options; key; "TOKEN"]) ∧
     ss_HTTPAuthConfig result = Some (MkHTTPAuthConfig "Basic" "Authorization") ∧
     ss_APIKeyAuthConfig result = None ∧ ss_OAuth2Config result = None) ∧
    (sec_Type security = "oauth2" →
     ss_Type result = Some OAuth2Scheme ∧ ss_Value result = "" ∧
     is_Some (ss_OAuth2Config result) ∧
     ss_APIKeyAuthConfig result = None ∧ ss_HTTPAuthConfig result = None).
Proof.
  unfold convertSecuritySchemes, securitySchemeOf. simpl. intros Hr.
  destruct (decide (sec_Type security = "apiKey")) as [E1|N1].
  { destruct (ParseAPIKeyLocation _) as [err|loc] eqn:Hloc; [done|].
    simplify_eq. eexists _, _. split; [done|].
    split; [by rewrite lookup_insert_eq|].
    split; [by intros k Hk; rewrite lookup_insert_ne|].
    rewrite E1. split; [|by split].
    intros _. simpl. split; [done|]. split; [done|]. split; [|done]. eauto. }
  destruct (decide (sec_Type security = "basic")) as [E2|N2].
  { simplify_eq. eexists _, _. split; [done|].
    split; [by rewrite lookup_insert_eq|].
    split; [by intros k Hk; rewrite lookup_insert_ne|].
    rewrite E2. by split; [|split]. }
  destruct (decide (sec_Type security = "oauth2")) as [E3|N3]; [|done].
  simplify_eq. eexists _, _. split; [done|].
  split; [by rewrite lookup_insert_eq|].
  split; [by intros k Hk; rewrite lookup_insert_ne|].
  rewrite E3. split; [done|]. split; [done|]. intros _. simpl. eauto 10.
Qed.

(** X21. An oauth2 scheme always converts. Its configuration holds
    exactly one flow, stored under the kind of the declared flow:
    accessCode is the authorization-code flow, implicit, password and
    application the implicit, password and client-credentials flows, and
    any other flow name is stored under the unset kind without an error.
    The flow carries the authorization and token URLs; its scopes are
    absent exactly when the scheme declares none, and otherwise their
    names are the declared names, each with a declared description. *)
Lemma oauth2_flow (key : string) (security : V2SecurityScheme)
    (m : gmap string SecurityScheme) :
  sec_Type security = "oauth2" →
  ∃ m' result config flow,
    convertSecuritySchemes options (key, Some security) (Some m) =
    Done (Some m') ∧
    m' !! key = Some result ∧ ss_OAuth2Config result = Some config ∧
    (∀ kind, oauth_Flows config !! kind = Some flow ↔
       kind =
       (if decide (sec_Flow security = "accessCode") then
          Some AuthorizationCodeFlow
        else if decide (sec_Flow security = "implicit") then Some ImplicitFlow
        else if decide (sec_Flow security = "password") then Some PasswordFlow
        else if decide (sec_Flow security = "application") then
          Some ClientCredentialsFlow
        else None)) ∧
    size (oauth_Flows config) = 1 ∧
    flow_AuthorizationURL flow = sec_AuthorizationUrl security ∧
    flow_TokenURL flow = sec_TokenUrl security ∧
    (flow_Scopes flow = None ↔ sec_Scopes security = None) ∧
    (∀ scopes, sec_Scopes security = Some scopes →
       ∃ names, flow_Scopes flow = Some names ∧
                dom names = list_to_set scopes.*1 ∧
                ∀ k v, names !! k = Some v → (k, v) ∈ scopes).
Proof.
  intros Ht. unfold convertSecuritySchemes, securitySchemeOf. simpl.
  rewrite Ht. simpl.
  eexists _, _, _, _. split; [done|].
  split; [by rewrite lookup_insert_eq|]. split; [done|]. simpl.
  split.
  { intros kind. fold (oauthFlowType (sec_Flow security)).
    rewrite lookup_singleton_Some.
    split; [by intros [<- _]|by intros <-]. }
  split; [by rewrite map_size_singleton|].
  split; [done|]. split; [done|]. split.
  { by destruct (sec_Scopes security). }
  intros scopes ->. simpl. eexists. split; [done|].
  destruct (copyScopes_from scopes ∅) as [Hd Hl]. split.
  - unfold copyScopes. rewrite Hd, dom_empty_L. by rewrite (left_id_L ∅ (∪)).
  - intros k v Hk. destruct (Hl k v Hk) as [?|Hn]; [done|].
    by rewrite lookup_empty in Hn.
Qed.

Lemma security_scheme_entry_dom (key : string) (security : V2SecurityScheme)
    (m : gmap string SecurityScheme)
    (r : option (gmap string SecurityScheme)) :
  convertSecuritySchemes options (key, Some security) (Some m) = Done r →
  ∃ m', r = Some m' ∧ dom m' = {[key]} ∪ dom m ∧
        sec_Type security ∈ ["apiKey"; "basic"; "oauth2"].
Proof.
  unfold convertSecuritySchemes. simpl. intros Hr.
  destruct (securitySchemeOf _ _ _) as [result| |] eqn:Hs; try done.
  simplify_eq. eexists. split; [done|]. split; [by rewrite dom_insert_L|].
  unfold securitySchemeOf in Hs. rewrite !elem_of_cons.
  repeat case_match; simplify_eq; auto.
Qed.

Lemma convertAllSecuritySchemes_dom
    (definitions : list (string * option V2SecurityScheme))
    (m : gmap string SecurityScheme)
    (r : option (gmap string SecurityScheme)) :
  convertAllSecuritySchemes options definitions (Some m) = Done r →
  ∃ m', r = Some m' ∧
        dom m' = dom m ∪ list_to_set (declaredSchemes definitions) ∧
        ∀ key security, (key, Some security) ∈ definitions →
                        sec_Type security ∈ ["apiKey"; "basic"; "oauth2"].
Proof.
  revert m. induction definitions as [|[key security] definitions IH];
    intros m; simpl.
  - intros [= <-]. exists m. split; [done|].
    split; [by rewrite (right_id_L ∅ (∪))|].
    intros ?? Hin. by apply elem_of_nil in Hin.
  - destruct security as [security|]; cycle 1.
    { unfold convertSecuritySchemes. simpl. intros Hr.
      destruct (IH _ Hr) as (m' & -> & Hd & Hs).
      exists m'. split; [done|]. split; [done|].
      intros k sec Hin. apply elem_of_cons in Hin as [[=]|Hin]. eauto. }
    destruct (convertSecuritySchemes _ _ _) as [schemes'| |] eqn:Hc; try done.
    destruct (security_scheme_entry_dom _ _ _ _ Hc) as (m1 & -> & Hd & Ht).
    intros Hr. destruct (IH _ Hr) as (m' & -> & Hd' & Hs).
    exists m'. split; [done|]. split.
    + rewrite Hd', Hd. unfold declaredSchemes. simpl.
      by rewrite (comm_L (∪) {[key]} (dom m)), <-(assoc_L (∪)).
    + intros k sec Hin. apply elem_of_cons in Hin as [[= -> ->]|Hin]; eauto.
Qed.

End SecurityProperties.

(** ** The document walker *)

Section WalkerProperties.

Context `{Collaborators} `{SettingsCollaborators}.
Variable options : ConvertOptions.

Lemma OpenAPIv2ToNDCSchema_converted (errs : list error) (doc : Swagger)
    (s : NDCRestSchema) (settings : NDCRestSettings) :
  OpenAPIv2ToNDCSchema options errs (Some doc) = Converted s settings →
  ∃ st1 schemes,
    pathItemsOf doc ≠ [] ∧
    forEach (λ _ pathItem, pathToNDCOperations options pathItem)
      (pathItemsOf doc) tt NewNDCRestSchema = Ok tt st1 ∧
    forEach (λ _ schemaItem, convertComponentSchemas options schemaItem)
      (default [] (sw_Definitions doc)) tt st1 = Ok tt s ∧
    match sw_SecurityDefinitions doc with
    | Some (Some definitions) =>
      convertAllSecuritySchemes options definitions (Some ∅)
    | _ => Done None
    end = Done schemes ∧
    settings =
    MkNDCRestSettings (default "" (sw_Info doc)) (serverConfigs options doc)
      schemes (convertSecurities (sw_Security doc)).
Proof.
  unfold OpenAPIv2ToNDCSchema, pathItemsOf. intros Hr.
  destruct (sw_Paths doc) as [[[|item items]|]|]; try done.
  destruct (forEach _ (item :: items) _ _) as [[] st1| |] eqn:H1; try done.
  destruct (forEach _ (default [] _) _ _) as [[] st2| |] eqn:H2; try done.
  match type of Hr with
  | match ?x with _ => _ end = _ => destruct x as [schemes| |] eqn:H3
  end; try done.
  injection Hr as <- <-. by exists st1, schemes.
Qed.

(** X23. When no document model was built and the build reported errors,
    these errors are returned as they are. A document without path items
    is rejected with the build errors followed by "there is no API to be
    converted", before anything else of the document is looked at. *)
Lemma no_api_to_convert (errs : list error) (doc : Swagger) :
  (errs ≠ [] → OpenAPIv2ToNDCSchema options errs None = Rejected errs) ∧
  (pathItemsOf doc = [] →
   OpenAPIv2ToNDCSchema options errs (Some doc) =
   Rejected (errs ++ [errorsNew "there is no API to be converted"])).
Proof.
  split.
  - intros Hne. simpl. rewrite bool_decide_eq_true_2; [done|].
    destruct errs; [done|simpl; lia].
  - unfold pathItemsOf, OpenAPIv2ToNDCSchema.
    by destruct (sw_Paths doc) as [[[|item items]|]|].
Qed.

(** X24. A rejected conversion never returns an empty error list: without
    a document model the list is the build errors, and with one it is the
    build errors followed by exactly one error. *)
Lemma rejection_reports_errors (errs : list error) (docModel : option Swagger)
    (l : list error) :
  OpenAPIv2ToNDCSchema options errs docModel = Rejected l →
  l ≠ [] ∧
  (docModel = None → l = errs) ∧
  (docModel ≠ None → ∃ e, l = errs ++ [e]).
Proof.
  unfold OpenAPIv2ToNDCSchema. intros Hr.
  assert (Hsnoc : ∀ e, errs ++ [e] ≠ []) by (intros e; by destruct errs).
  destruct docModel as [doc|]; cycle 1.
  { destruct errs; [done|]. simpl in Hr. simplify_eq.
    split; [done|]. split; [done|]. by intros []. }
  assert (∃ e, l = errs ++ [e]) as [e ->].
  { repeat case_match; simplify_eq; eauto. }
  split; [done|]. split; [done|]. eauto.
Qed.

Lemma serverScheme_spec (schemes : list string) :
  (serverScheme schemes = "https" ∧
   Forall (λ s, strings_HasPrefix s "http" = false) schemes) ∨
  ∃ before after,
    schemes = before ++ serverScheme schemes :: after ∧
    strings_HasPrefix (serverScheme schemes) "http" = true ∧
    Forall (λ s, strings_HasPrefix s "http" = false) before.
Proof.
  induction schemes as [|s schemes IH]; [by left|]. simpl.
  destruct (strings_HasPrefix s "http") eqn:Hs.
  - right. by exists [], schemes.
  - destruct IH as [[-> Hall]|(before & after & Heq & Hp & Hall)].
    + left. split; [done|]. by constructor.
    + right. exists (s :: before), after. split; [by rewrite Heq at 1|].
      split; [done|]. by constructor.
Qed.

(** X25. When a document converts, the settings hold no server when the
    host is empty and exactly one otherwise. Its URL is the environment
    template named from the prefix and SERVER_URL, whose default is the
    scheme, "://", the host and the base path; the scheme is the first
    declared scheme that starts with "http", and "https" when there is
    none. *)
Lemma server_url (errs : list error) (doc : Swagger) (s : NDCRestSchema)
    (settings : NDCRestSettings) :
  OpenAPIv2ToNDCSchema options errs (Some doc) = Converted s settings →
  (sw_Host doc = "" → settings_Servers settings = []) ∧
  (sw_Host doc ≠ "" →
   ∃ scheme,
     settings_Servers settings =
     [MkServerConfig
        (EnvTemplateWithDefaultString
           (StringSliceToConstantCase [EnvPrefix options; "SERVER_URL"])
           (scheme +:+ "://" +:+ sw_Host doc +:+ sw_BasePath doc))] ∧
     ((scheme = "https" ∧
       Forall (λ s, strings_HasPrefix s "http" = false) (sw_Schemes doc)) ∨
      ∃ before after,
        sw_Schemes doc = before ++ scheme :: after ∧
        strings_HasPrefix scheme "http" = true ∧
        Forall (λ s, strings_HasPrefix s "http" = false) before)).
Proof.
  intros Hr.
  apply OpenAPIv2ToNDCSchema_converted in Hr
    as (st1 & schemes & _ & _ & _ & _ & ->).
  simpl. unfold serverConfigs. split.
  - intros Hh. by rewrite decide_True.
  - intros Hh. rewrite decide_False by done.
    exists (serverScheme (sw_Schemes doc)). split; [done|].
    apply serverScheme_spec.
Qed.

Lemma convertProcedureOperation_url (pathKey method : string)
    (operation : option Operation) (st st' : NDCRestSchema)
    (proc : RESTProcedureInfo) :
  convertProcedureOperation options pathKey method operation st =
  Ok (Some proc) st' →
  req_URL (proc_Request proc) = pathKey.
Proof.
  unfold convertProcedureOperation. conv_unfold. intros Hr.
  destruct operation as [op|]; [|done].
  destruct (convertResponse _ _ _ _ _) as [[t|] s1| |]; try done.
  destruct (convertParameters _ _ _ _ _) as [[[args rps] body] s2| |];
    try done.
  by simplify_eq/=.
Qed.

Lemma addProcedure_routes (pathKey method : string)
    (operation : option Operation) (st st' : NDCRestSchema) :
  addProcedure options pathKey method operation st = Ok tt st' →
  Functions st' = Functions st ∧
  ∃ ps, Procedures st' = Procedures st ++ ps ∧
        map (λ p, (req_URL (proc_Request p), req_Method (proc_Request p))) ps =
        if resolvable operation then [(pathKey, method)] else [].
Proof.
  unfold addProcedure. conv_unfold. intros Hr.
  destruct (convertProcedureOperation _ _ _ _ _) as [r s1| |] eqn:Hc; try done.
  destruct (convertProcedureOperation_ok _ _ _ _ _ _ _ Hc)
    as ([Hf Hp] & Hgate & Hm).
  destruct r as [proc|]; simplify_eq/=.
  - split; [done|]. exists [proc]. rewrite Hp. split; [done|].
    rewrite (proj1 Hgate) by eauto. simpl.
    by rewrite (Hm proc), (convertProcedureOperation_url _ _ _ _ _ _ Hc).
  - split; [done|]. exists []. rewrite app_nil_r. split; [done|].
    destruct (resolvable operation); [|done].
    by destruct (proj2 Hgate eq_refl).
Qed.

Lemma convertFunctionOperation_routes (pathKey : string) (itemGet : Operation)
    (st st' : NDCRestSchema) :
  convertFunctionOperation options pathKey itemGet st = Ok tt st' →
  Procedures st' = Procedures st ∧
  ∃ fs, Functions st' = Functions st ++ fs ∧
        map (λ f, req_URL (fn_Request f)) fs =
        if resolvable (Some itemGet) then [pathKey] else [].
Proof.
  unfold convertFunctionOperation. conv_unfold. intros Hr.
  destruct (convertResponse _ _ _ _ _) as [res s1| |] eqn:Hres; try done.
  pose proof (convertResponse_sameOperations _ _ _ _ _ _ _ Hres)
    as [Hf1 Hp1].
  pose proof (resolvable_convertResponse _ _ _ _ _ _ _ Hres) as Hgate.
  destruct res as [t|].
  - destruct (convertParameters _ _ _ _ _) as [[[args rps] body] s2| |] eqn:Hp;
      try done.
    pose proof (convertParameters_sameOperations _ _ _ _ _ _ _ Hp)
      as [Hf2 Hp2].
    simplify_eq/=. split; [congruence|]. eexists [_].
    rewrite Hf2, Hf1. split; [done|].
    destruct (negb (declaresNoCode (op_Responses itemGet))); [done|].
    by destruct Hgate as [_ Hg]; specialize (Hg eq_refl).
  - simplify_eq. split; [done|]. exists []. rewrite app_nil_r, Hf1.
    split; [done|]. by rewrite (proj1 Hgate eq_refl).
Qed.

Lemma pathToNDCOperations_routes (pathKey : string) (pathValue : PathItem)
    (st st' : NDCRestSchema) :
  pathToNDCOperations options (pathKey, Some pathValue) st = Ok tt st' →
  ∃ fs ps,
    Functions st' = Functions st ++ fs ∧
    Procedures st' = Procedures st ++ ps ∧
    map (λ f, req_URL (fn_Request f)) fs =
    (if resolvable (pi_Get pathValue) then [pathKey] else []) ∧
    map (λ p, (req_URL (proc_Request p), req_Method (proc_Request p))) ps =
    (λ method, (pathKey, method)) <$>
    List.filter (λ method, resolvable (operationFor pathValue method))
      ["post"; "put"; "patch"; "delete"].
Proof.
  intros Hr. unfold pathToNDCOperations in Hr. conv_unfold. simpl in Hr.
  assert (∃ st0 fs,
            Procedures st0 = Procedures st ∧
            Functions st0 = Functions st ++ fs ∧
            map (λ f, req_URL (fn_Request f)) fs =
            (if resolvable (pi_Get pathValue) then [pathKey] else []) ∧
            match addProcedure options pathKey "post" (pi_Post pathValue) st0 with
            | Ok _ s1 =>
              match addProcedure options pathKey "put" (pi_Put pathValue) s1 with
              | Ok _ s2 =>
                match addProcedure options pathKey "patch"
                        (pi_Patch pathValue) s2 with
                | Ok _ s3 =>
                  addProcedure options pathKey "delete"
                    (pi_Delete pathValue) s3
                | Err e s3 => Err e s3
                | Panic => Panic
                end
              | Err e s2 => Err e s2
              | Panic => Panic
              end
            | Err e s1 => Err e s1
            | Panic => Panic
            end = Ok tt st') as (st0 & fs & Hp0 & Hf0 & Hm0 & Hrest).
  { destruct (pi_Get pathValue) as [itemGet|].
    - destruct (convertFunctionOperation _ _ _ _) as [[] st0| |] eqn:Hg;
        try done.
      destruct (convertFunctionOperation_routes _ _ _ _ Hg)
        as (Hp & fs & Hf & Hm).
      by exists st0, fs.
    - exists st, []. by rewrite app_nil_r. }
  clear Hr.
  destruct (addProcedure _ _ "post" _ _) as [[] s1| |] eqn:H1; try done.
  destruct (addProcedure _ _ "put" _ _) as [[] s2| |] eqn:H2; try done.
  destruct (addProcedure _ _ "patch" _ _) as [[] s3| |] eqn:H3; try done.
  apply addProcedure_routes in H1 as (Hf1 & ps1 & Hp1 & Hm1).
  apply addProcedure_routes in H2 as (Hf2 & ps2 & Hp2 & Hm2).
  apply addProcedure_routes in H3 as (Hf3 & ps3 & Hp3 & Hm3).
  apply addProcedure_routes in Hrest as (Hf4 & ps4 & Hp4 & Hm4).
  exists fs, (ps1 ++ ps2 ++ ps3 ++ ps4).
  split; [congruence|]. split.
  { rewrite Hp4, Hp3, Hp2, Hp1, Hp0. by rewrite <- !app_assoc. }
  split; [done|].
  rewrite procedure_methods, !map_app, ?fmap_app, Hm1, Hm2, Hm3, Hm4.
  by destruct (resolvable (pi_Post pathValue)),
    (resolvable (pi_Put pathValue)), (resolvable (pi_Patch pathValue)),
    (resolvable (pi_Delete pathValue)).
Qed.

Lemma paths_loop_routes (pathItems : list (string * option PathItem))
    (st st' : NDCRestSchema) :
  forEach (λ _ pathItem, pathToNDCOperations options pathItem) pathItems tt st
  = Ok tt st' →
  Forall (λ item, is_Some item.2) pathItems ∧
  map (λ f, req_URL (fn_Request f)) (Functions st') =
  map (λ f, req_URL (fn_Request f)) (Functions st) ++ functionRoutes pathItems ∧
  map (λ p, (req_URL (proc_Request p), req_Method (proc_Request p)))
    (Procedures st') =
  map (λ p, (req_URL (proc_Request p), req_Method (proc_Request p)))
    (Procedures st) ++ procedureRoutes pathItems.
Proof.
  revert st. induction pathItems as [|[pathKey pathValue] items IH]; intros st.
  - intros [= <-]. split; [done|]. by rewrite !app_nil_r.
  - rewrite forEach_cons.
    destruct (pathToNDCOperations _ _ _) as [[] s1| |] eqn:Hp; try done.
    intros Hr. destruct (IH _ Hr) as (Hall & Hf & Hq).
    destruct pathValue as [pathValue|]; [|done].
    destruct (pathToNDCOperations_routes _ _ _ _ Hp)
      as (fs & ps & Hfs & Hps & Hmf & Hmp).
    split; [constructor; [by eexists|done]|].
    assert (functionRoutes ((pathKey, Some pathValue) :: items) =
            (if resolvable (pi_Get pathValue) then [pathKey] else []) ++
            functionRoutes items) as ->.
    { unfold functionRoutes. cbn -[resolvable].
      by destruct (resolvable (pi_Get pathValue)). }
    rewrite Hf, Hq, Hfs, Hps, !map_app, Hmf, Hmp, <-!app_assoc.
    done.
Qed.

(** X26. When a document converts, every path entry holds a path item,
    the functions are, in document order, the paths whose GET has a
    resolvable response, and the procedures are, in document order and
    within a path in the order POST, PUT, PATCH, DELETE, the operations
    with a resolvable response; the component schemas add no operation. *)
Lemma operations_follow_path_order (errs : list error) (doc : Swagger)
    (s : NDCRestSchema) (settings : NDCRestSettings) :
  OpenAPIv2ToNDCSchema options errs (Some doc) = Converted s settings →
  Forall (λ item, is_Some item.2) (pathItemsOf doc) ∧
  map (λ f, req_URL (fn_Request f)) (Functions s) =
  functionRoutes (pathItemsOf doc) ∧
  map (λ p, (req_URL (proc_Request p), req_Method (proc_Request p)))
    (Procedures s) =
  procedureRoutes (pathItemsOf doc).
Proof.
  intros Hr.
  apply OpenAPIv2ToNDCSchema_converted in Hr
    as (st1 & schemes & _ & H1 & H2 & _ & _).
  apply paths_loop_routes in H1 as (Hall & Hf & Hp). simpl in Hf, Hp.
  assert (sameOperations st1 s) as [Ef Ep].
  { eapply (forEach_preserved sameOperations) with (acc := tt);
      [done| |intros x acc st0 s0 _ Hx|by rewrite H2].
    - intros ??? [??] [??]; split; congruence.
    - eapply (convertComponentSchemas_preserved options sameOperations);
        [done| |done|done|exact Hx].
      intros ??? [??] [??]; split; congruence. }
  by rewrite Ef, Ep.
Qed.

(** X22. When a document converts, the security schemes of the settings
    are absent exactly when the document has no security definitions;
    otherwise every definition that holds a scheme has a supported type and
    the keys of the map are exactly the keys of those definitions. *)
Lemma security_schemes_of_document (errs : list error) (doc : Swagger)
    (s : NDCRestSchema) (settings : NDCRestSettings) :
  OpenAPIv2ToNDCSchema options errs (Some doc) = Converted s settings →
  match sw_SecurityDefinitions doc with
  | Some (Some definitions) =>
    ∃ m, settings_SecuritySchemes settings = Some m ∧
         dom m = list_to_set (declaredSchemes definitions) ∧
         ∀ key security, (key, Some security) ∈ definitions →
                         sec_Type security ∈ ["apiKey"; "basic"; "oauth2"]
  | _ => settings_SecuritySchemes settings = None
  end.
Proof.
  intros Hr.
  apply OpenAPIv2ToNDCSchema_converted in Hr
    as (st1 & schemes & _ & _ & _ & H3 & ->).
  simpl. destruct (sw_SecurityDefinitions doc) as [[definitions|]|];
    [|by simplify_eq..].
  destruct (convertAllSecuritySchemes_dom _ _ _ _ H3) as (m & -> & Hd & Hs).
  exists m. split; [done|]. split; [|done].
  by rewrite Hd, dom_empty_L, (left_id_L ∅ (∪)).
Qed.

Lemma components_loop_registers (definitions : list (string * SchemaProxy))
    (st st' : NDCRestSchema) (name : string) (proxy : SchemaProxy)
    (typeSchema : Schema) :
  forEach (λ _ schemaItem, convertComponentSchemas options schemaItem)
    definitions tt st = Ok tt st' →
  (name, proxy) ∈ definitions →
  proxy_Schema proxy = Some typeSchema →
  isObjectNode typeSchema →
  nilOrZero (schema_Properties typeSchema) = false →
  StringSliceToPascalCase [name] ∈ dom (ObjectTypes st').
Proof.
  intros Hr Hin Hs Hobj Hprops. revert st Hr.
  induction definitions as [|item items IH]; intros st Hr.
  { by apply elem_of_nil in Hin. }
  rewrite forEach_cons in Hr.
  destruct (convertComponentSchemas _ _ _) as [[] s1| |] eqn:Hc; try done.
  apply elem_of_cons in Hin as [<-|Hin]; [|by eapply IH].
  assert (StringSliceToPascalCase [name] ∈ dom (ObjectTypes s1)) as Hreg.
  { unfold convertComponentSchemas, getSchemaType in Hc. simpl in Hc.
    rewrite Hs in Hc. destruct Hobj as (Hty & Hobj).
    rewrite Hty in Hc. unfold slices_Contains in Hc.
    rewrite bool_decide_eq_true_2 in Hc by apply list_elem_of_here.
    simpl in Hc. conv_unfold.
    destruct (getSchemaTypeOf _ _ _ _ _) as [[t ts] s2| |] eqn:Hg; try done.
    simplify_eq.
    apply (getSchemaTypeOf_object_properties options) in Hg as [_ Hg];
      [by apply elem_of_dom|done|done]. }
  assert (registryGrows s1 st') as (Hsub & _).
  { eapply (forEach_preserved registryGrows) with (acc := tt);
      [apply registryGrows_refl|apply registryGrows_trans| |by rewrite Hr].
    intros x acc st0 s0 _ Hx.
    eapply (convertComponentSchemas_preserved options registryGrows);
      [apply registryGrows_refl|apply registryGrows_trans| | |exact Hx].
    - intros. done.
    - intros s0' n o. split; [|done]. simpl. rewrite dom_insert_L.
      apply union_subseteq_r. }
  by apply Hsub.
Qed.

(** X27. When a document converts, every definition whose schema is an
    object with properties is registered as an object type under the
    PascalCase of its definition key. *)
Lemma definitions_are_registered (errs : list error) (doc : Swagger)
    (s : NDCRestSchema) (settings : NDCRestSettings) (name : string)
    (proxy : SchemaProxy) (typeSchema : Schema) :
  OpenAPIv2ToNDCSchema options errs (Some doc) = Converted s settings →
  (name, proxy) ∈ default [] (sw_Definitions doc) →
  proxy_Schema proxy = Some typeSchema →
  isObjectNode typeSchema →
  nilOrZero (schema_Properties typeSchema) = false →
  StringSliceToPascalCase [name] ∈ dom (ObjectTypes s).
Proof.
  intros Hr Hin Hs Hobj Hprops.
  apply OpenAPIv2ToNDCSchema_converted in Hr
    as (st1 & schemes & _ & _ & H2 & _ & _).
  by eapply components_loop_registers.
Qed.

End WalkerProperties.

(** ** Worked examples for the resolver, the parameters, the security
    schemes and the walker *)

Module Coverage.

Import Documents Petstore.
#[local] Existing Instance Reference.collaborators.
#[local] Existing Instance ReferenceSettings.collaborators.

Lemma resolver_failures_witness :
  getSchemaType Documents.options (Some untypedSchema) "/pets" ["Pet"]
    NewNDCRestSchema = Err errParameterSchemaEmpty NewNDCRestSchema ∧
  getSchemaType Documents.options (Some (arrayOf (Some None))) "/pets" ["Pet"]
    NewNDCRestSchema = Err (errorsNew "array item is empty") NewNDCRestSchema ∧
  getSchemaType Documents.options
    (Some (arrayOf (Some (Some (MkSchemaProxy "#/parameters/pet" None)))))
    "/pets" ["Pet"] NewNDCRestSchema =
  Err (Errorf "cannot parse type reference name: " "#/parameters/pet")
    NewNDCRestSchema ∧
  getSchemaType Documents.options (Some fileSchema) "/pets" ["Pet"]
    NewNDCRestSchema =
  Err (Errorf "unsupported schema type " "file") NewNDCRestSchema.
Proof.
  destruct (resolver_failures Documents.options "/pets" ["Pet"]
              NewNDCRestSchema) as (_ & _ & _ & H4 & H5 & H6 & H7).
  split; [apply H4; repeat split|].
  split; [apply H5; [repeat split|by right]|].
  split; [apply H6; [repeat split|reflexivity|reflexivity]|].
  apply H7; try reflexivity; discriminate.
Defined.

Lemma json_fallback_witness :
  getSchemaType Documents.options (Some unionSchema) "/pets" ["Pet"]
    NewNDCRestSchema =
  Ok (NamedType "JSON", createSchemaFromOpenAPISchema unionSchema "JSON")
     (setScalarTypes NewNDCRestSchema (<["JSON" := NewScalarType]> ∅)).
Proof.
  apply (json_fallback Documents.options unionSchema "/pets" ["Pet"]
           NewNDCRestSchema).
  right. right. simpl. lia.
Defined.

Lemma references_are_answered_by_name_witness :
  getSchemaTypeFromProxy Documents.options (Some petReference) true "/pets"
    ["Owner"; "pet"] NewNDCRestSchema =
  Ok (NullableType (NamedType "Pet"), ts_withType zeroTypeSchema "pet")
     NewNDCRestSchema ∧
  getSchemaType Documents.options (Some (arrayOf (Some (Some petReference))))
    "/pets" ["Owner"; "pets"] NewNDCRestSchema =
  Ok (ArrayType (NamedType "pet"),
      ts_withType
        (createSchemaFromOpenAPISchema (arrayOf (Some (Some petReference))) "")
        "array")
     NewNDCRestSchema.
Proof.
  destruct (references_are_answered_by_name Documents.options "/pets"
              ["Owner"; "pet"] NewNDCRestSchema) as [H1 _].
  destruct (references_are_answered_by_name Documents.options "/pets"
              ["Owner"; "pets"] NewNDCRestSchema) as [_ H2].
  split.
  - apply (H1 petReference untitledObject true); reflexivity.
  - apply (H2 (arrayOf (Some (Some petReference))) petReference);
      [repeat split|reflexivity|discriminate].
Defined.

Lemma array_of_inline_items_witness :
  getSchemaType Documents.options
    (Some (arrayOf (Some (inline (plainSchema "string" None))))) "/pets"
    ["Pet"; "tags"] NewNDCRestSchema =
  Ok (ArrayType (NamedType "String"),
      ts_withItems
        (ts_withType
           (createSchemaFromOpenAPISchema
              (arrayOf (Some (inline (plainSchema "string" None)))) "")
           "array")
        (stringDescriptor false))
     stringScalars.
Proof.
  rewrite (array_of_inline_items Documents.options
             (arrayOf (Some (inline (plainSchema "string" None))))
             (plainSchema "string" None)
             (MkSchemaProxy "" (Some (plainSchema "string" None)))
             "/pets" ["Pet"; "tags"] NewNDCRestSchema);
    [vm_compute; reflexivity|repeat split|reflexivity..].
Defined.

Lemma object_properties_witness :
  ∃ obj tprops,
    ObjectTypes (resolvedObject "Pet") !! StringSliceToPascalCase ["Pet"] =
    Some obj ∧
    ot_Description obj = nonEmpty (schema_Description untitledObject) ∧
    ts_Type objectDescriptor = "object" ∧
    ts_Properties objectDescriptor = Some tprops ∧
    (∀ k, is_Some (ot_Fields obj !! k) ↔
          k ∈ [("name", inline (plainSchema "string" None))].*1) ∧
    (∀ k, is_Some (tprops !! k) ↔
          k ∈ [("name", inline (plainSchema "string" None))].*1) ∧
    (∀ k d, tprops !! k = Some d →
       ts_Nullable d =
       negb (slices_Contains (schema_Required untitledObject) k)) ∧
    (∀ k f, ot_Fields obj !! k = Some f →
       slices_Contains (schema_Required untitledObject) k = false →
       ∃ u, of_Type f = NullableType u).
Proof.
  apply (object_properties Documents.options untitledObject
           [("name", inline (plainSchema "string" None))] "/pets" ["Pet"]
           NewNDCRestSchema (resolvedObject "Pet") (NamedType "Pet")).
  - repeat split.
  - reflexivity.
  - discriminate.
  - vm_compute. reflexivity.
Defined.

Lemma conversions_leave_operations_witness :
  sameOperations NewNDCRestSchema stringScalars.
Proof.
  apply (proj1 (conversions_leave_operations Documents.options "/pets"
                  ["listPets"; "Result"] NewNDCRestSchema stringScalars)
           (inline (plainSchema "string" None)) false).
  vm_compute. reflexivity.
Defined.

Lemma path_conversion_only_adds_witness :
  registryGrows NewNDCRestSchema petsConverted.
Proof.
  apply (path_conversion_only_adds Documents.options ("/pets", Some petsPath)).
  vm_compute. reflexivity.
Defined.

Lemma primitive_parameter_wrapper_witness :
  ∃ name,
    NullableType (NamedType "Integer") =
    wrapNullable (negb (isTrue (param_Required limitParam)))
      (if isPrimitiveScalar (param_Type limitParam)
       then NewNamedType name
       else NewArrayType (NewNamedType name)) ∧
    nullableDepth (NullableType (NamedType "Integer")) =
    Nat.b2n (negb (isTrue (param_Required limitParam))) ∧
    sameOperations NewNDCRestSchema integerScalars ∧
    ObjectTypes integerScalars = ObjectTypes NewNDCRestSchema.
Proof.
  apply (primitive_parameter_wrapper Documents.options limitParam "/pets"
           ["listPets"]).
  vm_compute. reflexivity.
Defined.

Lemma parameter_failures_witness :
  convertParameters Documents.options
    ([] ++ [Some (primitiveParam "" "query" "string" None); Some limitParam])
    "/pets" ["listPets"] NewNDCRestSchema =
  Err (errorsNew "parameter name is empty") NewNDCRestSchema ∧
  convertParameters Documents.options
    ([] ++ [Some (primitiveParam "filter" "query" "object" None)])
    "/pets" ["listPets"] NewNDCRestSchema =
  Err (errorsNew "unsupported object parameter") NewNDCRestSchema ∧
  convertParameters Documents.options
    ([] ++ [Some (primitiveParam "upload" "query" "file" None)])
    "/pets" ["listPets"] NewNDCRestSchema =
  Err (Errorf "unsupported schema type " "file") NewNDCRestSchema ∧
  convertParameters Documents.options
    ([] ++ [Some (primitiveParam "session" "cookie" "" None)])
    "/pets" ["listPets"] NewNDCRestSchema =
  Err (errLocation "cookie") NewNDCRestSchema.
Proof.
  split; [|split; [|split]].
  - destruct (parameter_failures Documents.options [] [Some limitParam]
                (primitiveParam "" "query" "string" None)
                (MkParamState ∅ [] None ∅) "/pets" ["listPets"]
                NewNDCRestSchema NewNDCRestSchema eq_refl) as (H1 & _).
    apply H1. reflexivity.
  - destruct (parameter_failures Documents.options [] []
                (primitiveParam "filter" "query" "object" None)
                (MkParamState ∅ [] None ∅) "/pets" ["listPets"]
                NewNDCRestSchema NewNDCRestSchema eq_refl) as (_ & H2 & _).
    apply H2; [discriminate|reflexivity..].
  - destruct (parameter_failures Documents.options [] []
                (primitiveParam "upload" "query" "file" None)
                (MkParamState ∅ [] None ∅) "/pets" ["listPets"]
                NewNDCRestSchema NewNDCRestSchema eq_refl) as (_ & _ & H3 & _).
    apply H3; try discriminate; reflexivity.
  - destruct (parameter_failures Documents.options [] []
                (primitiveParam "session" "cookie" "" None)
                (MkParamState ∅ [] None ∅) "/pets" ["listPets"]
                NewNDCRestSchema NewNDCRestSchema eq_refl) as (_ & _ & _ & H4).
    apply H4; try discriminate; reflexivity.
Defined.

Lemma mixedParams_converted :
  ∃ arguments reqParams body st',
    convertParameters Documents.options mixedParams "/pets" ["updatePet"]
      NewNDCRestSchema = Ok (arguments, reqParams, body) st'.
Proof.
  destruct (convertParameters Documents.options mixedParams "/pets"
              ["updatePet"] NewNDCRestSchema)
    as [[[arguments reqParams] body] st'| |] eqn:Hc;
    [by eauto|vm_compute in Hc; discriminate..].
Qed.

Lemma request_parameters_keep_declaration_order_witness :
  ∃ arguments reqParams body st',
    convertParameters Documents.options mixedParams "/pets" ["updatePet"]
      NewNDCRestSchema = Ok (arguments, reqParams, body) st' ∧
    (λ rp, (rp_Name rp, rp_In rp)) <$> reqParams =
    [("limit", InQuery); ("id", InPath)].
Proof.
  destruct mixedParams_converted as (arguments & reqParams & body & st' & Hc).
  exists arguments, reqParams, body, st'. split; [exact Hc|].
  exact (request_parameters_keep_declaration_order Documents.options _ _ _ _
           _ _ _ _ Hc).
Defined.

Lemma argument_keys_witness :
  ∃ arguments reqParams body st',
    convertParameters Documents.options mixedParams "/pets" ["updatePet"]
      NewNDCRestSchema = Ok (arguments, reqParams, body) st' ∧
    dom arguments = list_to_set ["limit"; "body"; "id"].
Proof.
  destruct mixedParams_converted as (arguments & reqParams & body & st' & Hc).
  exists arguments, reqParams, body, st'. split; [exact Hc|].
  exact (argument_keys Documents.options _ _ _ _ _ _ _ _ Hc).
Defined.

Lemma body_parameter_request_body_witness :
  ∃ arguments reqParams body st',
    convertParameters Documents.options mixedParams "/pets" ["updatePet"]
      NewNDCRestSchema = Ok (arguments, reqParams, body) st' ∧
    is_Some body ∧ ∀ b, body = Some b → rb_ContentType b = "".
Proof.
  destruct mixedParams_converted as (arguments & reqParams & body & st' & Hc).
  exists arguments, reqParams, body, st'. split; [exact Hc|].
  destruct (body_parameter_request_body Documents.options _ _ _ _ _ _ _ _ Hc)
    as [Hb Ht].
  - intros p Hin. unfold mixedParams in Hin.
    rewrite !elem_of_cons, elem_of_nil in Hin.
    destruct Hin as [[= ->]|[[=]|[[= ->]|[[= ->]|[]]]]]; discriminate.
  - split; [|exact Ht]. apply Hb. exists bodyParam.
    split; [|reflexivity]. unfold mixedParams. rewrite !elem_of_cons. tauto.
Defined.

Lemma procedure_is_assembled_from_its_parts_witness :
  proc_Name (addPetProcedure "") = "addPet" ∧
  req_URL (proc_Request (addPetProcedure "")) = "/pets" ∧
  req_Method (proc_Request (addPetProcedure "")) = "post" ∧
  proc_Description (addPetProcedure "") = None.
Proof.
  destruct (procedure_is_assembled_from_its_parts Documents.options "/pets"
              "post" (addPet []) NewNDCRestSchema stringScalars
              (addPetProcedure ""))
    as (t & st1 & arguments & reqParams & body & _ & _ & _ & _ & _ & Hu
        & Hm & Hd & Hn & _).
  { vm_compute. reflexivity. }
  split; [apply Hn; discriminate|]. split; [exact Hu|]. split; [exact Hm|].
  exact Hd.
Defined.

Lemma body_parameter_without_consumes_witness :
  rb_ContentType (MkRequestBody "" (Some (stringDescriptor false))) = "" ∧
  ∃ p, Some p ∈ op_Parameters (addPet []) ∧ isBodyParameter p.
Proof.
  apply (body_parameter_without_consumes Documents.options "/pets" "post"
           (addPet []) NewNDCRestSchema stringScalars (addPetProcedure "")).
  - vm_compute. reflexivity.
  - reflexivity.
  - intros p Hin. simpl in Hin. rewrite elem_of_cons, elem_of_nil in Hin.
    destruct Hin as [[= ->]|[]]. discriminate.
  - reflexivity.
Defined.


Lemma security_scheme_failures_witness :
  convertSecuritySchemes Petstore.options ("digestAuth", Some digestAuth) None
  = Failed (Errorf "invalid security scheme: " "digest") ∧
  convertSecuritySchemes Petstore.options ("bodyKeyAuth", Some bodyKeyAuth)
    (Some ∅) = Failed (Errorf "invalid api key location: " "body").
Proof.
  split.
  - destruct (security_scheme_failures Petstore.options "digestAuth"
                digestAuth None) as (_ & H2 & _).
    apply H2. simpl. rewrite !elem_of_cons, elem_of_nil.
    intros [?|[?|[?|[]]]]; discriminate.
  - destruct (security_scheme_failures Petstore.options "bodyKeyAuth"
                bodyKeyAuth (Some ∅)) as (_ & _ & H3).
    apply H3; reflexivity.
Defined.

Lemma security_scheme_entry_witness :
  ∃ m' result,
    convertSecuritySchemes Petstore.options ("apiKeyAuth", Some apiKeyAuth)
      (Some ∅) = Done (Some m') ∧
    m' !! "apiKeyAuth" = Some result ∧
    ss_Value result = "{{MYAPI_APIKEYAUTH}}" ∧
    ss_APIKeyAuthConfig result =
    Some (MkAPIKeyAuthConfig "header" "X-API-Key").
Proof.
  assert (convertSecuritySchemes Petstore.options
            ("apiKeyAuth", Some apiKeyAuth) (Some ∅) =
          Done
            (Some
               (<["apiKeyAuth" :=
                    MkSecurityScheme (Some APIKeyScheme) "{{MYAPI_APIKEYAUTH}}"
                      (Some (MkAPIKeyAuthConfig "header" "X-API-Key"))
                      None None]> ∅))) as Hc
    by (vm_compute; reflexivity).
  destruct (security_scheme_entry Petstore.options "apiKeyAuth" apiKeyAuth ∅
              _ Hc) as (m' & result & Hr & Hl & _ & Hk & _).
  exists m', result. split; [by rewrite Hc, Hr|]. split; [exact Hl|].
  destruct (Hk eq_refl) as (_ & Hv & (loc & Hloc & Hcfg) & _).
  split; [exact Hv|]. rewrite Hcfg. by injection Hloc as <-.
Defined.

Lemma oauth2_flow_witness :
  ∃ m' result config flow names,
    convertSecuritySchemes Petstore.options
      ("petstoreAuth", Some petstoreAuth) (Some ∅) = Done (Some m') ∧
    m' !! "petstoreAuth" = Some result ∧
    ss_OAuth2Config result = Some config ∧
    oauth_Flows config !! Some AuthorizationCodeFlow = Some flow ∧
    flow_TokenURL flow = "https://petstore.example.com/token" ∧
    flow_Scopes flow = Some names ∧
    dom names = list_to_set ["read:pets"; "write:pets"].
Proof.
  destruct (oauth2_flow Petstore.options "petstoreAuth" petstoreAuth ∅
              eq_refl)
    as (m' & result & config & flow & Hc & Hl & Hcfg & Hkind & _ & _ & Htok
        & _ & Hscopes).
  destruct (Hscopes _ eq_refl) as (names & Hn & Hd & _).
  exists m', result, config, flow, names.
  split; [exact Hc|]. split; [exact Hl|]. split; [exact Hcfg|].
  split; [by apply Hkind|]. split; [exact Htok|]. split; [exact Hn|exact Hd].
Defined.

Lemma petstore_converts :
  ∃ s settings,
    OpenAPIv2ToNDCSchema Petstore.options [] (Some petstore) =
    Converted s settings.
Proof.
  destruct (OpenAPIv2ToNDCSchema Petstore.options [] (Some petstore))
    as [s settings|l|] eqn:Hc;
    [by eauto|vm_compute in Hc; discriminate..].
Qed.

Lemma security_schemes_of_document_witness :
  ∃ s settings m,
    OpenAPIv2ToNDCSchema Petstore.options [] (Some petstore) =
    Converted s settings ∧
    settings_SecuritySchemes settings = Some m ∧
    dom m = list_to_set ["apiKeyAuth"; "basicAuth"].
Proof.
  destruct petstore_converts as (s & settings & Hc).
  destruct (security_schemes_of_document Petstore.options _ _ _ _ Hc)
    as (m & Hm & Hd & _).
  by exists s, settings, m.
Defined.

Lemma no_api_to_convert_witness :
  OpenAPIv2ToNDCSchema Petstore.options [errorsNew "unknown host"] None =
  Rejected [errorsNew "unknown host"] ∧
  OpenAPIv2ToNDCSchema Petstore.options [] (Some withoutPaths) =
  Rejected [errorsNew "there is no API to be converted"].
Proof.
  split.
  - apply (proj1 (no_api_to_convert Petstore.options
                    [errorsNew "unknown host"] withoutPaths)).
    discriminate.
  - apply (proj2 (no_api_to_convert Petstore.options [] withoutPaths)).
    reflexivity.
Defined.

Lemma rejection_reports_errors_witness :
  [errorsNew "unknown host"; errorsNew "there is no API to be converted"] ≠ []
  ∧ ∃ e,
      [errorsNew "unknown host"; errorsNew "there is no API to be converted"]
      = [errorsNew "unknown host"] ++ [e].
Proof.
  destruct (rejection_reports_errors Petstore.options
              [errorsNew "unknown host"] (Some withoutPaths)
              [errorsNew "unknown host";
               errorsNew "there is no API to be converted"] eq_refl)
    as (H1 & _ & H3).
  split; [exact H1|]. apply H3. discriminate.
Defined.

Lemma server_url_witness :
  ∃ s settings,
    OpenAPIv2ToNDCSchema Petstore.options [] (Some petstore) =
    Converted s settings ∧
    settings_Servers settings =
    [MkServerConfig "{{MYAPI_SERVER_URL:-http://petstore.example.com/v2}}"].
Proof.
  destruct petstore_converts as (s & settings & Hc).
  exists s, settings. split; [exact Hc|].
  destruct (server_url Petstore.options _ _ _ _ Hc) as [_ Hs].
  destruct Hs as (scheme & -> & Hscheme); [discriminate|].
  assert (scheme = "http") as ->; [|reflexivity].
  destruct Hscheme as [[_ Hall]|(before & after & Heq & Hp & Hall)].
  - apply Forall_cons in Hall as [_ Hall].
    apply Forall_cons in Hall as [Hhttp _]. discriminate Hhttp.
  - simpl in Heq. destruct before as [|b0 before]; simpl in Heq.
    { injection Heq as <- _. discriminate Hp. }
    injection Heq as <- Heq. destruct before as [|b1 before]; simpl in Heq.
    { by injection Heq as <- _. }
    injection Heq as <- _. apply Forall_cons in Hall as [_ Hall].
    apply Forall_cons in Hall as [Hhttp _]. discriminate Hhttp.
Defined.

Lemma operations_follow_path_order_witness :
  ∃ s settings,
    OpenAPIv2ToNDCSchema Petstore.options [] (Some petstore) =
    Converted s settings ∧
    map (λ f, req_URL (fn_Request f)) (Functions s) = ["/pets"] ∧
    map (λ p, (req_URL (proc_Request p), req_Method (proc_Request p)))
      (Procedures s) = [("/pets", "post"); ("/pets/{id}", "delete")].
Proof.
  destruct petstore_converts as (s & settings & Hc).
  exists s, settings. split; [exact Hc|].
  destruct (operations_follow_path_order Petstore.options _ _ _ _ Hc)
    as (_ & Hf & Hp).
  split; [exact Hf|exact Hp].
Defined.

Lemma definitions_are_registered_witness :
  ∃ s settings,
    OpenAPIv2ToNDCSchema Petstore.options [] (Some petstore) =
    Converted s settings ∧
    "Pet" ∈ dom (ObjectTypes s).
Proof.
  destruct petstore_converts as (s & settings & Hc).
  exists s, settings. split; [exact Hc|].
  apply (definitions_are_registered Petstore.options [] petstore s settings
           "pet" (MkSchemaProxy "" (Some untitledObject)) untitledObject Hc).
  - apply list_elem_of_here.
  - reflexivity.
  - repeat split.
  - reflexivity.
Defined.

End Coverage.
